(** * ram_chat: the e-mail index subsystem

    A shallow embedding of the index-maintenance code of the repository:
    - [email_downloader.py]: [authenticate_gmail], [list_messages],
      [get_message], [parse_message_parts], [fetch_emails_for_embedding]
      and [create_langchain_documents_from_emails];
    - [vector_store.py]: [initialize_email_vector_store], the two retriever
      factories and [update_email_vector_store_manual];
    - [email_tool.py]: [invoke_email_rag_chain];
      [handbook_tool.py]: [invoke_rag_chain];
    - [agent_factory.py]: [get_last_context];
      [app.py]: the handler of the update button.

    Python dictionaries whose keys are fixed by the code are records, the
    metadata dictionary handed to the vector store is a [gmap], exceptions are
    an outcome of the computation, and console output is not modelled (the
    calls that leave the process are recorded in a trace instead). *)

From Stdlib Require Import ZArith Lia Ascii String.
From stdpp Require Import base option list strings pretty gmap fin_maps.

Set Warnings "-register-all".

Local Open Scope Z_scope.
Local Open Scope string_scope.
Local Open Scope stdpp_scope.
Local Open Scope list_scope.

(** ** Python values *)

(** [if s:] on a [str]: true exactly when the string is not empty. *)
Definition truthy (s : string) : bool :=
  match s with
  | EmptyString => false
  | String _ _ => true
  end.

(** [if l:] on a [list]. *)
Definition nonempty {A} (l : list A) : bool :=
  match l with
  | [] => false
  | _ :: _ => true
  end.

(** [l[:n]] for an integer [n]: the first [n] elements, and for a negative
    [n] all but the last [-n]. *)
Definition slice_to {A} (n : Z) (l : list A) : list A :=
  take (Z.to_nat (if (0 <=? n)%Z then n else Z.of_nat (length l) + n)) l.

Definition nl : string := String "010"%char EmptyString.

(** An exception object: its class and [str(e)]. *)
Inductive exn_class :=
  HttpError | AttributeError | TypeError | ValueError | OverflowError
| OtherException.

Record exn := mkExn { exn_kind : exn_class; exn_str : string }.

(** The result of a call that may raise. *)
Inductive result (A : Type) :=
| Ok (a : A)
| Raise (e : exn).
Arguments Ok {A} a.
Arguments Raise {A} e.

(** ** External capabilities

    Library functions the code calls and whose bodies are outside the
    repository. *)
Class Ports := {
  (** [datetime] objects *)
  datetime : Type;
  (** [email.utils.parsedate_to_datetime] *)
  parsedate_to_datetime : string -> result datetime;
  (** [int(dt_obj.timestamp())] *)
  datetime_timestamp : datetime -> result Z;
  (** [base64.urlsafe_b64decode(s).decode('utf-8', errors='replace')] *)
  urlsafe_b64decode : string -> result string;
  (** [str.strip] *)
  str_strip : string -> string;
  (** embedding vectors and [embedding_model.embed_*] *)
  vector : Type;
  embed : string -> result vector;
  (** [nearer q v1 v2]: [v1] is at most as far from [q] as [v2] *)
  nearer : vector -> vector -> vector -> bool;
}.

(** ** Documents *)

(** A metadata value: Chroma metadata holds strings, integers and [None]. *)
Inductive meta_value :=
| MStr (s : string)
| MInt (z : Z)
| MNone.

#[global] Instance meta_value_eq_dec : EqDecision meta_value.
Proof. solve_decision. Defined.

(** [langchain_core.documents.Document] *)
Record Document := mkDocument {
  page_content : string;
  metadata : gmap string meta_value;
}.

(** One element of the list returned by [fetch_emails_for_embedding]:
    [{'id': .., 'sender': .., 'date': .., 'subject': .., 'body': ..}]. *)
Record email_data := mkEmail {
  em_id : string;
  em_sender : string;
  em_date : string;
  em_subject : string;
  em_body : string;
}.

(** [f"{timestamp}"] for [timestamp : int | None]. *)
Definition format_timestamp (timestamp : option Z) : string :=
  match timestamp with
  | None => "None"
  | Some z => pretty z
  end.

Definition timestamp_value (timestamp : option Z) : meta_value :=
  match timestamp with
  | None => MNone
  | Some z => MInt z
  end.

Definition indent : string := "            ".

Section Normalizer.
Context `{Ports}.

(** Lines 218-224 of [email_downloader.py]: the [try] around the date
    parsing; every exception leaves [timestamp = None]. A [datetime] object
    is always true, so [if dt_obj:] always takes the branch. *)
Definition parse_timestamp (date : string) : option Z :=
  match parsedate_to_datetime date with
  | Raise _ => None
  | Ok dt_obj =>
      match datetime_timestamp dt_obj with
      | Raise _ => None
      | Ok ts => Some ts
      end
  end.

(** The [Document(page_content=..., metadata={...})] of lines 228-243. *)
Definition make_document (e : email_data) (timestamp : option Z) : Document :=
  {| page_content :=
       nl +:+ indent +:+ "'sender': " +:+ em_sender e +:+ "," +:+ nl
       +:+ indent +:+ "'date_str': " +:+ em_date e +:+ "," +:+ nl
       +:+ indent +:+ "'subject': " +:+ em_subject e +:+ "," +:+ nl
       +:+ indent +:+ "'timestamp': " +:+ format_timestamp timestamp +:+ nl
       +:+ indent +:+ "'body':" +:+ em_body e +:+ nl
       +:+ indent;
     metadata :=
       <["source" := MStr "gmail"]>
       (<["message_id" := MStr (em_id e)]>
       (<["sender" := MStr (em_sender e)]>
       (<["date_str" := MStr (em_date e)]>
       (<["subject" := MStr (em_subject e)]>
       (<["timestamp" := timestamp_value timestamp]> ∅))))) |}.

(** The loop state: [documents], [doc_ids], [skipped_count]. *)
Record norm_state := mkNorm {
  documents : list Document;
  doc_ids : list string;
  skipped_count : nat;
}.

(** One iteration of the [for email_data in email_data_list] loop. *)
Definition normalize_step (st : norm_state) (e : email_data) : norm_state :=
  let timestamp := parse_timestamp (em_date e) in
  let doc := make_document e timestamp in
  if truthy (page_content doc) && truthy (em_id e) then
    {| documents := documents st ++ [doc];
       doc_ids := doc_ids st ++ [em_id e];
       skipped_count := skipped_count st |}
  else
    {| documents := documents st;
       doc_ids := doc_ids st;
       skipped_count := S (skipped_count st) |}.

Definition normalize_loop (email_data_list : list email_data) : norm_state :=
  foldl normalize_step (mkNorm [] [] 0) email_data_list.

(** [create_langchain_documents_from_emails]: returns
    [(documents, doc_ids)]; [skipped_count] is only printed. *)
Definition create_langchain_documents_from_emails
    (email_data_list : list email_data) : list Document * list string :=
  let st := normalize_loop email_data_list in
  (documents st, doc_ids st).

(** The number printed as [Skipped {skipped_count}.] *)
Definition reported_skipped (email_data_list : list email_data) : nat :=
  skipped_count (normalize_loop email_data_list).

End Normalizer.

(** ** The Gmail service

    What [service.users().messages()] answers. A listing is the answer to the
    first [list(...).execute()] call together with the answers to the calls
    made with each [nextPageToken]. *)

(** An element of [response['messages']]. *)
Record message_info := mkInfo { mi_id : string }.

Inductive Listing :=
| ListRaise (e : exn)
| ListPage (messages : option (list message_info)) (nextPage : option Listing).

(** A header of the payload: [{'name': .., 'value': ..}]. *)
Record header := mkHeader {
  h_name : option string;
  h_value : option string;
}.

(** [payload['body']] and [part['body']]. *)
Record body_dict := mkBody { b_data : option string }.

(** An element of [payload['parts']]. [None] is a missing key. *)
Inductive Part :=
| mkPart (mimeType : option string) (part_body : option body_dict)
         (sub_parts : option (list Part)).

Record payload_dict := mkPayload {
  pl_headers : option (list header);
  pl_parts : option (list Part);
  pl_body : option body_dict;
}.

(** The answer to [get(id=msg_id, format='full').execute()]. *)
Record message := mkMessage { msg_payload : option payload_dict }.

Record Service := mkService {
  svc_list : string -> Listing;
  svc_get : string -> result message;
}.

(** [str.lower] on the ASCII letters. *)
Definition ascii_lower (c : ascii) : ascii :=
  let n := nat_of_ascii c in
  if ((65 <=? n) && (n <=? 90))%nat then ascii_of_nat (n + 32) else c.

Fixpoint str_lower (s : string) : string :=
  match s with
  | EmptyString => EmptyString
  | String c r => String (ascii_lower c) (str_lower r)
  end.

(** [if data:] for [data : str | None]. *)
Definition truthy_opt (data : option string) : bool :=
  match data with
  | None => false
  | Some s => truthy s
  end.

Definition attribute_error : exn :=
  mkExn AttributeError "'NoneType' object has no attribute 'get'".

Section Harvest.
Context `{Ports}.

(** The [try] around the decoding, lines 114-119 and 174-178. *)
Definition decode_or_error (data : string) : string :=
  match urlsafe_b64decode (data +:+ "===") with
  | Ok decoded_data => decoded_data
  | Raise _ => "[Decoding Error]"
  end.

(** [parse_message_parts]: [parse_part] is one iteration of the loop, with
    [Some s] for [return s] and [None] for falling through to the next
    part. [part_body.get('data')] raises when the part has no body. *)
Fixpoint parse_part (part : Part) : result (option string) :=
  match part with
  | mkPart mimeType part_body sub_parts =>
      match part_body with
      | None => Raise attribute_error
      | Some b =>
          if bool_decide (mimeType = Some "text/plain") && truthy_opt (b_data b)
          then Ok (Some (decode_or_error (default EmptyString (b_data b))))
          else
            match sub_parts with
            | None => Ok None
            | Some sub =>
                let found_body :=
                  (fix parts_loop (parts : list Part) : result string :=
                     match parts with
                     | [] => Ok EmptyString
                     | p :: rest =>
                         match parse_part p with
                         | Raise e => Raise e
                         | Ok (Some s) => Ok s
                         | Ok None => parts_loop rest
                         end
                     end) sub in
                match found_body with
                | Raise e => Raise e
                | Ok s => if truthy s then Ok (Some s) else Ok None
                end
            end
      end
  end.

Fixpoint parts_loop (parts : list Part) : result string :=
  match parts with
  | [] => Ok EmptyString
  | p :: rest =>
      match parse_part p with
      | Raise e => Raise e
      | Ok (Some s) => Ok s
      | Ok None => parts_loop rest
      end
  end.

Definition parse_message_parts (parts : option (list Part)) : result string :=
  match parts with
  | None => Ok EmptyString
  | Some l => parts_loop l
  end.

(** The [for header in headers] loop of lines 159-167. *)
Definition header_step (acc : string * string * string) (h : header)
  : string * string * string :=
  let '(subject, sender, date) := acc in
  let name := str_lower (default EmptyString (h_name h)) in
  let value := default EmptyString (h_value h) in
  if bool_decide (name = "subject") then (value, sender, date)
  else if bool_decide (name = "from") then (subject, value, date)
  else if bool_decide (name = "date") then (subject, sender, value)
  else acc.

Definition read_headers (headers : list header) : string * string * string :=
  foldl header_step (EmptyString, EmptyString, EmptyString) headers.

(** Lines 169-181: the body of a payload. *)
Definition payload_body (payload : payload_dict) : result string :=
  match pl_parts payload with
  | Some parts => parse_message_parts (Some parts)
  | None =>
      match pl_body payload with
      | Some b =>
          if truthy_opt (b_data b)
          then Ok (decode_or_error (default EmptyString (b_data b)))
          else Ok "[No Body Found]"
      | None => Ok "[No Body Found]"
      end
  end.

(** The pagination loop of [list_messages], lines 72-81, on the answer to
    the next call. *)
Fixpoint list_pages (response : Listing) (messages : list message_info)
  : result (list message_info) :=
  match response with
  | ListRaise e => Raise e
  | ListPage None _ => Ok messages
  | ListPage (Some ms) None => Ok (messages ++ ms)
  | ListPage (Some ms) (Some next) => list_pages next (messages ++ ms)
  end.

(** [list_messages] without its effects: [None] is the [return None] of
    both handlers. *)
Definition list_messages_pure (service : Service) (query : string)
  : option (list message_info) :=
  match svc_list service query with
  | ListRaise _ => None
  | ListPage ms next =>
      let messages := default [] ms in
      match next with
      | None => Some messages
      | Some response =>
          match list_pages response messages with
          | Ok l => Some l
          | Raise _ => None
          end
      end
  end.

End Harvest.

(** ** The vector index *)

Section Index.
Context `{Ports}.

(** Modelled from the spec: one entry of the Vector Index of section 3
    (Chroma's collection is not part of the repository): the id it is keyed
    by, its embedding and the document. *)
Record Entry := mkEntry {
  entry_id : string;
  entry_vector : vector;
  entry_document : Document;
}.

(** Modelled from the spec: the Index of section 3, the persisted
    collection (Chroma's, not part of the repository), in insertion order. *)
Definition Store := list Entry.

Definition store_ids (s : Store) : list string := entry_id <$> s.

Definition has_id (id : string) (s : Store) : bool :=
  bool_decide (id ∈ store_ids s).

(** Modelled from the spec: the upsert of section 4.2 (the store is the
    Chroma library, which is not part of the repository): an entry whose id
    is already stored is replaced where it stands, a new one is added at the
    end. *)
Definition replace_entry (e : Entry) (s : Store) : Store :=
  (fun x => if bool_decide (entry_id x = entry_id e) then e else x) <$> s.

(** Modelled from the spec: the upsert of one entry (section 3: storing a
    Document with an existing id replaces it, never duplicates it; Chroma's
    write is not part of the repository). *)
Definition upsert_entry (s : Store) (e : Entry) : Store :=
  if has_id (entry_id e) s then replace_entry e s else s ++ [e].

(** Modelled from the spec: the upsert of a batch, entry by entry (section
    3: each upsert is applied independently; Chroma's write is not part of the
    repository). *)
Definition upsert_all (entries : list Entry) (s : Store) : Store :=
  foldl upsert_entry s entries.

(** The entry a batch leaves under [id]: the last one it holds for it. *)
Fixpoint last_for (entries : list Entry) (id : string) : option Entry :=
  match entries with
  | [] => None
  | e :: rest =>
      match last_for rest id with
      | Some x => Some x
      | None => if bool_decide (id = entry_id e) then Some e else None
      end
  end.

(** What a batch makes of a stored entry. *)
Definition override (entries : list Entry) (x : Entry) : Entry :=
  default x (last_for entries (entry_id x)).

(** Modelled from the spec: the embedding of a batch through the Embedding
    Port of section 6 ([embed_batch], called inside Chroma's write, which is
    not part of the repository): the whole batch fails when one text fails. *)
Fixpoint embed_all (texts : list string) : result (list vector) :=
  match texts with
  | [] => Ok []
  | t :: rest =>
      match embed t with
      | Raise e => Raise e
      | Ok v =>
          match embed_all rest with
          | Raise e => Raise e
          | Ok vs => Ok (v :: vs)
          end
      end
  end.

(** Modelled from the spec: the entries written for [documents] under
    [ids] (vector and metadata keyed by id, section 4.2; Chroma's write is not
    part of the repository). *)
Fixpoint make_entries (ids : list string) (vs : list vector)
    (docs : list Document) : list Entry :=
  match ids, vs, docs with
  | i :: ids', v :: vs', d :: docs' => mkEntry i v d :: make_entries ids' vs' docs'
  | _, _, _ => []
  end.

(** ** Retrieval filters *)

(** The comparators of [langchain]'s [Comparator] that the code allows. *)
Inductive Comparator := EQ | NE | GT | GTE | LT | LTE | LIKE.

(** Modelled from the spec: one triple of a Retrieval Filter of section 3,
    comparator, field and value (the filter type belongs to langchain, which
    is not part of the repository). *)

Record Comparison := mkComparison {
  comparator : Comparator;
  attribute : string;
  value : meta_value;
}.

(** Modelled from the spec: a Retrieval Filter of section 3, triples
    combined conjunctively (langchain's type, not part of the repository). *)
Definition Filter := list Comparison.

Fixpoint is_prefix (p s : string) : bool :=
  match p, s with
  | EmptyString, _ => true
  | String a p', String b s' => bool_decide (a = b) && is_prefix p' s'
  | String _ _, EmptyString => false
  end.

Fixpoint contains (needle s : string) : bool :=
  is_prefix needle s ||
  match s with
  | EmptyString => false
  | String _ s' => contains needle s'
  end.

(** Modelled from the spec: the comparators of section 4.4 (equals,
    not-equals, greater-than, greater-or-equal, less-than, less-or-equal,
    string-contains; evaluated inside Chroma, not part of the repository). *)
Definition compare_values (c : Comparator) (stored wanted : meta_value) : bool :=
  match c, stored, wanted with
  | EQ, _, _ => bool_decide (stored = wanted)
  | NE, _, _ => negb (bool_decide (stored = wanted))
  | GT, MInt a, MInt b => (b <? a)%Z
  | GTE, MInt a, MInt b => (b <=? a)%Z
  | LT, MInt a, MInt b => (a <? b)%Z
  | LTE, MInt a, MInt b => (a <=? b)%Z
  | LIKE, MStr a, MStr b => contains b a
  | _, _, _ => false
  end.

(** Modelled from the spec: a document matches a filter when it satisfies
    each of its triples (section 3; evaluated inside Chroma, not part of the
    repository). *)
Definition matches (f : Filter) (d : Document) : bool :=
  forallb (fun c =>
             match metadata d !! attribute c with
             | Some v => compare_values (comparator c) v (value c)
             | None => false
             end) f.

(** Modelled from the spec: the ordering by increasing distance of section
    4.2 (computed inside Chroma, not part of the repository), as a stable
    insertion by distance to the query vector [q]. *)
Fixpoint insert_by_distance (q : vector) (e : Entry) (sorted : list Entry)
  : list Entry :=
  match sorted with
  | [] => [e]
  | x :: rest =>
      if nearer q (entry_vector x) (entry_vector e)
      then x :: insert_by_distance q e rest
      else e :: x :: rest
  end.

(** Modelled from the spec: the stored entries, most similar first
    (section 4.2; computed inside Chroma, not part of the repository). *)
Definition rank (q : vector) (s : Store) : list Entry :=
  foldr (insert_by_distance q) [] s.

(** Modelled from the spec: [similarity_search(query_text, k, filter?)] of
    section 4.2 (Chroma is not part of the repository): the [k] nearest
    stored documents that match the filter, most similar first; the
    embedding of the query may fail. *)
Definition similarity_search (s : Store) (query_text : string) (k : nat)
    (filter : option Filter) : result (list Document) :=
  match embed query_text with
  | Raise e => Raise e
  | Ok q =>
      let candidates :=
        match filter with
        | None => s
        | Some f => List.filter (fun e => matches f (entry_document e)) s
        end in
      Ok (entry_document <$> take k (rank q candidates))
  end.

(** Modelled from the spec: [all_metadata()] of section 4.2, the
    [vector_store.get(include=['metadatas'])] of the metadata dump. *)
Definition all_metadata (s : Store) : list (gmap string meta_value) :=
  (fun e => metadata (entry_document e)) <$> s.

End Index.

(** ** Configuration, outside world and effects *)

(** The values of [config.py] the e-mail index reads. *)
Record Config := mkConfig {
  EMAIL_DB_DIRECTORY : string;
  REBUILD_EMAIL_VECTOR_STORE : bool;
  UPDATE_EMAIL_ON_STARTUP : bool;
  EMAIL_UPDATE_WINDOW_DAYS : Z;
  DUMP_EMAIL_METADATA_ON_STARTUP : bool;
  TIME_FRAME_FOR_EMAIL_VECTOR_STORE_BUILD : string;
  NUMBER_OF_EMAILS_RETRIEVED : nat;
}.

(** What the outside world answers during one run. *)
Record Env := mkEnv {
  (** [from email_downloader import ...] succeeded *)
  downloader_imported : bool;
  (** what [authenticate_gmail()] does: raises, returns [None], or returns a
      service *)
  gmail_auth : result (option Service);
  (** [(datetime.now() - timedelta(days=d)).strftime('%Y/%m/%d')]:
      [timedelta] and the subtraction raise [OverflowError] when the
      number of days or the date is out of range *)
  date_since : Z -> result string;
  (** [Chroma(persist_directory=...)] raises *)
  chroma_open_error : option exn;
  (** the disk write of the store raises *)
  chroma_write_error : option exn;
}.

(** Calls that leave the process, in the order they are made. *)
Inductive Event :=
| EvRmtree (dir : string)
| EvMakedirs (dir : string)
| EvAuthenticate
| EvListMessages (query : string)
| EvGetMessage (msg_id : string)
| EvChromaOpen (dir : string)
| EvFromDocuments (dir : string) (ids : list string)
| EvAddDocuments (dir : string) (ids : list string)
| EvDumpMetadata (metadatas : list (gmap string meta_value))
| EvStError (msg : string)
| EvStWarning (msg : string).

(** The calls the harvester makes. *)
Definition is_harvest_event (ev : Event) : bool :=
  match ev with
  | EvListMessages _ | EvGetMessage _ => true
  | _ => false
  end.


(** The calls of lines 86-89, given whether the directory exists. *)
Definition discard_events (dir_exists : bool) (dir : string) : list Event :=
  (if dir_exists then [EvRmtree dir] else []) ++ [EvMakedirs dir].

(** The calls that write documents to a store. *)
Definition is_write_event (ev : Event) : bool :=
  match ev with
  | EvFromDocuments _ _ | EvAddDocuments _ _ => true
  | _ => false
  end.

(** A loaded [Chroma] object: a handle on its persist directory. *)
Record Chroma := mkChroma { persist_directory : string }.

(** How a computation ends: with a value, with an exception, or with the
    script stopped by [st.stop()], which no [except Exception] catches. *)
Inductive Outcome (A : Type) :=
| Val (a : A)
| Exc (e : exn)
| Stopped.
Arguments Val {A} a.
Arguments Exc {A} e.
Arguments Stopped {A}.

Section Effects.
Context `{Ports}.

(** The mutable world: the directories holding a persisted index (an
    absent key is a directory that does not exist), the trace, and
    [st.session_state['last_used_context']]. *)
Record World := mkWorld {
  fs : gmap string Store;
  trace : list Event;
  last_used_context : option (list Document);
}.

Definition M (A : Type) : Type := World -> Outcome A * World.

#[global] Instance M_ret : MRet M := fun A a w => (Val a, w).

#[global] Instance M_bind : MBind M := fun A B f m w =>
  match m w with
  | (Val a, w') => f a w'
  | (Exc e, w') => (Exc e, w')
  | (Stopped, w') => (Stopped, w')
  end.

Definition raise {A} (e : exn) : M A := fun w => (Exc e, w).

Definition st_stop {A} : M A := fun w => (Stopped, w).

Definition lift_result {A} (r : result A) : M A :=
  match r with
  | Ok a => mret a
  | Raise e => raise e
  end.

(** [try: m except Exception as e: h e] *)
Definition try_except {A} (m : M A) (h : exn -> M A) : M A := fun w =>
  match m w with
  | (Exc e, w') => h e w'
  | r => r
  end.

Definition log (ev : Event) : M unit := fun w =>
  (Val tt, {| fs := fs w; trace := trace w ++ [ev];
              last_used_context := last_used_context w |}).

Definition get_fs : M (gmap string Store) := fun w => (Val (fs w), w).

Definition put_fs (f : gmap string Store) : M unit := fun w =>
  (Val tt, {| fs := f; trace := trace w;
              last_used_context := last_used_context w |}).

Definition set_last_used_context (c : option (list Document)) : M unit := fun w =>
  (Val tt, {| fs := fs w; trace := trace w; last_used_context := c |}).

(** The world after the calls [evs]. *)
Definition add_events (evs : list Event) (w : World) : World :=
  {| fs := fs w; trace := trace w ++ evs;
     last_used_context := last_used_context w |}.

(** The world once the directory [dir] has been discarded and
    recreated. *)
Definition discarded (dir : string) (w : World) : World :=
  {| fs := <[dir := []]> (fs w);
     trace := trace w ++ discard_events (bool_decide (is_Some (fs w !! dir))) dir;
     last_used_context := last_used_context w |}.

Definition st_error (msg : string) : M unit := log (EvStError msg).
Definition st_warning (msg : string) : M unit := log (EvStWarning msg).

(** [pass] *)
Definition pass : M unit := mret tt.

Fixpoint foldM {A B} (f : A -> B -> M A) (a : A) (l : list B) : M A :=
  match l with
  | [] => mret a
  | b :: rest => a' ← f a b; foldM f a' rest
  end.

(** *** The file system *)

Definition os_path_exists (dir : string) : M bool :=
  f ← get_fs; mret (bool_decide (is_Some (f !! dir))).

Definition shutil_rmtree (dir : string) : M unit :=
  log (EvRmtree dir);; f ← get_fs; put_fs (delete dir f).

(** [os.makedirs(dir, exist_ok=True)] *)
Definition os_makedirs (dir : string) : M unit :=
  log (EvMakedirs dir);;
  f ← get_fs;
  match f !! dir with
  | Some _ => mret tt
  | None => put_fs (<[dir := []]> f)
  end.

Section WithEnv.
Variable env : Env.

(** *** The store *)

(** Modelled from the spec: opening the persisted index at a location
    (the [Chroma] constructor is not part of the repository); a
    directory without a collection is an empty index. *)
Definition Chroma_open (dir : string) : M Chroma :=
  log (EvChromaOpen dir);;
  match chroma_open_error env with
  | Some e => raise e
  | None =>
      f ← get_fs;
      match f !! dir with
      | Some _ => mret (mkChroma dir)
      | None => put_fs (<[dir := []]> f);; mret (mkChroma dir)
      end
  end.

(** Modelled from the spec: the write of section 4.2 (Chroma is not part
    of the repository): the texts are embedded, then every entry is
    upserted under its id; when the embedding or the disk write fails the
    batch fails and the store is as before. *)
Definition write_batch (dir : string) (documents : list Document)
    (ids : list string) : M unit :=
  if bool_decide (length documents = length ids) then
    vs ← lift_result (embed_all (page_content <$> documents));
    match chroma_write_error env with
    | Some e => raise e
    | None =>
        f ← get_fs;
        put_fs (<[dir := upsert_all (make_entries ids vs documents)
                                    (default [] (f !! dir))]> f)
    end
  else raise (mkExn ValueError "Number of ids must match number of documents").

(** [vector_store.add_documents(documents=..., ids=...)] *)
Definition add_documents (vector_store : Chroma) (documents : list Document)
    (ids : list string) : M unit :=
  log (EvAddDocuments (persist_directory vector_store) ids);;
  write_batch (persist_directory vector_store) documents ids.

(** [Chroma.from_documents(documents=..., ids=..., persist_directory=...)] *)
Definition Chroma_from_documents (documents : list Document)
    (ids : list string) (dir : string) : M Chroma :=
  log (EvFromDocuments dir ids);;
  write_batch dir documents ids;;
  mret (mkChroma dir).

(** *** The harvester *)

(** [authenticate_gmail()], seen from its callers; the name is [None]
    when the import failed. *)
Definition authenticate_gmail : M (option Service) :=
  if downloader_imported env
  then log EvAuthenticate;; lift_result (gmail_auth env)
  else raise (mkExn TypeError "'NoneType' object is not callable").

Definition list_messages (service : Service) (query : string)
  : M (option (list message_info)) :=
  log (EvListMessages query);;
  mret (list_messages_pure service query).

(** [get_message]: [None] on every exception. *)
Definition get_message (service : Service) (msg_id : string)
  : M (option message) :=
  log (EvGetMessage msg_id);;
  mret (match svc_get service msg_id with
        | Ok m => Some m
        | Raise _ => None
        end).

(** One iteration of the loop of lines 147-186. *)
Definition fetch_one (service : Service) (structured_emails : list email_data)
    (info : message_info) : M (list email_data) :=
  let msg_id := mi_id info in
  message ← get_message service msg_id;
  match message with
  | None => mret structured_emails
  | Some m =>
      match msg_payload m with
      | None => mret structured_emails
      | Some payload =>
          let '(subject, sender, date) :=
            read_headers (default [] (pl_headers payload)) in
          body ← lift_result (payload_body payload);
          mret (structured_emails ++
                [mkEmail msg_id sender date subject (str_strip body)])
      end
  end.

(** [fetch_emails_for_embedding]: both handlers [return []]. *)
Definition fetch_emails_for_embedding (service : Service) (query : string)
    (max_results : option Z) : M (list email_data) :=
  try_except
    (messages_info ← list_messages service query;
     match messages_info with
     | None => mret []
     | Some [] => mret []
     | Some infos =>
         let messages_to_process :=
           match max_results with
           | Some n => slice_to n infos
           | None => infos
           end in
         foldM (fetch_one service) [] messages_to_process
     end)
    (fun _ => mret []).

(** *** Maintenance *)

(** [update_email_vector_store_manual(persist_dir, embedding_model,
    days_to_check)] *)
Definition update_email_vector_store_manual (persist_dir : string)
    (days_to_check : Z) : M (bool * string) :=
  dir_exists ← os_path_exists persist_dir;
  if negb dir_exists then
    mret (false, "Error: Vector store directory not found at " +:+ persist_dir
                 +:+ ". Cannot update.")
  else
    try_except
      (vector_store ← Chroma_open persist_dir;
       update_since_date ← lift_result (date_since env days_to_check);
       let update_query := "after:" +:+ update_since_date in
       gmail_service ← authenticate_gmail;
       match gmail_service with
       | None => mret (false, "Update failed: Gmail authentication failed.")
       | Some service =>
           emails_data ← fetch_emails_for_embedding service update_query None;
           if negb (nonempty emails_data) then
             mret (true, "No new emails found since " +:+ update_since_date +:+ ".")
           else
             let '(new_documents, new_doc_ids) :=
               create_langchain_documents_from_emails emails_data in
             if negb (nonempty new_documents) then
               mret (true, "Fetched emails, but no valid new documents were created to add.")
             else
               add_documents vector_store new_documents new_doc_ids;;
               mret (true, "Successfully added/updated "
                           +:+ pretty (length new_documents)
                           +:+ " email documents.")
       end)
      (fun update_err =>
         mret (false, "An error occurred during the update: "
                      +:+ exn_str update_err)).

Variable config : Config.

(** The rebuild branch of [initialize_email_vector_store], lines 84-122. *)
Definition rebuild_email_vector_store (persist_dir : string)
  : M (option Chroma) :=
  dir_exists ← os_path_exists persist_dir;
  (if (dir_exists : bool) then shutil_rmtree persist_dir else pass);;
  os_makedirs persist_dir;;
  if downloader_imported env then
    gmail_service ← authenticate_gmail;
    match gmail_service with
    | Some service =>
        let query := "newer_than:"
                     +:+ TIME_FRAME_FOR_EMAIL_VECTOR_STORE_BUILD config in
        emails_data ← fetch_emails_for_embedding service query None;
        if nonempty emails_data then
          let '(langchain_documents, document_ids) :=
            create_langchain_documents_from_emails emails_data in
          if nonempty langchain_documents then
            vs ← Chroma_from_documents langchain_documents document_ids
                   persist_dir;
            mret (Some vs)
          else
            vs ← Chroma_open persist_dir; mret (Some vs)
        else
          vs ← Chroma_open persist_dir; mret (Some vs)
    | None =>
        st_error "Gmail authentication failed. Cannot rebuild email store.";;
        st_stop
    end
  else
    st_error "Email downloader functions not available. Cannot rebuild email store.";;
    st_stop.

(** The other branch, lines 124-142: load the store or create an empty
    one. *)
Definition load_email_vector_store (persist_dir : string)
  : M (option Chroma) :=
  dir_exists ← os_path_exists persist_dir;
  if (dir_exists : bool) then
    try_except
      (vs ← Chroma_open persist_dir; mret (Some vs))
      (fun e =>
         st_error ("Error loading email vector store from " +:+ persist_dir
                   +:+ ": " +:+ exn_str e +:+ ". Try rebuilding.");;
         st_stop)
  else
    os_makedirs persist_dir;;
    vs ← Chroma_open persist_dir;
    st_warning ("Email vector store not found. Created empty store at "
                +:+ persist_dir +:+ ". Re-run with rebuild flag if needed.");;
    mret (Some vs).

(** [except (AttributeError, ValueError, TypeError) as e] *)
Definition config_error_caught (e : exn) : bool :=
  match exn_kind e with
  | AttributeError | ValueError | TypeError => true
  | _ => false
  end.

(** Lines 150-158 of the update on start: the query, or [None] after the
    warning of the handler; an exception of another class (the
    [OverflowError] of [timedelta]) is not caught. The configured number of
    days is an integer, so [int(...)] returns it. *)
Definition startup_query : M (option string) :=
  let days_to_check := EMAIL_UPDATE_WINDOW_DAYS config in
  match date_since env days_to_check with
  | Ok update_since_date => mret (Some ("after:" +:+ update_since_date))
  | Raise e =>
      if config_error_caught e then
        st_warning ("Config error for EMAIL_UPDATE_WINDOW_DAYS: " +:+ exn_str e
                    +:+ ". Skipping email update.");;
        mret None
      else raise e
  end.

(** The optional update on start, lines 145-183; a query that was built is
    never the empty string. *)
Definition startup_update (vector_store : option Chroma) : M unit :=
  if downloader_imported env then
    gmail_service ← authenticate_gmail;
    match gmail_service with
    | Some service =>
        query ← startup_query;
        match query with
        | Some query =>
            emails_data ← fetch_emails_for_embedding service query None;
            if nonempty emails_data then
              let '(langchain_documents, document_ids) :=
                create_langchain_documents_from_emails emails_data in
              if nonempty langchain_documents then
                try_except
                  (match vector_store with
                   | Some vs => add_documents vs langchain_documents document_ids
                   | None => raise attribute_error
                   end)
                  (fun e => st_warning ("Error updating email store: " +:+ exn_str e))
              else pass
            else pass
        | None => pass
        end
    | None =>
        st_warning "Gmail authentication failed. Cannot update email store."
    end
  else
    st_warning "Email downloader functions not available. Cannot update email store.".

(** The metadata dump, lines 186-204; what it prints is the event. *)
Definition dump_metadata (vector_store : option Chroma) : M unit :=
  match vector_store with
  | Some vs =>
      f ← get_fs;
      log (EvDumpMetadata (all_metadata (default [] (f !! persist_directory vs))))
  | None => pass
  end.

(** [initialize_email_vector_store(embedding_model)] *)
Definition initialize_email_vector_store : M Chroma :=
  let persist_dir := EMAIL_DB_DIRECTORY config in
  vector_store ←
    (if REBUILD_EMAIL_VECTOR_STORE config
     then rebuild_email_vector_store persist_dir
     else load_email_vector_store persist_dir);
  (if negb (REBUILD_EMAIL_VECTOR_STORE config) && UPDATE_EMAIL_ON_STARTUP config
   then startup_update vector_store else pass);;
  (if DUMP_EMAIL_METADATA_ON_STARTUP config
   then dump_metadata vector_store else pass);;
  match vector_store with
  | None =>
      st_error "Failed to load or create the email vector store.";;
      st_stop
  | Some vs => mret vs
  end.

(** *** Retrieval *)

(** [AttributeInfo(name=..., description=..., type=...)] *)
Record AttributeInfo := mkAttributeInfo {
  ai_name : string;
  ai_description : string;
  ai_type : string;
}.

(** The language model, seen from the code: what
    [SelfQueryRetriever.from_llm] makes of it (it raises, or it yields
    the step that turns a query into a filter, which may itself raise),
    and the answer of the document chain. *)
Record LanguageModel := mkLLM {
  from_llm : list AttributeInfo -> list Comparator -> result (string -> result Filter);
  document_chain : string -> list Document -> result string;
}.

Inductive Retriever :=
| StandardRetriever (vector_store : Chroma) (k : nat)
| SelfQueryRetriever (vector_store : Chroma)
    (query_constructor : string -> result Filter) (k : nat).

Definition allowed_comparators : list Comparator :=
  [EQ; NE; GT; GTE; LT; LTE; LIKE].

(** [get_email_standard_retriever] *)
Definition get_email_standard_retriever (vector_store : Chroma) : Retriever :=
  StandardRetriever vector_store (NUMBER_OF_EMAILS_RETRIEVED config).

(** [get_email_self_query_retriever]: the [try] is around the
    construction of the retriever. *)
Definition get_email_self_query_retriever (vector_store : Chroma)
    (llm : LanguageModel) (metadata_field_info : list AttributeInfo)
  : Retriever :=
  match from_llm llm metadata_field_info allowed_comparators with
  | Ok query_constructor =>
      SelfQueryRetriever vector_store query_constructor
        (NUMBER_OF_EMAILS_RETRIEVED config)
  | Raise _ => get_email_standard_retriever vector_store
  end.

(** Modelled from the spec: [retrieve(query_text)] of the two strategies
    of section 4.4 (the retriever classes belong to the langchain
    library): the standard one searches without a filter, the self-query
    one derives a filter and searches with it; an exception of the
    derivation leaves [retrieve] like any other. *)
Definition retrieve (r : Retriever) (query_text : string) : M (list Document) :=
  match r with
  | StandardRetriever vs k =>
      f ← get_fs;
      lift_result (similarity_search (default [] (f !! persist_directory vs))
                     query_text k None)
  | SelfQueryRetriever vs query_constructor k =>
      filter ← lift_result (query_constructor query_text);
      f ← get_fs;
      lift_result (similarity_search (default [] (f !! persist_directory vs))
                     query_text k (Some filter))
  end.

(** The argument of the tool: a dict (with or without the key
    ['input']), a string, or anything else. *)
Inductive ToolInput :=
| InputDict (input : option string)
| InputStr (s : string)
| InputOther.

(** [invoke_email_rag_chain] of [email_tool.py]. *)
Definition invoke_email_rag_chain (llm : LanguageModel) (retriever : Retriever)
    (input_dict : ToolInput) : M string :=
  set_last_used_context None;;
  let run (query : string) : M string :=
    try_except
      (context ← retrieve retriever query;
       answer ← lift_result (document_chain llm query context);
       (if nonempty context
        then set_last_used_context (Some context)
        else set_last_used_context None);;
       mret answer)
      (fun e => mret ("Error invoking Email RAG chain: " +:+ exn_str e)) in
  match input_dict with
  | InputDict (Some query) => run query
  | InputStr query => run query
  | _ => mret "Error: Invalid input format for Email RAG tool."
  end.

End WithEnv.
End Effects.

(** ** The three results of the manual update, as the operator reads them *)

(** Success with the number of documents added or updated. *)
Definition added_result (r : bool * string) : Prop :=
  r.1 = true
  ∧ ∃ n : nat, (0 < n)%nat
      ∧ r.2 = "Successfully added/updated " +:+ pretty n +:+ " email documents.".

(** Success with nothing to add. *)
Definition no_new_items_result (r : bool * string) : Prop :=
  r.1 = true
  ∧ ((∃ since, r.2 = "No new emails found since " +:+ since +:+ ".")
     ∨ r.2 = "Fetched emails, but no valid new documents were created to add.").

(** Failure with its reason. *)
Definition failed_result (r : bool * string) : Prop :=
  r.1 = false
  ∧ ((∃ dir, r.2 = "Error: Vector store directory not found at " +:+ dir
                   +:+ ". Cannot update.")
     ∨ r.2 = "Update failed: Gmail authentication failed."
     ∨ ∃ reason, r.2 = "An error occurred during the update: " +:+ reason).

(** The result of the handler of the update for the exception [e]. *)
Definition update_error (e : exn) : bool * string :=
  (false, "An error occurred during the update: " +:+ exn_str e).

(** ** Fixtures *)

Definition parsed_date : string := "Mon, 05 May 2025 10:00:00 +0000".

(** Ports that know one date, decode and strip nothing, embed a text as its
    length and compare lengths. *)
Definition test_ports : Ports := {|
  datetime := Z;
  parsedate_to_datetime := fun s =>
    if bool_decide (s = parsed_date) then Ok 1746439200
    else Raise (mkExn ValueError "Invalid date value or format");
  datetime_timestamp := fun z => Ok z;
  urlsafe_b64decode := fun s => Ok s;
  str_strip := fun s => s;
  vector := nat;
  embed := fun t => Ok (String.length t);
  nearer := fun q a b => ((a - q) + (q - a) <=? (b - q) + (q - b))%nat;
|}.

Definition test_dir : string := "chroma_db_emails_google_text_embedding_004".

(** The values of [config.py]. *)
Definition repo_config : Config := {|
  EMAIL_DB_DIRECTORY := test_dir;
  REBUILD_EMAIL_VECTOR_STORE := true;
  UPDATE_EMAIL_ON_STARTUP := true;
  EMAIL_UPDATE_WINDOW_DAYS := 2;
  DUMP_EMAIL_METADATA_ON_STARTUP := false;
  TIME_FRAME_FOR_EMAIL_VECTOR_STORE_BUILD := "60d";
  NUMBER_OF_EMAILS_RETRIEVED := 15;
|}.

Definition http_503 : exn :=
  mkExn HttpError "<HttpError 503 when requesting the Gmail API: Service Unavailable>".

(** A mailbox with one message. *)
Definition mailbox_service : Service := {|
  svc_list := fun _ => ListPage (Some [mkInfo "m1"]) None;
  svc_get := fun _ =>
    Ok (mkMessage (Some (mkPayload
      (Some [mkHeader (Some "From") (Some "dean@school.example");
             mkHeader (Some "Subject") (Some "Assembly");
             mkHeader (Some "Date") (Some parsed_date)])
      None
      (Some (mkBody (Some "See you there."))))));
|}.

(** A service whose listing call fails. *)
Definition unreachable_service : Service := {|
  svc_list := fun _ => ListRaise http_503;
  svc_get := fun _ => Raise http_503;
|}.

(** A service that lists one message and fails to deliver it. *)
Definition flaky_service : Service := {|
  svc_list := fun _ => ListPage (Some [mkInfo "m1"]) None;
  svc_get := fun _ => Raise http_503;
|}.


(** An outside world with a clock: [timedelta] accepts up to 999999999
    days. *)
Definition env_with (auth : result (option Service)) : Env := {|
  downloader_imported := true;
  gmail_auth := auth;
  date_since := fun days =>
    if (Z.abs days <=? 999999999)%Z then Ok "2025/05/03"
    else Raise (mkExn OverflowError
                  ("days=" +:+ pretty days
                   +:+ "; must have magnitude <= 999999999"));
  chroma_open_error := None;
  chroma_write_error := None;
|}.

Definition prior_entry : @Entry test_ports :=
  @mkEntry test_ports "m0" 7%nat
    (@make_document (mkEmail "m0" "dean@school.example" parsed_date "Welcome"
                       "Welcome back.") (Some 1746439200)).

(** The message of [prior_entry], harvested again with another body. *)
Definition updated_email : email_data :=
  mkEmail "m0" "dean@school.example" parsed_date "Welcome"
    "Welcome back, everyone.".

(** A world without index directory, and one with an index of one entry. *)
Definition world_absent : @World test_ports :=
  @mkWorld test_ports ∅ [] None.

Definition world_ready : @World test_ports :=
  @mkWorld test_ports {[ test_dir := [prior_entry] ]} [] None.

(** [email_metadata_field_info] of [agent_factory.py]; [today] is
    [datetime.date.today().strftime('%Y-%m-%d')]. *)
Definition email_metadata_field_info (today : string) : list AttributeInfo :=
  [ mkAttributeInfo "source"
      "The source of the document, should always be 'gmail'" "string";
    mkAttributeInfo "subject" "The subject line of the email" "string";
    mkAttributeInfo "timestamp"
      ("The date and time the email was received, stored as an integer Unix timestamp "
       +:+ "(seconds since epoch UTC). **Use this field EXCLUSIVELY for filtering or sorting emails by date.** "
       +:+ "For queries asking for the 'latest', 'newest', 'most recent', or 'next' information, you should filter for documents with a timestamp greater than a relevant past date or sort by this field in descending order. "
       +:+ "Example filter for emails after May 1, 2025 (UTC): {'comparator': 'gt', 'attribute': 'timestamp', 'value': 1746057600}. "
       +:+ "**Remember the value MUST be an integer timestamp.** Today's date is "
       +:+ today +:+ ".")
      "integer";
    mkAttributeInfo "message_id" "The unique identifier for the Gmail message"
      "string" ].

Definition parse_failure : exn :=
  mkExn OtherException "Failed to parse a StructuredQuery from the model output".

(** A model whose retriever is built and whose filter step fails on every
    query. *)
Definition llm_without_filter : LanguageModel := {|
  from_llm := fun _ _ => Ok (fun _ => Raise parse_failure);
  document_chain := fun _ _ => Ok "Assembly is on Monday.";
|}.

(** ** Readings of the claims that fail *)

Section Readings.
Context `{Ports}.

(** The listing call of the harvester fails with an HTTP error. *)
Definition list_call_fails (service : Service) (q : string) : Prop :=
  ∃ e, svc_list service q = ListRaise e ∧ exn_kind e = HttpError.

(** Every message of the listing fails to be fetched. *)
Definition get_calls_fail (service : Service) : Prop :=
  ∀ msg_id, ∃ e, svc_get service msg_id = Raise e ∧ exn_kind e = HttpError.

(** The update returns a failure result. *)
Definition reports_failure (env : Env) (dir : string) (days : Z) (w : World)
  : Prop :=
  ∃ reason w',
    update_email_vector_store_manual env dir days w = (Val (false, reason), w').

(** The construction of the filter for [q] fails: the retriever cannot be
    built, or its filter step raises on [q]. *)
Definition filter_construction_fails (llm : LanguageModel)
    (info : list AttributeInfo) (q : string) : Prop :=
  match from_llm llm info allowed_comparators with
  | Raise _ => True
  | Ok query_constructor => ∃ e, query_constructor q = Raise e
  end.

(** The retriever made for the self-query strategy answers [q] as the
    standard one. *)
Definition answers_as_standard (config : Config) (llm : LanguageModel)
    (info : list AttributeInfo) (vs : Chroma) (q : string) (w : World) : Prop :=
  retrieve (get_email_self_query_retriever config vs llm info) q w
  = retrieve (get_email_standard_retriever config vs) q w.


End Readings.

(** ** The normalizer seen item by item *)

Section NormalizeOne.
Context `{Ports}.

(** The decision of one iteration: the document and its id, or a skip. *)
Definition normalize_one (e : email_data) : option (Document * string) :=
  let doc := make_document e (parse_timestamp (em_date e)) in
  if truthy (page_content doc) && truthy (em_id e)
  then Some (doc, em_id e) else None.

End NormalizeOne.

Definition empty_body_email : email_data :=
  mkEmail "m1" "dean@school.example" parsed_date "Assembly" EmptyString.

Definition bad_date_email : email_data :=
  mkEmail "m2" "dean@school.example" "next Tuesday" "Assembly" "See you there.".




(** * Further definitions *)

Set Warnings "-clear-no-such-hyp".

(** ** Descriptions of the harvester's loops *)

(** A chain of pages that all carry messages, followed by [last]. *)
Fixpoint listing_of (pages : list (list message_info)) (last : option Listing)
  : option Listing :=
  match pages with
  | [] => last
  | p :: rest => Some (ListPage (Some p) (listing_of rest last))
  end.

(** The value of the last header named [name] (in lower case), or the empty
    string. *)
Definition last_header_value (name : string) (headers : list header) : string :=
  match last (filter (λ h, str_lower (default EmptyString (h_name h)) = name)
                headers) with
  | Some h => default EmptyString (h_value h)
  | None => EmptyString
  end.

(** The fields of a part. *)
Definition part_mime (p : Part) : option string :=
  match p with mkPart mimeType _ _ => mimeType end.

Definition part_body_of (p : Part) : option body_dict :=
  match p with mkPart _ part_body _ => part_body end.

Definition part_sub_parts (p : Part) : option (list Part) :=
  match p with mkPart _ _ sub_parts => sub_parts end.

(** The data of a part, when it has a body with data. *)
Definition part_data (p : Part) : option string :=
  part_body_of p ≫= b_data.

(** A part the parser returns: [text/plain] with data that is not empty. *)
Definition is_plain_text (p : Part) : bool :=
  bool_decide (part_mime p = Some "text/plain") && truthy_opt (part_data p).

(** A part with a body and without the key ['parts']. *)
Definition is_leaf_part (p : Part) : bool :=
  bool_decide (is_Some (part_body_of p))
  && bool_decide (part_sub_parts p = None).

(** Every part, at every depth, has a body. *)
Fixpoint bodies_present (p : Part) : bool :=
  match p with
  | mkPart _ part_body sub_parts =>
      bool_decide (is_Some part_body)
      && match sub_parts with
         | None => true
         | Some sub =>
             (fix all_present (parts : list Part) : bool :=
                match parts with
                | [] => true
                | q :: rest => bodies_present q && all_present rest
                end) sub
         end
  end.

(** The messages [fetch_emails_for_embedding] processes: the listed
    ones, cut to [max_results]; none when the listing is empty or failed. *)
Definition messages_to_process (service : Service) (query : string)
    (max_results : option Z) : list message_info :=
  match list_messages_pure service query with
  | None => []
  | Some infos =>
      match max_results with
      | Some n => slice_to n infos
      | None => infos
      end
  end.

(** The calls for the messages [infos]. *)
Definition get_events (infos : list message_info) : list Event :=
  (λ info, EvGetMessage (mi_id info)) <$> infos.

Section HarvestedItems.
Context `{Ports}.

(** What one listed message gives: nothing when it cannot be retrieved or
    has no payload, else the item built from it, or the exception of the
    parsing of its parts. *)
Definition harvested (service : Service) (info : message_info)
  : option (result email_data) :=
  match svc_get service (mi_id info) with
  | Raise _ => None
  | Ok m =>
      match msg_payload m with
      | None => None
      | Some payload =>
          let '(subject, sender, date) :=
            read_headers (default [] (pl_headers payload)) in
          Some match payload_body payload with
               | Raise e => Raise e
               | Ok body =>
                   Ok (mkEmail (mi_id info) sender date subject (str_strip body))
               end
      end
  end.

(** The item kept for a listed message, if any. *)
Definition kept (service : Service) (info : message_info) : option email_data :=
  match harvested service info with
  | Some (Ok email) => Some email
  | _ => None
  end.

(** The message makes the parsing raise. *)
Definition poisons (service : Service) (info : message_info) : Prop :=
  ∃ e, harvested service info = Some (Raise e).

End HarvestedItems.

(** ** Further fixtures *)

Definition plain_message (subject body : string) : message :=
  mkMessage (Some (mkPayload
    (Some [mkHeader (Some "From") (Some "dean@school.example");
           mkHeader (Some "Subject") (Some subject);
           mkHeader (Some "Date") (Some parsed_date)])
    None
    (Some (mkBody (Some body))))).

(** A part as a broken message can carry it: no body. *)
Definition bodiless_part : Part := mkPart (Some "text/html") None None.

(** A mailbox of two messages; the second one has a part without body. *)
Definition poisoned_service : Service := {|
  svc_list := fun _ => ListPage (Some [mkInfo "m1"; mkInfo "m2"]) None;
  svc_get := fun msg_id =>
    if bool_decide (msg_id = "m1") then Ok (plain_message "Assembly" "See you there.")
    else Ok (mkMessage (Some (mkPayload None (Some [bodiless_part]) None)));
|}.

(** A mailbox listed in three pages. *)
Definition paged_service : Service := {|
  svc_list := fun _ =>
    ListPage (Some [mkInfo "m1"])
      (Some (ListPage (Some [mkInfo "m2"; mkInfo "m3"])
         (Some (ListPage (Some [mkInfo "m4"]) None))));
  svc_get := fun msg_id => Ok (plain_message msg_id "See you there.");
|}.

(** A mailbox whose second page cannot be read. *)
Definition broken_page_service : Service := {|
  svc_list := fun _ =>
    ListPage (Some [mkInfo "m1"])
      (Some (ListPage (Some [mkInfo "m2"]) (Some (ListRaise http_503))));
  svc_get := fun msg_id => Ok (plain_message msg_id "See you there.");
|}.

(** ** The authentication, step by step

    [authenticate_gmail] of [email_downloader.py], lines 21-60, with the
    token file as state. The calls for the maintenance functions see its
    result only ([gmail_auth]). *)

Module Auth.

(** [google.oauth2.credentials.Credentials], as the code reads it. *)
Record Credentials := mkCredentials {
  valid : bool;
  expired : bool;
  refresh_token : option string;
}.

(** What [token.pickle] holds: a pickled value ([None] can be pickled), a
    content on which [pickle.load] raises [EOFError] or [UnpicklingError],
    or one on which it raises another exception. *)
Inductive TokenContent :=
| Pickled (creds : option Credentials)
| Truncated
| Unloadable (e : exn).

(** The calls made. *)
Inductive Call :=
| CallRefresh
| CallRemoveToken
| CallFlow
| CallWriteToken (creds : option Credentials)
| CallBuild (creds : option Credentials).

(** The token file ([None]: no file) and the calls made so far. *)
Record State := mkState {
  token : option TokenContent;
  calls : list Call;
}.

(** What the outside answers. *)
Record Oracle := mkOracle {
  (** [os.path.exists(CREDENTIALS_FILE)] *)
  credentials_file_exists : bool;
  (** [creds.refresh(Request())]: the refreshed credentials *)
  refresh : Credentials -> result Credentials;
  (** [InstalledAppFlow.from_client_secrets_file(...)] and
      [flow.run_local_server(port=0)] *)
  run_flow : result Credentials;
  (** [os.remove(TOKEN_FILE)] raises *)
  remove_error : option exn;
  (** [open(TOKEN_FILE, 'wb')] raises *)
  write_error : option exn;
  (** [build('gmail', 'v1', credentials=creds)] *)
  build : option Credentials -> result Service;
}.

Definition called (c : Call) (st : State) : State :=
  {| token := token st; calls := calls st ++ [c] |}.

(** Lines 24-30: the token file is read when it exists. *)
Definition load_token (st : State) : result (option Credentials) :=
  match token st with
  | None => Ok None
  | Some (Pickled creds) => Ok creds
  | Some Truncated => Ok None
  | Some (Unloadable e) => Raise e
  end.

(** Lines 51-60: both handlers [return None]. *)
Definition build_service (o : Oracle) (creds : option Credentials) (st : State)
  : result (option Service) * State :=
  (match build o creds with
   | Ok service => Ok (Some service)
   | Raise _ => Ok None
   end, called (CallBuild creds) st).

(** Lines 48-50, followed by the building of the service. *)
Definition save_and_build (o : Oracle) (creds : option Credentials) (st : State)
  : result (option Service) * State :=
  match write_error o with
  | Some e => (Raise e, st)
  | None =>
      build_service o creds
        {| token := Some (Pickled creds);
           calls := calls st ++ [CallWriteToken creds] |}
  end.

(** Lines 40-47: the branch that asks the user. *)
Definition flow_branch (o : Oracle) (st : State)
  : result (option Service) * State :=
  if negb (credentials_file_exists o) then (Ok None, st)
  else
    match run_flow o with
    | Raise e => (Raise e, called CallFlow st)
    | Ok creds => save_and_build o (Some creds) (called CallFlow st)
    end.

(** Lines 32-39: the refresh and its handler. *)
Definition refresh_branch (o : Oracle) (creds : Credentials) (st : State)
  : result (option Service) * State :=
  match refresh o creds with
  | Ok refreshed => save_and_build o (Some refreshed) (called CallRefresh st)
  | Raise _ =>
      let st1 := called CallRefresh st in
      match token st1 with
      | Some _ =>
          match remove_error o with
          | Some e => (Raise e, st1)
          | None =>
              save_and_build o None
                {| token := None; calls := calls st1 ++ [CallRemoveToken] |}
          end
      | None => save_and_build o None st1
      end
  end.

(** [authenticate_gmail()] *)
Definition authenticate_gmail (o : Oracle) (st : State)
  : result (option Service) * State :=
  match load_token st with
  | Raise e => (Raise e, st)
  | Ok creds =>
      match creds with
      | Some c =>
          if negb (valid c) then
            if expired c && truthy_opt (refresh_token c)
            then refresh_branch o c st
            else flow_branch o st
          else build_service o creds st
      | None => flow_branch o st
      end
  end.

(** The outside world of the maintenance functions, with the authentication
    carried out on the token file [st]. *)
Definition env_of (o : Oracle) (st : State) (env : Env) : Env :=
  {| downloader_imported := downloader_imported env;
     gmail_auth := (authenticate_gmail o st).1;
     date_since := date_since env;
     chroma_open_error := chroma_open_error env;
     chroma_write_error := chroma_write_error env |}.

(** Stored credentials that are no longer valid and can be refreshed. *)
Definition refreshable (c : Credentials) : bool :=
  negb (valid c) && expired c && truthy_opt (refresh_token c).

End Auth.

(** A stored token that expired, and an outside where the refresh fails and
    the user grants access when asked. *)
Definition expired_credentials : Auth.Credentials :=
  Auth.mkCredentials false true (Some "1//refresh").

Definition fresh_credentials : Auth.Credentials :=
  Auth.mkCredentials true false (Some "1//new").

Definition auth_oracle (credentials_json : bool) : Auth.Oracle := {|
  Auth.credentials_file_exists := credentials_json;
  Auth.refresh := fun _ => Raise (mkExn OtherException "invalid_grant: Token has been expired or revoked.");
  Auth.run_flow := Ok fresh_credentials;
  Auth.remove_error := None;
  Auth.write_error := None;
  Auth.build := fun creds =>
    match creds with
    | Some _ => Ok mailbox_service
    | None => Raise (mkExn OtherException "could not determine default credentials")
    end;
|}.

Definition expired_token_state : Auth.State :=
  Auth.mkState (Some (Auth.Pickled (Some expired_credentials))) [].

(** ** The tools around the session state *)

(** [f"{value}"] for a metadata value. *)
Definition format_meta (v : meta_value) : string :=
  match v with
  | MStr s => s
  | MInt z => pretty z
  | MNone => "None"
  end.

(** [f"{metadata.get(key, 'N/A')}"] *)
Definition get_or_na (m : gmap string meta_value) (key : string) : string :=
  match m !! key with
  | Some v => format_meta v
  | None => "N/A"
  end.

(** ["\n".join(lines)] *)
Fixpoint join_lines (lines : list string) : string :=
  match lines with
  | [] => EmptyString
  | [l] => l
  | l :: rest => l +:+ nl +:+ join_lines rest
  end.

Definition no_context_message : string :=
  "No specific context was stored from the last answer (it might have been a direct answer or from the menu tool).".

Section Tools.
Context `{Ports}.

(** [config.PDF_DOC_PATH], and the text Python gives for a dictionary in an
    f-string. *)
Variable PDF_DOC_PATH : string.
Variable dict_repr : gmap string meta_value -> string.

(** One iteration of the loop of [get_last_context], lines 50-66 of
    [agent_factory.py]: the line for the document at index [i]. *)
Definition source_line (i : nat) (doc : Document) : string :=
  let source_info := "Source " +:+ pretty (i + 1)%nat +:+ ": " in
  let metadata := metadata doc in
  if bool_decide (metadata = ∅) then source_info +:+ "No metadata available."
  else
    let source := metadata !! "source" in
    if bool_decide (source = Some (MStr "gmail")) then
      source_info +:+ "Email | From: " +:+ get_or_na metadata "sender"
      +:+ " | Subject: '" +:+ get_or_na metadata "subject"
      +:+ "' | Date: " +:+ get_or_na metadata "date_str"
    else if bool_decide (source = Some (MStr PDF_DOC_PATH)) then
      source_info +:+ "Handbook PDF | Page: " +:+ get_or_na metadata "page"
    else
      source_info +:+ "Unknown Source | Metadata: " +:+ dict_repr metadata.

(** [get_last_context] of [agent_factory.py]: it reads
    [st.session_state.get('last_used_context')] and ignores its input. *)
Definition get_last_context : M string := fun w =>
  (Val match last_used_context w with
       | Some (doc :: rest) =>
           join_lines ("Context used for the previous answer:"
                       :: imap source_line (doc :: rest))
       | _ => no_context_message
       end, w).

(** [invoke_rag_chain] of [handbook_tool.py]. *)
Definition invoke_rag_chain (llm : LanguageModel) (retriever : Retriever)
    (input_dict : ToolInput) : M string :=
  set_last_used_context None;;
  let run (query : string) : M string :=
    try_except
      (context ← retrieve retriever query;
       answer ← lift_result (document_chain llm query context);
       (if nonempty context
        then set_last_used_context (Some context)
        else pass);;
       mret answer)
      (fun e => mret ("Error invoking RAG chain: " +:+ exn_str e)) in
  match input_dict with
  | InputDict (Some query) => run query
  | InputStr query => run query
  | _ => mret "Error: Invalid input format for RAG tool."
  end.

(** What the sidebar shows and does. *)
Inductive Element :=
| StInfo (msg : string)
| StSuccess (msg : string)
| StErrorBox (msg : string)
| CacheCleared.

(** The handler of the button [Update Email Index], lines 46-64 of
    [app.py]; [embedding_model_error] is the exception of
    [get_embedding_model()], if it raises. It returns what the sidebar
    showed and did, in order. *)
Definition on_update_click (env : Env) (config : Config)
    (embedding_model_error : option exn) : M (list Element) :=
  let shown := [StInfo "Checking for new emails and updating the index..."] in
  try_except
    (match embedding_model_error with
     | Some e => raise e
     | None =>
         '(success, message) ←
           update_email_vector_store_manual env (EMAIL_DB_DIRECTORY config)
             (EMAIL_UPDATE_WINDOW_DAYS config);
         if (success : bool) then
           mret (shown ++ [StSuccess message; CacheCleared;
                           StInfo "Agent cache cleared. The next query will use the updated index."])
         else mret (shown ++ [StErrorBox message])
     end)
    (fun btn_err =>
       mret (shown ++ [StErrorBox ("An unexpected error occurred during update: "
                                   +:+ exn_str btn_err)])).

(** The session in which [st.session_state['last_used_context']] holds
    [c]. *)
Definition with_context (c : option (list Document)) (w : World) : World :=
  {| fs := fs w; trace := trace w; last_used_context := c |}.

(** The query a tool reads from its input, if the input is valid. *)
Definition query_of (input_dict : ToolInput) : option string :=
  match input_dict with
  | InputDict (Some query) => Some query
  | InputStr query => Some query
  | _ => None
  end.

End Tools.

(** [config.py] with the rebuild switched off, with or without the update
    at the start. *)
Definition load_config (update_on_startup : bool) : Config := {|
  EMAIL_DB_DIRECTORY := test_dir;
  REBUILD_EMAIL_VECTOR_STORE := false;
  UPDATE_EMAIL_ON_STARTUP := update_on_startup;
  EMAIL_UPDATE_WINDOW_DAYS := 2;
  DUMP_EMAIL_METADATA_ON_STARTUP := false;
  TIME_FRAME_FOR_EMAIL_VECTOR_STORE_BUILD := "60d";
  NUMBER_OF_EMAILS_RETRIEVED := 15;
|}.

(** A state without token file. *)
Definition no_token_state : Auth.State := Auth.mkState None [].

(** Python's text for a dictionary is not needed by the fixtures. *)
Definition plain_repr : gmap string meta_value -> string := fun _ => "{...}".

Definition assembly_email : email_data :=
  mkEmail "m1" "dean@school.example" parsed_date "Assembly" "See you there.".

(** A session that holds the document made from one e-mail. *)
Definition world_with_context : @World test_ports :=
  @mkWorld test_ports ∅ []
    (Some (@create_langchain_documents_from_emails test_ports [assembly_email]).1).

(** [config] with [DUMP_EMAIL_METADATA_ON_STARTUP] set to [dump]. *)
Definition with_dump (dump : bool) (config : Config) : Config := {|
  EMAIL_DB_DIRECTORY := EMAIL_DB_DIRECTORY config;
  REBUILD_EMAIL_VECTOR_STORE := REBUILD_EMAIL_VECTOR_STORE config;
  UPDATE_EMAIL_ON_STARTUP := UPDATE_EMAIL_ON_STARTUP config;
  EMAIL_UPDATE_WINDOW_DAYS := EMAIL_UPDATE_WINDOW_DAYS config;
  DUMP_EMAIL_METADATA_ON_STARTUP := dump;
  TIME_FRAME_FOR_EMAIL_VECTOR_STORE_BUILD :=
    TIME_FRAME_FOR_EMAIL_VECTOR_STORE_BUILD config;
  NUMBER_OF_EMAILS_RETRIEVED := NUMBER_OF_EMAILS_RETRIEVED config;
|}.

(** [config.py] with the rebuild and the update at the start switched off
    and the metadata dump switched on. *)
Definition dump_config : Config := with_dump true (load_config false).

(** [config.py] with the update at the start and a number of days that
    [timedelta] refuses. *)
Definition overflow_config : Config := {|
  EMAIL_DB_DIRECTORY := test_dir;
  REBUILD_EMAIL_VECTOR_STORE := false;
  UPDATE_EMAIL_ON_STARTUP := true;
  EMAIL_UPDATE_WINDOW_DAYS := 1000000000;
  DUMP_EMAIL_METADATA_ON_STARTUP := false;
  TIME_FRAME_FOR_EMAIL_VECTOR_STORE_BUILD := "60d";
  NUMBER_OF_EMAILS_RETRIEVED := 15;
|}.
(** * Properties of the normalizer *)

Section NormalizerFacts.
Context `{Ports}.

Lemma page_content_truthy e ts : truthy (page_content (make_document e ts)) = true.
Proof. reflexivity. Qed.

Lemma normalize_one_id e :
  normalize_one e =
  if truthy (em_id e)
  then Some (make_document e (parse_timestamp (em_date e)), em_id e) else None.
Proof. unfold normalize_one. by rewrite page_content_truthy. Qed.

Lemma normalize_step_one st e :
  normalize_step st e =
  match normalize_one e with
  | Some (d, i) => mkNorm (documents st ++ [d]) (doc_ids st ++ [i]) (skipped_count st)
  | None => mkNorm (documents st) (doc_ids st) (S (skipped_count st))
  end.
Proof.
  unfold normalize_step, normalize_one.
  by destruct (truthy _ && truthy _).
Qed.

Lemma omap_length_le {A B} (f : A → option B) (l : list A) :
  (length (omap f l) ≤ length l)%nat.
Proof.
  induction l as [|a l IH]; csimpl; [lia|].
  destruct (f a); csimpl; lia.
Qed.

(** The loop adds, in order, the items that are not skipped. *)
Lemma foldl_normalize_step l : ∀ st,
  foldl normalize_step st l =
  mkNorm (documents st ++ (omap normalize_one l).*1)
         (doc_ids st ++ (omap normalize_one l).*2)
         (skipped_count st + (length l - length (omap normalize_one l)))%nat.
Proof.
  induction l as [|e l IH]; intros [ds ids n]; csimpl.
  - by rewrite !app_nil_r, Nat.add_0_r.
  - rewrite IH, normalize_step_one.
    pose proof (omap_length_le normalize_one l) as Hlen.
    destruct (normalize_one e) as [[d i]|]; csimpl.
    + f_equal; rewrite <-?app_assoc; try done.
    + f_equal. lia.
Qed.

Lemma create_documents_omap l :
  create_langchain_documents_from_emails l =
  ((omap normalize_one l).*1, (omap normalize_one l).*2).
Proof.
  unfold create_langchain_documents_from_emails, normalize_loop.
  by rewrite foldl_normalize_step.
Qed.

Lemma create_documents_lengths l :
  length (create_langchain_documents_from_emails l).1
  = length (create_langchain_documents_from_emails l).2.
Proof. rewrite create_documents_omap. simpl. by rewrite !length_fmap. Qed.

Lemma reported_skipped_omap l :
  reported_skipped l = (length l - length (omap normalize_one l))%nat.
Proof.
  unfold reported_skipped, normalize_loop.
  by rewrite foldl_normalize_step.
Qed.

End NormalizerFacts.

Section NormalizerClaims.
Context `{Ports}.

Lemma normalize_one_Some e d i :
  normalize_one e = Some (d, i) →
  d = make_document e (parse_timestamp (em_date e)) ∧ i = em_id e.
Proof.
  rewrite normalize_one_id. destruct (truthy (em_id e)); naive_solver.
Qed.

Lemma make_document_source e ts :
  metadata (make_document e ts) !! "source" = Some (MStr "gmail").
Proof. simpl. by rewrite lookup_insert_eq. Qed.

Lemma make_document_message_id e ts :
  metadata (make_document e ts) !! "message_id" = Some (MStr (em_id e)).
Proof. simpl. rewrite lookup_insert_ne by done. by rewrite lookup_insert_eq. Qed.

Lemma make_document_date_str e ts :
  metadata (make_document e ts) !! "date_str" = Some (MStr (em_date e)).
Proof. simpl. rewrite !lookup_insert_ne by done. by rewrite lookup_insert_eq. Qed.

Lemma make_document_timestamp e ts :
  metadata (make_document e ts) !! "timestamp" = Some (timestamp_value ts).
Proof. simpl. rewrite !lookup_insert_ne by done. by rewrite lookup_insert_eq. Qed.

(** An item that is kept sits at the same position in both lists. *)
Lemma kept_item_position l e :
  e ∈ l → truthy (em_id e) = true →
  ∃ i, (create_langchain_documents_from_emails l).1 !! i
         = Some (make_document e (parse_timestamp (em_date e)))
       ∧ (create_langchain_documents_from_emails l).2 !! i = Some (em_id e).
Proof.
  intros Hin Hid. rewrite create_documents_omap. simpl.
  assert (Hmem : (make_document e (parse_timestamp (em_date e)), em_id e)
                 ∈ omap normalize_one l).
  { apply list_elem_of_omap. exists e. split; [done|].
    by rewrite normalize_one_id, Hid. }
  apply list_elem_of_lookup in Hmem as [i Hi].
  exists i. by rewrite !list_lookup_fmap, Hi.
Qed.

(** C9: the two lists returned by [create_langchain_documents_from_emails]
    have the same length, the id at every position is the [message_id] of
    the document at that position, and every document has [source] equal
    to [gmail]. *)
Theorem documents_and_ids_are_parallel (l : list email_data) :
  let documents := (create_langchain_documents_from_emails l).1 in
  let doc_ids := (create_langchain_documents_from_emails l).2 in
  length documents = length doc_ids
  ∧ (∀ i, (λ d, metadata d !! "message_id") <$> (documents !! i)
          = (λ id, Some (MStr id)) <$> (doc_ids !! i))
  ∧ Forall (λ d, metadata d !! "source" = Some (MStr "gmail")) documents.
Proof.
  rewrite create_documents_omap. simpl. split_and!.
  - by rewrite !length_fmap.
  - intros i. rewrite !list_lookup_fmap.
    destruct (omap normalize_one l !! i) as [[d id]|] eqn:Hi; [|done].
    apply list_elem_of_lookup_2, list_elem_of_omap in Hi as (e & _ & He).
    apply normalize_one_Some in He as [-> ->]. simpl.
    rewrite lookup_insert_ne by done. by rewrite lookup_insert_eq.
  - apply Forall_fmap, Forall_forall. intros [d id] Hin.
    apply list_elem_of_omap in Hin as (e & _ & He).
    apply normalize_one_Some in He as [-> ->].
    apply make_document_source.
Qed.

(** C3: an item with a non-empty id and an empty body is not skipped: its
    document and its id are returned, and a batch made of this one item
    reports no skip. *)
Theorem empty_body_is_not_skipped (l : list email_data) (e : email_data) :
  e ∈ l → truthy (em_id e) = true → em_body e = EmptyString →
  make_document e (parse_timestamp (em_date e))
    ∈ (create_langchain_documents_from_emails l).1
  ∧ em_id e ∈ (create_langchain_documents_from_emails l).2
  ∧ create_langchain_documents_from_emails [e]
    = ([make_document e (parse_timestamp (em_date e))], [em_id e])
  ∧ reported_skipped [e] = 0%nat.
Proof.
  intros Hin Hid _.
  destruct (kept_item_position l e Hin Hid) as (i & Hd & Hi).
  split_and!.
  - by eapply list_elem_of_lookup_2.
  - by eapply list_elem_of_lookup_2.
  - rewrite create_documents_omap. csimpl.
    by rewrite normalize_one_id, Hid.
  - rewrite reported_skipped_omap. csimpl.
    by rewrite normalize_one_id, Hid.
Qed.

(** C4: an item whose date cannot be parsed is still indexed: the
    exception of the parsing does not leave the normalizer, and the item,
    which carries the id of its message, is returned with its document
    under this id, with no timestamp and with the raw date string as
    [date_str]. *)
Theorem unparsable_date_is_indexed (l : list email_data) (e : email_data)
    (err : exn) :
  e ∈ l →
  parsedate_to_datetime (em_date e) = Raise err →
  truthy (em_id e) = true →
  ∃ i d, (create_langchain_documents_from_emails l).1 !! i = Some d
         ∧ (create_langchain_documents_from_emails l).2 !! i = Some (em_id e)
         ∧ metadata d !! "message_id" = Some (MStr (em_id e))
         ∧ metadata d !! "timestamp" = Some MNone
         ∧ metadata d !! "date_str" = Some (MStr (em_date e)).
Proof.
  intros Hin Hparse Hid.
  destruct (kept_item_position l e Hin Hid) as (i & Hd & Hi).
  exists i, (make_document e (parse_timestamp (em_date e))).
  split; [exact Hd|]. split; [exact Hi|].
  split; [apply make_document_message_id|].
  split; [|apply make_document_date_str].
  rewrite make_document_timestamp. unfold parse_timestamp.
  by rewrite Hparse.
Qed.

End NormalizerClaims.

Lemma empty_body_is_not_skipped_witness :
  @create_langchain_documents_from_emails test_ports [empty_body_email]
  = ([@make_document empty_body_email (Some 1746439200)], ["m1"])
  ∧ @reported_skipped test_ports [empty_body_email] = 0%nat.
Proof.
  destruct (@empty_body_is_not_skipped test_ports [empty_body_email]
              empty_body_email) as (_ & _ & Hone & Hskip).
  - apply list_elem_of_singleton. reflexivity.
  - reflexivity.
  - reflexivity.
  - split; [exact Hone | exact Hskip].
Defined.

Lemma unparsable_date_is_indexed_witness :
  ∃ i d, (@create_langchain_documents_from_emails test_ports [bad_date_email]).1 !! i = Some d
         ∧ (@create_langchain_documents_from_emails test_ports [bad_date_email]).2 !! i = Some "m2"
         ∧ metadata d !! "message_id" = Some (MStr "m2")
         ∧ metadata d !! "timestamp" = Some MNone
         ∧ metadata d !! "date_str" = Some (MStr "next Tuesday").
Proof.
  apply (@unparsable_date_is_indexed test_ports [bad_date_email] bad_date_email
           (mkExn ValueError "Invalid date value or format")).
  - apply list_elem_of_singleton. reflexivity.
  - reflexivity.
  - reflexivity.
Defined.

(** * Properties of the index *)

Section IndexFacts.
Context `{Ports}.

Lemma store_ids_replace e s : store_ids (replace_entry e s) = store_ids s.
Proof.
  unfold store_ids, replace_entry. rewrite <-list_fmap_compose.
  apply list_fmap_ext. intros i x _. simpl. by case_bool_decide.
Qed.

Lemma has_id_true id s : has_id id s = true ↔ id ∈ store_ids s.
Proof. unfold has_id. apply bool_decide_eq_true. Qed.

Lemma has_id_false id s : has_id id s = false ↔ id ∉ store_ids s.
Proof. unfold has_id. apply bool_decide_eq_false. Qed.

Lemma store_ids_upsert_entry s e :
  store_ids (upsert_entry s e)
  = if has_id (entry_id e) s then store_ids s else store_ids s ++ [entry_id e].
Proof.
  unfold upsert_entry. destruct (has_id _ _).
  - apply store_ids_replace.
  - unfold store_ids. by rewrite fmap_app.
Qed.

Lemma upsert_entry_keeps_ids s e id :
  id ∈ store_ids s → id ∈ store_ids (upsert_entry s e).
Proof.
  rewrite store_ids_upsert_entry. destruct (has_id _ _); [done|].
  intros Hin. apply elem_of_app. by left.
Qed.

Lemma upsert_entry_has_id s e : entry_id e ∈ store_ids (upsert_entry s e).
Proof.
  rewrite store_ids_upsert_entry.
  destruct (has_id _ _) eqn:Hid; [by apply has_id_true|].
  apply elem_of_app. right. by apply list_elem_of_singleton.
Qed.

Lemma upsert_all_keeps_ids l : ∀ s id,
  id ∈ store_ids s → id ∈ store_ids (upsert_all l s).
Proof.
  induction l as [|e l IH]; intros s id Hin; simpl; [done|].
  by apply IH, upsert_entry_keeps_ids.
Qed.

(** After a batch every id of the batch is stored. *)
Lemma upsert_all_has_ids l : ∀ s e,
  e ∈ l → entry_id e ∈ store_ids (upsert_all l s).
Proof.
  induction l as [|e' l IH]; intros s e Hin; simpl.
  - by apply elem_of_nil in Hin.
  - apply elem_of_cons in Hin as [->|Hin].
    + apply upsert_all_keeps_ids, upsert_entry_has_id.
    + by apply IH.
Qed.

(** The entries stored under the id of [e] after [upsert_entry] are [e]. *)
Lemma upsert_entry_same_id s e x :
  x ∈ upsert_entry s e → entry_id x = entry_id e → x = e.
Proof.
  unfold upsert_entry. destruct (has_id _ _) eqn:Hid; intros Hin Heq.
  - unfold replace_entry in Hin.
    apply list_elem_of_fmap in Hin as (y & -> & _).
    case_bool_decide as Hy; [done|]. by destruct Hy.
  - apply elem_of_app in Hin as [Hin|Hin]; [|by apply list_elem_of_singleton in Hin].
    apply has_id_false in Hid. exfalso. apply Hid. rewrite <-Heq.
    unfold store_ids. by apply list_elem_of_fmap_2.
Qed.

(** The entries stored under another id are the ones stored before. *)
Lemma upsert_entry_other_id s e x :
  x ∈ upsert_entry s e → entry_id x ≠ entry_id e → x ∈ s.
Proof.
  unfold upsert_entry. destruct (has_id _ _); intros Hin Hne.
  - unfold replace_entry in Hin.
    apply list_elem_of_fmap in Hin as (y & Hx & Hy).
    case_bool_decide; by subst.
  - apply elem_of_app in Hin as [Hin|Hin]; [done|].
    apply list_elem_of_singleton in Hin. by subst.
Qed.

Lemma last_for_None_cons e l id :
  last_for (e :: l) id = None → last_for l id = None ∧ id ≠ entry_id e.
Proof.
  simpl. destruct (last_for l id); [done|].
  by case_bool_decide.
Qed.

Lemma upsert_all_untouched l : ∀ s x,
  x ∈ upsert_all l s → last_for l (entry_id x) = None → x ∈ s.
Proof.
  induction l as [|e l IH]; intros s x Hin Hlast; simpl in Hin; [done|].
  apply last_for_None_cons in Hlast as [Hlast Hne].
  eapply upsert_entry_other_id; [by apply IH|done].
Qed.

(** A batch leaves every stored entry as the batch wants it. *)
Lemma upsert_all_override_fixed l : ∀ s x,
  x ∈ upsert_all l s → override l x = x.
Proof.
  induction l as [|e l IH]; intros s x Hin; [done|].
  simpl in Hin. pose proof (IH _ _ Hin) as Hfix.
  unfold override in *. simpl.
  destruct (last_for l (entry_id x)) eqn:Hlast; [done|].
  case_bool_decide as Heq; [|done]. simpl.
  symmetry. eapply upsert_entry_same_id; [|done].
  by eapply upsert_all_untouched.
Qed.

Lemma override_cons e l x :
  override l (if bool_decide (entry_id x = entry_id e) then e else x)
  = override (e :: l) x.
Proof.
  unfold override. simpl. case_bool_decide as Heq.
  - rewrite Heq. destruct (last_for l (entry_id e)); [done|].
    done.
  - by destruct (last_for l (entry_id x)).
Qed.

(** On a store that holds every id of the batch, the batch only
    replaces. *)
Lemma upsert_all_covered l : ∀ s,
  (∀ e, e ∈ l → entry_id e ∈ store_ids s) →
  upsert_all l s = override l <$> s.
Proof.
  induction l as [|e l IH]; intros s Hcov; simpl.
  - unfold override. simpl. by rewrite list_fmap_id.
  - assert (Hid : has_id (entry_id e) s = true).
    { apply has_id_true, Hcov. left. }
    unfold upsert_entry at 1. rewrite Hid.
    rewrite IH.
    + unfold replace_entry. rewrite <-list_fmap_compose.
      apply list_fmap_ext. intros i x _. simpl. apply override_cons.
    + intros e' He'. rewrite store_ids_replace. apply Hcov. by right.
Qed.

(** Writing a batch a second time changes nothing. *)
Lemma upsert_all_idempotent l s :
  upsert_all l (upsert_all l s) = upsert_all l s.
Proof.
  rewrite upsert_all_covered.
  - rewrite <-(list_fmap_id (upsert_all l s)) at 2.
    apply list_fmap_ext. intros i x Hx.
    eapply upsert_all_override_fixed, list_elem_of_lookup_2, Hx.
  - intros e He. by apply upsert_all_has_ids.
Qed.

Lemma upsert_entry_NoDup s e :
  NoDup (store_ids s) → NoDup (store_ids (upsert_entry s e)).
Proof.
  intros Hnd. rewrite store_ids_upsert_entry.
  destruct (has_id _ _) eqn:Hid; [done|].
  apply has_id_false in Hid.
  apply NoDup_app. split_and!; [done| |apply NoDup_singleton].
  intros x Hx Hx'. apply list_elem_of_singleton in Hx'. by subst.
Qed.

Lemma upsert_all_NoDup l : ∀ s,
  NoDup (store_ids s) → NoDup (store_ids (upsert_all l s)).
Proof.
  induction l as [|e l IH]; intros s Hnd; simpl; [done|].
  by apply IH, upsert_entry_NoDup.
Qed.

Lemma upsert_all_same_ids l : ∀ s,
  (∀ e, e ∈ l → entry_id e ∈ store_ids s) →
  store_ids (upsert_all l s) = store_ids s.
Proof.
  intros s Hcov. rewrite upsert_all_covered by done.
  unfold store_ids. rewrite <-list_fmap_compose.
  apply list_fmap_ext. intros i x _. simpl. unfold override.
  destruct (last_for l (entry_id x)) as [y|] eqn:Hy; [|done]. simpl.
  clear Hcov. revert Hy. induction l as [|e l IH]; simpl; [done|].
  destruct (last_for l (entry_id x)); [done|].
  case_bool_decide; naive_solver.
Qed.

(** The ids after a batch: the stored ones where they stood, then the new
    ids of the batch, each once. *)
Lemma store_ids_upsert_all l : ∀ s,
  ∃ added,
    store_ids (upsert_all l s) = store_ids s ++ added
    ∧ NoDup added
    ∧ ∀ id, id ∈ added ↔ id ∈ entry_id <$> l ∧ id ∉ store_ids s.
Proof.
  induction l as [|e l IH]; intros s; simpl.
  - exists []. rewrite app_nil_r. split; [done|]. split; [constructor|].
    intros id. rewrite elem_of_nil. naive_solver.
  - destruct (IH (upsert_entry s e)) as (added & Hids & Hnd & Hadded).
    rewrite store_ids_upsert_entry in Hids, Hadded.
    destruct (has_id (entry_id e) s) eqn:Hid.
    + apply has_id_true in Hid. exists added. split; [done|]. split; [done|].
      intros id. rewrite Hadded, elem_of_cons. naive_solver.
    + apply has_id_false in Hid. exists (entry_id e :: added).
      rewrite Hids, <-app_assoc. split; [done|]. split.
      * constructor; [|done]. rewrite Hadded, elem_of_app, list_elem_of_singleton.
        naive_solver.
      * intros id. rewrite !elem_of_cons, Hadded, elem_of_app,
          list_elem_of_singleton.
        destruct (decide (id = entry_id e)); naive_solver.
Qed.

Lemma last_for_not_in l id :
  id ∉ entry_id <$> l → last_for l id = None.
Proof.
  induction l as [|e l IH]; simpl; [done|].
  rewrite not_elem_of_cons. intros [Hne Hin]. rewrite IH by done.
  by rewrite bool_decide_eq_false_2.
Qed.

(** The entry a batch leaves under an id is the last one it holds for
    it. *)
Lemma last_for_lookup l : ∀ i e,
  l !! i = Some e →
  (∀ j e', (i < j)%nat → l !! j = Some e' → entry_id e' ≠ entry_id e) →
  last_for l (entry_id e) = Some e.
Proof.
  induction l as [|x l IH]; intros i e Hi Hlast; [done|]. simpl.
  destruct i as [|i]; simpl in Hi.
  - injection Hi as ->. rewrite last_for_not_in.
    + by rewrite bool_decide_eq_true_2.
    + intros Hin. apply list_elem_of_fmap in Hin as (e' & Heq & Hin).
      apply list_elem_of_lookup in Hin as [j Hj].
      by apply (Hlast (S j) e'); [lia| |].
  - rewrite (IH i e Hi); [done|].
    intros j e' Hij Hj. apply (Hlast (S j) e'); [lia|done].
Qed.

Lemma upsert_entry_keeps_other s e x :
  x ∈ s → entry_id x ≠ entry_id e → x ∈ upsert_entry s e.
Proof.
  intros Hin Hne. unfold upsert_entry. destruct (has_id _ _).
  - unfold replace_entry. apply list_elem_of_fmap. exists x.
    by rewrite bool_decide_eq_false_2.
  - apply elem_of_app. by left.
Qed.

Lemma upsert_all_keeps_other l : ∀ s x,
  x ∈ s → entry_id x ∉ entry_id <$> l → x ∈ upsert_all l s.
Proof.
  induction l as [|e l IH]; intros s x Hin Hid; simpl; [done|].
  rewrite fmap_cons, not_elem_of_cons in Hid. destruct Hid as [Hne Hid].
  apply IH; [|done]. by apply upsert_entry_keeps_other.
Qed.

Lemma embed_all_length texts : ∀ vs,
  embed_all texts = Ok vs → length vs = length texts.
Proof.
  induction texts as [|t texts IH]; intros vs; simpl.
  - by intros [= <-].
  - destruct (embed t); [|done].
    destruct (embed_all texts) as [vs'|]; [|done].
    intros [= <-]. simpl. by rewrite (IH vs').
Qed.

Lemma make_entries_entry_ids ids : ∀ vs docs,
  length docs = length ids → length vs = length docs →
  entry_id <$> make_entries ids vs docs = ids.
Proof.
  induction ids as [|i ids IH]; intros [|v vs] [|d docs] Hd Hv;
    simpl in *; try done.
  f_equal. apply IH; lia.
Qed.

Lemma make_entries_lookup ids : ∀ vs docs i id d,
  length docs = length ids → length vs = length docs →
  ids !! i = Some id → docs !! i = Some d →
  ∃ v, make_entries ids vs docs !! i = Some (mkEntry id v d).
Proof.
  induction ids as [|x ids IH]; intros [|v vs] [|y docs] i id d Hd Hv Hi Hdoc;
    simpl in *; try done.
  destruct i as [|i]; simpl in *.
  - injection Hi as ->. injection Hdoc as ->. by exists v.
  - apply (IH vs docs i id d); (lia || done).
Qed.

End IndexFacts.

(** * Properties of the effects *)

Section EffectFacts.
Context `{Ports}.

Lemma add_events_nil w : add_events [] w = w.
Proof. destruct w. unfold add_events. simpl. by rewrite app_nil_r. Qed.

Lemma add_events_app evs1 evs2 w :
  add_events evs2 (add_events evs1 w) = add_events (evs1 ++ evs2) w.
Proof. unfold add_events. simpl. by rewrite app_assoc. Qed.

Lemma log_add_events ev w : log ev w = (Val tt, add_events [ev] w).
Proof. reflexivity. Qed.

Lemma bind_Val {A B} (m : M A) (f : A → M B) w a w' :
  m w = (Val a, w') → (m ≫= f) w = f a w'.
Proof. intros Hm. unfold mbind, M_bind. by rewrite Hm. Qed.

Lemma bind_Exc {A B} (m : M A) (f : A → M B) w e w' :
  m w = (Exc e, w') → (m ≫= f) w = (Exc e, w').
Proof. intros Hm. unfold mbind, M_bind. by rewrite Hm. Qed.

Lemma bind_Stopped {A B} (m : M A) (f : A → M B) w w' :
  m w = (Stopped, w') → (m ≫= f) w = (Stopped, w').
Proof. intros Hm. unfold mbind, M_bind. by rewrite Hm. Qed.

Lemma try_except_Val {A} (m : M A) h w a w' :
  m w = (Val a, w') → try_except m h w = (Val a, w').
Proof. intros Hm. unfold try_except. by rewrite Hm. Qed.

Lemma try_except_Exc {A} (m : M A) h w e w' :
  m w = (Exc e, w') → try_except m h w = h e w'.
Proof. intros Hm. unfold try_except. by rewrite Hm. Qed.

Lemma try_except_Stopped {A} (m : M A) h w w' :
  m w = (Stopped, w') → try_except m h w = (Stopped, w').
Proof. intros Hm. unfold try_except. by rewrite Hm. Qed.

Section WithEnv.
Variable env : Env.

Lemma get_message_run service msg_id w :
  get_message service msg_id w
  = (Val (match svc_get service msg_id with
          | Ok m => Some m
          | Raise _ => None
          end), add_events [EvGetMessage msg_id] w).
Proof. reflexivity. Qed.

(** One message: the item is added, or the list is as before, or the
    parsing of the parts raises; only the call for the message is made. *)
Lemma fetch_one_run service acc info w :
  ∃ o, fetch_one service acc info w
       = (o, add_events [EvGetMessage (mi_id info)] w)
       ∧ o ≠ Stopped.
Proof.
  unfold fetch_one.
  erewrite bind_Val by apply get_message_run.
  destruct (svc_get service (mi_id info)) as [[[payload|]]|e];
    cbn [msg_payload]; try (eexists; split; [reflexivity|done]).
  destruct (read_headers (default [] (pl_headers payload)))
    as [[subject sender] date].
  destruct (payload_body payload) as [body|e] eqn:Hbody.
  - exists (Val (acc ++ [mkEmail (mi_id info) sender date subject
                                 (str_strip body)])).
    split; [|done].
    by erewrite bind_Val by reflexivity.
  - exists (Exc e). split; [|done].
    by erewrite bind_Exc by reflexivity.
Qed.

Lemma foldM_fetch_one_run service l : ∀ acc w,
  ∃ o evs, foldM (fetch_one service) acc l w = (o, add_events evs w)
           ∧ o ≠ Stopped
           ∧ Forall (λ ev, is_harvest_event ev = true) evs.
Proof.
  induction l as [|info l IH]; intros acc w; simpl.
  - exists (Val acc), []. by rewrite add_events_nil.
  - destruct (fetch_one_run service acc info w) as (o & Hrun & Hns).
    destruct o as [acc'|e|]; [| |done].
    + erewrite bind_Val by exact Hrun.
      destruct (IH acc' (add_events [EvGetMessage (mi_id info)] w))
        as (o' & evs & Hrest & Hns' & Hevs).
      exists o', (EvGetMessage (mi_id info) :: evs).
      rewrite Hrest, add_events_app. split_and!; try done.
      by constructor.
    + erewrite bind_Exc by exact Hrun.
      exists (Exc e), [EvGetMessage (mi_id info)].
      split_and!; try done. by repeat constructor.
Qed.

(** [fetch_emails_for_embedding] always returns a list: it never raises
    and never stops the script, it leaves the file system and the
    session alone, and the only calls it makes are calls to the
    service. *)
Lemma list_messages_run service query w :
  list_messages service query w
  = (Val (list_messages_pure service query),
     add_events [EvListMessages query] w).
Proof. reflexivity. Qed.

Lemma fetch_emails_run service query max_results w :
  ∃ emails evs,
    fetch_emails_for_embedding service query max_results w
    = (Val emails, add_events (EvListMessages query :: evs) w)
    ∧ Forall (λ ev, is_harvest_event ev = true) evs.
Proof.
  unfold fetch_emails_for_embedding.
  set (w1 := add_events [EvListMessages query] w).
  destruct (list_messages_pure service query) as [[|info infos]|] eqn:Hl.
  - exists [], []. split; [|done].
    erewrite try_except_Val; [reflexivity|].
    erewrite bind_Val by apply list_messages_run. by rewrite Hl.
  - set (todo := match max_results with
                 | Some n => slice_to n (info :: infos)
                 | None => info :: infos
                 end).
    destruct (foldM_fetch_one_run service todo [] w1)
      as (o & evs & Hrun & Hns & Hevs).
    destruct o as [emails|e|]; [| |done].
    + exists emails, evs. split; [|done].
      erewrite try_except_Val; [reflexivity|].
      erewrite bind_Val by apply list_messages_run. rewrite Hl.
      fold todo. fold w1. rewrite Hrun. unfold w1.
      by rewrite add_events_app.
    + exists [], evs. split; [|done].
      erewrite try_except_Exc.
      2:{ erewrite bind_Val by apply list_messages_run. rewrite Hl.
          fold todo. fold w1. exact Hrun. }
      unfold w1. by rewrite add_events_app.
  - exists [], []. split; [|done].
    erewrite try_except_Val; [reflexivity|].
    erewrite bind_Val by apply list_messages_run. by rewrite Hl.
Qed.

(** An exception of the listing call is swallowed: the harvester
    returns the empty list. *)
Lemma fetch_emails_list_error service query max_results w e :
  svc_list service query = ListRaise e →
  fetch_emails_for_embedding service query max_results w
  = (Val [], add_events [EvListMessages query] w).
Proof.
  intros He. unfold fetch_emails_for_embedding.
  erewrite try_except_Val; [reflexivity|].
  erewrite bind_Val by apply list_messages_run.
  unfold list_messages_pure. by rewrite He.
Qed.

Lemma os_path_exists_run dir w :
  os_path_exists dir w = (Val (bool_decide (is_Some (fs w !! dir))), w).
Proof. reflexivity. Qed.

Lemma Chroma_open_run dir s w :
  fs w !! dir = Some s →
  Chroma_open env dir w
  = (match chroma_open_error env with
     | Some e => Exc e
     | None => Val (mkChroma dir)
     end, add_events [EvChromaOpen dir] w).
Proof.
  intros Hdir. unfold Chroma_open.
  erewrite bind_Val by apply log_add_events.
  destruct (chroma_open_error env); [done|].
  erewrite bind_Val by reflexivity. simpl. by rewrite Hdir.
Qed.

Lemma authenticate_gmail_run w :
  authenticate_gmail env w
  = if downloader_imported env then
      (match gmail_auth env with
       | Ok service => Val service
       | Raise e => Exc e
       end, add_events [EvAuthenticate] w)
    else (Exc (mkExn TypeError "'NoneType' object is not callable"), w).
Proof.
  unfold authenticate_gmail. destruct (downloader_imported env); [|done].
  erewrite bind_Val by apply log_add_events.
  by destruct (gmail_auth env).
Qed.

(** The write either fails and leaves the world as it is, or upserts the
    whole batch. *)
Lemma write_batch_run dir docs ids w :
  write_batch env dir docs ids w
  = if bool_decide (length docs = length ids) then
      match embed_all (page_content <$> docs) with
      | Raise e => (Exc e, w)
      | Ok vs =>
          match chroma_write_error env with
          | Some e => (Exc e, w)
          | None =>
              (Val (),
               {| fs := <[dir := upsert_all (make_entries ids vs docs)
                                   (default [] (fs w !! dir))]> (fs w);
                  trace := trace w;
                  last_used_context := last_used_context w |})
          end
      end
    else (Exc (mkExn ValueError
                 "Number of ids must match number of documents"), w).
Proof.
  unfold write_batch. case_bool_decide; [|done].
  destruct (embed_all _) as [vs|e]; [|done].
  erewrite bind_Val by reflexivity.
  by destruct (chroma_write_error env).
Qed.

Lemma add_documents_run vs docs ids w :
  add_documents env vs docs ids w
  = write_batch env (persist_directory vs) docs ids
      (add_events [EvAddDocuments (persist_directory vs) ids] w).
Proof.
  unfold add_documents. by erewrite bind_Val by apply log_add_events.
Qed.


End WithEnv.
End EffectFacts.

(** * The manual update, path by path *)

Section UpdatePaths.
Context `{Ports}.
Variable env : Env.

#[local] Arguments fetch_emails_for_embedding : simpl never.
#[local] Arguments create_langchain_documents_from_emails : simpl never.
#[local] Arguments String.append : simpl never.
#[local] Arguments upsert_all : simpl never.

(** The update with its binds and handlers carried out. *)
Lemma update_unfold dir days w :
  update_email_vector_store_manual env dir days w =
  match fs w !! dir with
  | None =>
      (Val (false, "Error: Vector store directory not found at " +:+ dir
                   +:+ ". Cannot update."), w)
  | Some s =>
      let w1 := add_events [EvChromaOpen dir] w in
      match chroma_open_error env, date_since env days with
      | Some e, _ => (Val (update_error e), w1)
      | None, Raise e => (Val (update_error e), w1)
      | None, Ok since =>
          let q := "after:" +:+ since in
          if downloader_imported env then
            let w2 := add_events [EvAuthenticate] w1 in
            match gmail_auth env with
            | Raise e => (Val (update_error e), w2)
            | Ok None =>
                (Val (false, "Update failed: Gmail authentication failed."), w2)
            | Ok (Some service) =>
                match fetch_emails_for_embedding service q None w2 with
                | (Val emails, w3) =>
                    if negb (nonempty emails) then
                      (Val (true, "No new emails found since " +:+ since +:+ "."),
                       w3)
                    else
                      let docs := (create_langchain_documents_from_emails emails).1 in
                      let ids := (create_langchain_documents_from_emails emails).2 in
                      if negb (nonempty docs) then
                        (Val (true, "Fetched emails, but no valid new documents were created to add."),
                         w3)
                      else
                        match write_batch env dir docs ids
                                (add_events [EvAddDocuments dir ids] w3) with
                        | (Val _, w4) =>
                            (Val (true, "Successfully added/updated "
                                        +:+ pretty (length docs)
                                        +:+ " email documents."), w4)
                        | (Exc e, w4) => (Val (update_error e), w4)
                        | (Stopped, w4) => (Stopped, w4)
                        end
                | (Exc e, w3) => (Val (update_error e), w3)
                | (Stopped, w3) => (Stopped, w3)
                end
            end
          else
            (Val (update_error
                    (mkExn TypeError "'NoneType' object is not callable")), w1)
      end
  end.
Proof.
  unfold update_email_vector_store_manual, try_except, mbind, M_bind.
  rewrite os_path_exists_run.
  destruct (fs w !! dir) as [s|] eqn:Hdir; [|done].
  rewrite bool_decide_eq_true_2 by eauto. cbn beta iota delta [negb].
  rewrite (Chroma_open_run env dir s w Hdir).
  destruct (chroma_open_error env) as [e|]; [done|].
  destruct (date_since env days) as [since|e]; [|done].
  cbn [lift_result mret M_ret].
  rewrite authenticate_gmail_run.
  destruct (downloader_imported env); [|done].
  destruct (gmail_auth env) as [[service|]|e]; [|done|done].
  cbv zeta.
  destruct (fetch_emails_for_embedding service _ None _)
    as [[emails|e|] w3]; [|done|done].
  destruct (negb (nonempty emails)); [done|].
  destruct (create_langchain_documents_from_emails emails) as [docs ids].
  simpl fst. simpl snd.
  destruct (negb (nonempty docs)); [done|].
  rewrite add_documents_run. simpl persist_directory.
  by destruct (write_batch env dir docs ids _) as [[[]|e|] w4].
Qed.

Lemma update_error_failed e : failed_result (update_error e).
Proof. split; [done|]. right. right. by eexists. Qed.

Lemma Forall_not_write_harvest evs :
  Forall (λ ev, is_harvest_event ev = true) evs →
  Forall (λ ev, is_write_event ev = false) evs.
Proof. intros Hevs. eapply Forall_impl; [exact Hevs|]. by intros []. Qed.

(** Every run of the update returns a result and is one of two kinds: no
    write is attempted and the result is a failure or "nothing to add", or
    the normalizer's output for the whole fetched batch is handed to the
    store as the last call, where the write succeeds or fails as a whole. *)
Lemma update_paths dir days w :
  ∃ r w',
    update_email_vector_store_manual env dir days w = (Val r, w')
    ∧ ((∃ evs, w' = add_events evs w
               ∧ Forall (λ ev, is_write_event ev = false) evs
               ∧ (failed_result r ∨ no_new_items_result r))
       ∨ (∃ since service s emails evs,
            let q := "after:" +:+ since in
            date_since env days = Ok since
            ∧ fs w !! dir = Some s
            ∧ gmail_auth env = Ok (Some service)
            ∧ fetch_emails_for_embedding service q None
                (add_events [EvAuthenticate] (add_events [EvChromaOpen dir] w))
              = (Val emails,
                 add_events (EvListMessages q :: evs)
                   (add_events [EvAuthenticate]
                      (add_events [EvChromaOpen dir] w)))
            ∧ Forall (λ ev, is_harvest_event ev = true) evs
            ∧ let docs := (create_langchain_documents_from_emails emails).1 in
              let ids := (create_langchain_documents_from_emails emails).2 in
              nonempty docs = true
              ∧ trace w'
                = trace w ++ [EvChromaOpen dir; EvAuthenticate; EvListMessages q]
                    ++ evs ++ [EvAddDocuments dir ids]
              ∧ ((fs w' = fs w ∧ ∃ e, r = update_error e)
                 ∨ (∃ vs,
                      embed_all (page_content <$> docs) = Ok vs
                      ∧ r = (true, "Successfully added/updated "
                                   +:+ pretty (length docs)
                                   +:+ " email documents.")
                      ∧ fs w'
                        = <[dir := upsert_all (make_entries ids vs docs) s]>
                            (fs w))))).
Proof.
  rewrite update_unfold. cbv zeta.
  destruct (fs w !! dir) as [s|] eqn:Hdir.
  2:{ eexists _, _. split; [reflexivity|]. left. exists [].
      rewrite add_events_nil. split_and!; try done.
      left. split; [done|]. left. by exists dir. }
  destruct (chroma_open_error env) as [e|].
  { eexists _, _. split; [reflexivity|]. left. eexists. split; [reflexivity|].
    split; [by repeat constructor|]. left. apply update_error_failed. }
  destruct (date_since env days) as [since|e] eqn:Hsince.
  2:{ eexists _, _. split; [reflexivity|]. left. eexists. split; [reflexivity|].
      split; [by repeat constructor|]. left. apply update_error_failed. }
  set (q := "after:" +:+ since).
  destruct (downloader_imported env).
  2:{ eexists _, _. split; [reflexivity|]. left. eexists. split; [reflexivity|].
      split; [by repeat constructor|]. left. apply update_error_failed. }
  destruct (gmail_auth env) as [[service|]|e].
  - destruct (fetch_emails_run service q None
                (add_events [EvAuthenticate] (add_events [EvChromaOpen dir] w)))
      as (emails & evs & Hfetch & Hevs).
    rewrite Hfetch.
    destruct (nonempty emails) eqn:Hemails; cbn [negb].
    2:{ eexists _, _. split; [reflexivity|]. left.
        exists ([EvChromaOpen dir; EvAuthenticate] ++ EvListMessages q :: evs).
        rewrite !add_events_app. split; [done|]. split.
        - repeat (constructor; [done|]). by apply Forall_not_write_harvest.
        - right. split; [done|]. left. by exists since. }
    destruct (nonempty (create_langchain_documents_from_emails emails).1)
      eqn:Hdocs; cbn [negb].
    2:{ eexists _, _. split; [reflexivity|]. left.
        exists ([EvChromaOpen dir; EvAuthenticate] ++ EvListMessages q :: evs).
        rewrite !add_events_app. split; [done|]. split.
        - repeat (constructor; [done|]). by apply Forall_not_write_harvest.
        - right. split; [done|]. by right. }
    rewrite write_batch_run.
    assert (Htrace : ∀ w4 : World,
               trace w4 = trace (add_events
                 [EvAddDocuments dir (create_langchain_documents_from_emails emails).2]
                 (add_events (EvListMessages q :: evs)
                    (add_events [EvAuthenticate]
                       (add_events [EvChromaOpen dir] w)))) →
               trace w4
               = trace w ++ [EvChromaOpen dir; EvAuthenticate; EvListMessages q]
                   ++ evs ++ [EvAddDocuments dir
                                (create_langchain_documents_from_emails emails).2]).
    { intros w4 ->. simpl. by rewrite <-!app_assoc. }
    case_bool_decide as Hlen.
    2:{ eexists _, _. split; [reflexivity|]. right.
        exists since, service, s, emails, evs. split_and!; try done.
        - by apply Htrace.
        - left. split; [done|]. by eexists. }
    destruct (embed_all _) as [vs|e] eqn:Hembed.
    2:{ eexists _, _. split; [reflexivity|]. right.
        exists since, service, s, emails, evs. split_and!; try done.
        - by apply Htrace.
        - left. split; [done|]. by eexists. }
    destruct (chroma_write_error env) as [e|].
    { eexists _, _. split; [reflexivity|]. right.
      exists since, service, s, emails, evs. split_and!; try done.
      - by apply Htrace.
      - left. split; [done|]. by eexists. }
    eexists _, _. split; [reflexivity|]. right.
    exists since, service, s, emails, evs. split_and!; try done.
    + by apply Htrace.
    + right. exists vs. split_and!; try done.
      cbn [fs add_events snd]. unfold Store in *. by rewrite Hdir.
  - eexists _, _. split; [reflexivity|]. left.
    exists [EvChromaOpen dir; EvAuthenticate].
    rewrite !add_events_app. split; [done|].
    split; [by repeat constructor|]. left. split; [done|]. right. by left.
  - eexists _, _. split; [reflexivity|]. left.
    exists [EvChromaOpen dir; EvAuthenticate].
    rewrite !add_events_app. split; [done|].
    split; [by repeat constructor|]. left. apply update_error_failed.
Qed.

End UpdatePaths.

(** * The manual update: claims *)

Section UpdateClaims.
Context `{Ports}.
Variable env : Env.

Lemma added_not_no_new r : added_result r → ¬ no_new_items_result r.
Proof.
  intros [_ (n & _ & Hn)] [_ [[since Hs]|Hf]]; rewrite Hn in *; discriminate.
Qed.

Lemma failed_not_success r :
  failed_result r → ¬ added_result r ∧ ¬ no_new_items_result r.
Proof.
  intros [Hf _]. split; intros [Ht _]; congruence.
Qed.

Lemma nonempty_length {A} (l : list A) : nonempty l = true → (0 < length l)%nat.
Proof. destruct l; simpl; [done|lia]. Qed.

(** C10: when the index directory does not exist the manual update returns
    its error at once: the world is as before, so nothing was called
    outside (no authentication, no fetch) and no directory or store was
    created. *)
Theorem update_never_bootstraps (dir : string) (days : Z) (w : World) :
  fs w !! dir = None →
  update_email_vector_store_manual env dir days w
  = (Val (false, "Error: Vector store directory not found at " +:+ dir
                 +:+ ". Cannot update."), w)
  ∧ trace (update_email_vector_store_manual env dir days w).2 = trace w
  ∧ fs (update_email_vector_store_manual env dir days w).2 !! dir = None.
Proof.
  intros Hdir. rewrite update_unfold. unfold Store in *. by rewrite Hdir.
Qed.

(** C8: the manual update always returns a pair, and the pair is in
    exactly one of three states: success with the number of documents
    added or updated (the number of ids handed to the store in the last
    call), success with nothing to add (the index is as before), or failure
    with its reason (the index is as before). *)
Theorem update_result_is_tri_state (dir : string) (days : Z) (w : World) :
  ∃ r w',
    update_email_vector_store_manual env dir days w = (Val r, w')
    ∧ ((added_result r ∧ ¬ no_new_items_result r ∧ ¬ failed_result r
        ∧ ∃ ids, last (trace w') = Some (EvAddDocuments dir ids)
                 ∧ r.2 = "Successfully added/updated "
                         +:+ pretty (length ids) +:+ " email documents.")
       ∨ (no_new_items_result r ∧ ¬ added_result r ∧ ¬ failed_result r
          ∧ fs w' = fs w)
       ∨ (failed_result r ∧ ¬ added_result r ∧ ¬ no_new_items_result r
          ∧ fs w' = fs w)).
Proof.
  destruct (update_paths env dir days w) as (r & w' & Hrun & Hpath).
  exists r, w'. split; [done|].
  assert (Hfailed : failed_result r → fs w' = fs w →
            failed_result r ∧ ¬ added_result r ∧ ¬ no_new_items_result r
            ∧ fs w' = fs w).
  { intros Hf Hfs. split; [done|].
    destruct (failed_not_success r Hf). by split_and!. }
  assert (Hnonew : no_new_items_result r → fs w' = fs w →
            no_new_items_result r ∧ ¬ added_result r ∧ ¬ failed_result r
            ∧ fs w' = fs w).
  { intros Hn Hfs. split; [done|]. split_and!; [| |done].
    - intros Ha. by apply (added_not_no_new r).
    - intros Hf. by apply (failed_not_success r) in Hf as [_ Hf]. }
  destruct Hpath as [(evs & -> & _ & [Hf|Hn])
                    |(since & service & s & emails & evs & _ & _ & _ & _ & _
                      & Hdocs & Htrace & Hw)].
  - right. right. by apply Hfailed.
  - right. left. by apply Hnonew.
  - destruct Hw as [[Hfs [e ->]]|(vs & _ & -> & _)].
    + right. right. apply Hfailed; [apply update_error_failed|done].
    + left.
      set (docs := (create_langchain_documents_from_emails emails).1) in *.
      set (ids := (create_langchain_documents_from_emails emails).2) in *.
      assert (Ha : added_result
                (true, "Successfully added/updated "
                       +:+ pretty (length docs) +:+ " email documents.")).
      { split; [done|]. eexists. split; [|reflexivity].
        by apply nonempty_length. }
      split; [done|]. split; [by apply added_not_no_new|]. split.
      * intros Hf. by apply failed_not_success in Hf as [Hf _].
      * exists ids. split.
        -- rewrite Htrace, !app_assoc. apply last_snoc.
        -- cbn [snd]. unfold docs, ids. by rewrite create_documents_lengths.
Qed.

(** C5, amended: the write is handed the normalizer's output for the
    whole fetched batch and is the last call of the update, made after
    every call to the harvester. A run that returns a failure leaves the
    index as it was, and so does a run that makes no write, which returns
    a failure or the success "nothing to add". *)
Theorem update_writes_only_the_normalized_batch (dir : string) (days : Z)
    (w : World) :
  ∃ r w',
    update_email_vector_store_manual env dir days w = (Val r, w')
    ∧ (r.1 = false → fs w' = fs w)
    ∧ ((fs w' = fs w
        ∧ (failed_result r ∨ no_new_items_result r)
        ∧ ∃ evs, trace w' = trace w ++ evs
                 ∧ Forall (λ ev, is_write_event ev = false) evs)
       ∨ (∃ since service emails w2,
            date_since env days = Ok since
            ∧ gmail_auth env = Ok (Some service)
            ∧ fetch_emails_for_embedding service ("after:" +:+ since) None
                (add_events [EvChromaOpen dir; EvAuthenticate] w)
              = (Val emails, w2)
            ∧ let docs := (create_langchain_documents_from_emails emails).1 in
              let ids := (create_langchain_documents_from_emails emails).2 in
              trace w' = trace w2 ++ [EvAddDocuments dir ids]
              ∧ (fs w' = fs w
                 ∨ ∃ vs s,
                     fs w !! dir = Some s
                     ∧ embed_all (page_content <$> docs) = Ok vs
                     ∧ fs w'
                       = <[dir := upsert_all (make_entries ids vs docs) s]>
                           (fs w)))).
Proof.
  destruct (update_paths env dir days w) as (r & w' & Hrun & Hpath).
  exists r, w'. split; [done|].
  destruct Hpath as [(evs & -> & Hevs & Hr)
                    |(since & service & s & emails & evs & Hsince & Hdir & Hauth
                      & Hfetch & _ & _ & Htrace & Hw)].
  - split; [done|]. left. split; [done|]. split; [done|]. by exists evs.
  - rewrite add_events_app in Hfetch. split.
    + destruct Hw as [[Hfs _]|(vs & _ & -> & _)]; [done|]. by intros ?.
    + right. eexists since, service, emails, _. split; [done|].
      split; [done|]. split; [exact Hfetch|]. split.
      * rewrite Htrace. simpl. by rewrite <-!app_assoc.
      * destruct Hw as [[Hfs _]|(vs & Hvs & _ & Hfs)]; [by left|].
        right. by exists vs, s.
Qed.

(** C6, amended: when the authentication fails, the update returns a
    failure with the reason and no call to the harvester is made: [None]
    gives the message of the update, an exception gives its own text. The
    date of the query is computed before the authentication: when this
    computation raises, the update returns the failure with the text of the
    exception and does not authenticate. An error of the listing call is
    caught inside the harvester, and the update returns the success "No new
    emails found". *)
Theorem authentication_failure_is_reported (dir : string) (days : Z)
    (w : World) (s : Store) :
  fs w !! dir = Some s →
  chroma_open_error env = None →
  downloader_imported env = true →
  match date_since env days with
  | Raise e =>
      update_email_vector_store_manual env dir days w
      = (Val (false, "An error occurred during the update: " +:+ exn_str e),
         add_events [EvChromaOpen dir] w)
  | Ok since =>
      let q := "after:" +:+ since in
      match gmail_auth env with
      | Ok None =>
          update_email_vector_store_manual env dir days w
          = (Val (false, "Update failed: Gmail authentication failed."),
             add_events [EvChromaOpen dir; EvAuthenticate] w)
      | Raise e =>
          update_email_vector_store_manual env dir days w
          = (Val (false, "An error occurred during the update: " +:+ exn_str e),
             add_events [EvChromaOpen dir; EvAuthenticate] w)
      | Ok (Some service) =>
          (∃ e, svc_list service q = ListRaise e) →
          update_email_vector_store_manual env dir days w
          = (Val (true, "No new emails found since " +:+ since +:+ "."),
             add_events [EvChromaOpen dir; EvAuthenticate; EvListMessages q] w)
      end
  end.
Proof.
  intros Hdir Hopen Himp. rewrite update_unfold. cbv zeta.
  unfold Store in *. rewrite Hdir, Hopen.
  destruct (date_since env days) as [since|e]; [|done]. rewrite Himp.
  destruct (gmail_auth env) as [[service|]|e];
    [|by rewrite add_events_app..].
  intros [e He].
  rewrite (fetch_emails_list_error service _ None _ e He).
  by rewrite !add_events_app.
Qed.

End UpdateClaims.

Lemma update_never_bootstraps_witness :
  @update_email_vector_store_manual test_ports (env_with (Ok (Some mailbox_service)))
    test_dir 2 world_absent
  = (Val (false, "Error: Vector store directory not found at "
                 +:+ test_dir +:+ ". Cannot update."), world_absent)
  ∧ trace (@update_email_vector_store_manual test_ports
             (env_with (Ok (Some mailbox_service))) test_dir 2 world_absent).2 = []
  ∧ fs (@update_email_vector_store_manual test_ports
          (env_with (Ok (Some mailbox_service))) test_dir 2 world_absent).2
    !! test_dir = None.
Proof.
  apply (@update_never_bootstraps test_ports (env_with (Ok (Some mailbox_service)))
           test_dir 2 world_absent).
  reflexivity.
Defined.

Lemma update_writes_only_the_normalized_batch_witness :
  fs (@update_email_vector_store_manual test_ports (env_with (Ok None))
        test_dir 2 world_ready).2 = fs world_ready.
Proof.
  destruct (@update_writes_only_the_normalized_batch test_ports
              (env_with (Ok None)) test_dir 2 world_ready)
    as (r & w' & Hrun & Hfail & _).
  rewrite Hrun. apply Hfail.
  assert (Hr : (@update_email_vector_store_manual test_ports
                  (env_with (Ok None)) test_dir 2 world_ready).1
               = Val (false, "Update failed: Gmail authentication failed."))
    by reflexivity.
  rewrite Hrun in Hr. simpl in Hr. by injection Hr as ->.
Defined.

Lemma authentication_failure_is_reported_witness :
  @update_email_vector_store_manual test_ports (env_with (Ok None))
    test_dir 2 world_ready
  = (Val (false, "Update failed: Gmail authentication failed."),
     add_events [EvChromaOpen test_dir; EvAuthenticate] world_ready)
  ∧ @update_email_vector_store_manual test_ports (env_with (Ok None))
      test_dir 1000000000 world_ready
    = (Val (false,
            "An error occurred during the update: days=1000000000; must have magnitude <= 999999999"),
       add_events [EvChromaOpen test_dir] world_ready).
Proof.
  split.
  - apply (@authentication_failure_is_reported test_ports (env_with (Ok None))
             test_dir 2 world_ready [prior_entry]); reflexivity.
  - apply (@authentication_failure_is_reported test_ports (env_with (Ok None))
             test_dir 1000000000 world_ready [prior_entry]); reflexivity.
Defined.

(** C5 as stated fails: every message of the batch fails to be fetched, and
    the update returns a success. *)
Lemma failed_batch_is_reported_as_success :
  gmail_auth (env_with (Ok (Some flaky_service))) = Ok (Some flaky_service)
  ∧ get_calls_fail flaky_service
  ∧ (@update_email_vector_store_manual test_ports
       (env_with (Ok (Some flaky_service))) test_dir 2 world_ready).1
    = Val (true, "No new emails found since 2025/05/03.")
  ∧ ¬ @reports_failure test_ports (env_with (Ok (Some flaky_service)))
        test_dir 2 world_ready.
Proof.
  split; [reflexivity|]. split.
  { intros msg_id. exists http_503. by split. }
  split; [reflexivity|].
  intros (reason & w' & Hrun).
  apply (f_equal fst) in Hrun. vm_compute in Hrun. discriminate.
Qed.

(** C6 as stated fails: the listing call fails with an HTTP error, and the
    update returns a success. *)
Lemma harvester_error_is_reported_as_success :
  gmail_auth (env_with (Ok (Some unreachable_service)))
  = Ok (Some unreachable_service)
  ∧ list_call_fails unreachable_service "after:2025/05/03"
  ∧ (@update_email_vector_store_manual test_ports
       (env_with (Ok (Some unreachable_service))) test_dir 2 world_ready).1
    = Val (true, "No new emails found since 2025/05/03.")
  ∧ ¬ @reports_failure test_ports (env_with (Ok (Some unreachable_service)))
        test_dir 2 world_ready.
Proof.
  split; [reflexivity|]. split.
  { exists http_503. by split. }
  split; [reflexivity|].
  intros (reason & w' & Hrun).
  apply (f_equal fst) in Hrun. vm_compute in Hrun. discriminate.
Qed.

(** * Upsert *)

Section UpsertClaims.
Context `{Ports}.
Variable env : Env.

Lemma replace_entry_elem e s :
  entry_id e ∈ store_ids s → e ∈ replace_entry e s.
Proof.
  unfold store_ids, replace_entry. intros Hin.
  apply list_elem_of_fmap in Hin as (x & Hx & Hin).
  apply list_elem_of_fmap. exists x. split; [|done].
  by rewrite bool_decide_eq_true_2.
Qed.

(** The second write of a batch leaves the file system as the first one
    left it, and ends as the first one ended. *)
Lemma add_documents_twice vs docs ids w :
  let once := add_documents env vs docs ids w in
  let twice := add_documents env vs docs ids once.2 in
  fs twice.2 = fs once.2 ∧ twice.1 = once.1.
Proof.
  cbv zeta. rewrite !add_documents_run, !write_batch_run.
  case_bool_decide; [|done].
  destruct (embed_all _) as [vectors|e]; [|done].
  destruct (chroma_write_error env); [done|].
  split; [|done]. cbn [fs snd add_events].
  rewrite lookup_insert_eq. cbn [default from_option id].
  by rewrite upsert_all_idempotent, insert_insert_eq.
Qed.

(** C1: writing the same documents under the same ids a second time
    leaves the index as the first write left it: the enumeration of the
    metadata and every similarity search give the same answers. A write
    keeps the ids of the index distinct. A write that succeeds leaves the
    stored ids where they stood and adds the new ids of the batch after
    them, each once; the entry stored under an id of the batch holds the
    document the batch gives for this id (the last one, when the batch
    names the id more than once), so an entry whose id was stored is
    replaced; and the entries under other ids are the ones stored before.
    A write that fails leaves the index as it was. *)
Theorem upsert_is_idempotent (vs : Chroma) (docs : list Document)
    (ids : list string) (w : World) :
  let first := add_documents env vs docs ids w in
  let once := first.2 in
  let twice := (add_documents env vs docs ids once).2 in
  let index (x : World) := default [] (fs x !! persist_directory vs) in
  fs twice = fs once
  ∧ all_metadata (index twice) = all_metadata (index once)
  ∧ (∀ q k f, similarity_search (index twice) q k f
              = similarity_search (index once) q k f)
  ∧ (NoDup (store_ids (index w)) → NoDup (store_ids (index once)))
  ∧ (first.1 = Val () →
     (∃ added,
        store_ids (index once) = store_ids (index w) ++ added
        ∧ NoDup added
        ∧ ∀ id, id ∈ added ↔ id ∈ ids ∧ id ∉ store_ids (index w))
     ∧ (∀ id, id ∈ ids → id ∈ store_ids (index once))
     ∧ (∀ i id d,
          ids !! i = Some id → docs !! i = Some d →
          (∀ j, (i < j)%nat → ids !! j ≠ Some id) →
          ∀ x, x ∈ index once → entry_id x = id → entry_document x = d)
     ∧ (∀ x, entry_id x ∉ ids → x ∈ index once ↔ x ∈ index w))
  ∧ (first.1 ≠ Val () → fs once = fs w).
Proof.
  intros first once twice index.
  destruct (add_documents_twice vs docs ids w) as [Hfs _].
  fold first in Hfs. fold once in Hfs. fold twice in Hfs.
  assert (Hindex : index twice = index once) by (unfold index; by rewrite Hfs).
  split; [done|]. split; [by rewrite Hindex|]. split; [by rewrite Hindex|].
  assert (Hrun : first
            = write_batch env (persist_directory vs) docs ids
                (add_events [EvAddDocuments (persist_directory vs) ids] w))
    by apply add_documents_run.
  rewrite write_batch_run in Hrun.
  unfold index, once. rewrite Hrun. clear Hrun Hfs Hindex.
  case_bool_decide as Hlen; [|by split_and!].
  destruct (embed_all _) as [vectors|e] eqn:Hembed; [|by split_and!].
  destruct (chroma_write_error env); [by split_and!|].
  cbn [fst snd fs add_events]. rewrite lookup_insert_eq.
  cbn [default from_option id].
  apply embed_all_length in Hembed. rewrite length_fmap in Hembed.
  set (s := default [] (fs w !! persist_directory vs)).
  set (l := make_entries ids vectors docs).
  assert (Hids : entry_id <$> l = ids) by by apply make_entries_entry_ids.
  split; [by apply upsert_all_NoDup|]. split; [|done].
  intros _. split_and!.
  - destruct (store_ids_upsert_all l s) as (added & Hstore & Hnd & Hadded).
    exists added. split; [done|]. split; [done|].
    intros id. by rewrite Hadded, Hids.
  - intros id Hin. rewrite <-Hids in Hin.
    apply list_elem_of_fmap in Hin as (e & -> & Hin).
    by apply upsert_all_has_ids.
  - intros i id d Hi Hd Hlast x Hx Hid.
    destruct (make_entries_lookup ids vectors docs i id d) as [v Hv];
      try done.
    fold l in Hv.
    assert (Hfor : last_for l (entry_id (mkEntry id v d)) = Some (mkEntry id v d)).
    { apply (last_for_lookup l i); [done|].
      intros j e' Hij Hj Heq. apply (Hlast j Hij).
      rewrite <-Hids, list_lookup_fmap, Hj. simpl. by rewrite Heq. }
    pose proof (upsert_all_override_fixed l s x Hx) as Hfix.
    unfold override in Hfix. rewrite Hid in Hfix. simpl in Hfor.
    rewrite Hfor in Hfix. simpl in Hfix. by rewrite <-Hfix.
  - intros x Hid. rewrite <-Hids in Hid. split.
    + intros Hx. eapply upsert_all_untouched; [done|].
      by apply last_for_not_in.
    + intros Hx. by apply upsert_all_keeps_other.
Qed.

End UpsertClaims.

Lemma upsert_is_idempotent_witness :
  NoDup (@store_ids test_ports
           (default []
              (fs (@add_documents test_ports (env_with (Ok None))
                     (mkChroma test_dir)
                     [@make_document updated_email (Some 1746439200)]
                     ["m0"] world_ready).2 !! test_dir)))
  ∧ ∀ x, x ∈ default []
               (fs (@add_documents test_ports (env_with (Ok None))
                      (mkChroma test_dir)
                      [@make_document updated_email (Some 1746439200)]
                      ["m0"] world_ready).2 !! test_dir) →
         @entry_id test_ports x = "m0" →
         @entry_document test_ports x
         = @make_document updated_email (Some 1746439200).
Proof.
  destruct (@upsert_is_idempotent test_ports (env_with (Ok None))
              (mkChroma test_dir)
              [@make_document updated_email (Some 1746439200)]
              ["m0"] world_ready) as (_ & _ & _ & Hnd & Hok & _).
  split.
  - apply Hnd. vm_compute. apply NoDup_singleton.
  - destruct Hok as (_ & _ & Hreplaced & _); [reflexivity|].
    apply (Hreplaced 0%nat "m0"); [reflexivity|reflexivity|].
    intros [|j] Hj; [lia|discriminate].
Defined.

(** * The rebuild *)

Section RebuildClaims.
Context `{Ports}.
Variable env : Env.
Variable config : Config.

#[local] Arguments String.append : simpl never.

Lemma discard_run {A} dir (k : M A) w :
  (dir_exists ← os_path_exists dir;
   (if (dir_exists : bool) then shutil_rmtree dir else pass);;
   os_makedirs dir;; k) w
  = k (discarded dir w).
Proof.
  erewrite bind_Val by apply os_path_exists_run.
  unfold discarded, discard_events.
  destruct (fs w !! dir) as [s|] eqn:Hdir.
  - rewrite bool_decide_eq_true_2 by eauto.
    erewrite bind_Val; [|reflexivity].
    erewrite bind_Val; [|unfold os_makedirs;
      erewrite bind_Val by apply log_add_events;
      erewrite bind_Val by reflexivity;
      cbn [fs add_events]; rewrite lookup_delete_eq; reflexivity].
    cbn [fs trace last_used_context add_events app].
    by rewrite insert_delete_eq, <-app_assoc.
  - rewrite bool_decide_eq_false_2 by (by intros [? ?]).
    erewrite bind_Val; [|reflexivity].
    erewrite bind_Val; [|unfold os_makedirs;
      erewrite bind_Val by apply log_add_events;
      erewrite bind_Val by reflexivity;
      cbn [fs add_events]; unfold Store in *; rewrite Hdir; reflexivity].
    reflexivity.
Qed.



Lemma st_error_stop_run {A} msg w :
  (st_error msg;; @st_stop _ A) w = (Stopped, add_events [EvStError msg] w).
Proof. reflexivity. Qed.

(** The start in rebuild mode with its binds carried out. *)
Lemma initialize_rebuild_unfold w :
  REBUILD_EMAIL_VECTOR_STORE config = true →
  initialize_email_vector_store env config w =
  let dir := EMAIL_DB_DIRECTORY config in
  let q := "newer_than:" +:+ TIME_FRAME_FOR_EMAIL_VECTOR_STORE_BUILD config in
  let wd := discarded dir w in
  if downloader_imported env then
    match gmail_auth env with
    | Raise e => (Exc e, add_events [EvAuthenticate] wd)
    | Ok None =>
        (Stopped,
         add_events [EvAuthenticate;
                     EvStError "Gmail authentication failed. Cannot rebuild email store."]
           wd)
    | Ok (Some service) =>
        match fetch_emails_for_embedding service q None
                (add_events [EvAuthenticate] wd) with
        | (Val emails, w3) =>
            let docs := (create_langchain_documents_from_emails emails).1 in
            let ids := (create_langchain_documents_from_emails emails).2 in
            match (if nonempty emails && nonempty docs
                   then Chroma_from_documents env docs ids dir w3
                   else Chroma_open env dir w3) with
            | (Val vs, w4) =>
                if DUMP_EMAIL_METADATA_ON_STARTUP config then
                  (Val vs,
                   add_events
                     [EvDumpMetadata
                        (all_metadata (default [] (fs w4 !! persist_directory vs)))]
                     w4)
                else (Val vs, w4)
            | (Exc e, w4) => (Exc e, w4)
            | (Stopped, w4) => (Stopped, w4)
            end
        | (Exc e, w3) => (Exc e, w3)
        | (Stopped, w3) => (Stopped, w3)
        end
    end
  else
    (Stopped,
     add_events
       [EvStError "Email downloader functions not available. Cannot rebuild email store."]
       wd).
Proof.
  intros Hrebuild. unfold initialize_email_vector_store. rewrite Hrebuild.
  cbn [negb andb]. cbv zeta.
  set (dir := EMAIL_DB_DIRECTORY config).
  set (q := "newer_than:" +:+ TIME_FRAME_FOR_EMAIL_VECTOR_STORE_BUILD config).
  unfold rebuild_email_vector_store.
  unfold mbind at 1. unfold M_bind at 1. rewrite discard_run.
  destruct (downloader_imported env) eqn:Himp.
  2:{ by rewrite st_error_stop_run. }
  unfold mbind at 1. unfold M_bind at 1.
  rewrite authenticate_gmail_run, Himp.
  destruct (gmail_auth env) as [[service|]|e]; [| |done].
  2:{ by rewrite st_error_stop_run, add_events_app. }
  fold q. unfold mbind at 1. unfold M_bind at 1.
  destruct (fetch_emails_for_embedding service q None _)
    as [[emails|e|] w3]; [|done|done].
  destruct (create_langchain_documents_from_emails emails) as [docs ids].
  cbn [fst snd].
  assert (Hfinish : ∀ (build : M Chroma),
    (let (o, w') := (vs ← build; mret (Some vs)) w3 in
     match o with
     | Val a =>
         (pass;;
          (if DUMP_EMAIL_METADATA_ON_STARTUP config
           then dump_metadata a else pass);;
          match a with
          | Some vs => mret vs
          | None =>
              st_error "Failed to load or create the email vector store.";;
              st_stop
          end) w'
     | Exc e => (Exc e, w')
     | Stopped => (Stopped, w')
     end)
    = match build w3 with
      | (Val vs, w4) =>
          if DUMP_EMAIL_METADATA_ON_STARTUP config then
            (Val vs,
             add_events
               [EvDumpMetadata
                  (all_metadata (default [] (fs w4 !! persist_directory vs)))]
               w4)
          else (Val vs, w4)
      | (Exc e, w4) => (Exc e, w4)
      | (Stopped, w4) => (Stopped, w4)
      end).
  { intros build. unfold mbind, M_bind.
    destruct (build w3) as [[vs|e|] w4]; [|done|done].
    by destruct (DUMP_EMAIL_METADATA_ON_STARTUP config). }
  destruct (nonempty emails); cbn [andb]; [|apply Hfinish].
  destruct (nonempty docs); apply Hfinish.
Qed.



End RebuildClaims.




(** * Retrieval *)

Section RetrievalClaims.
Context `{Ports}.
Variable config : Config.

(** C2, amended: when the construction of the self-query retriever fails,
    the retriever handed out is the standard one, so every query is
    answered as by the standard strategy and the failure is not seen. When
    the retriever is built and its filter step fails on a query, the
    exception leaves [retrieve], and the e-mail tool answers with the text
    of the error. *)
Theorem self_query_falls_back_at_construction (llm : LanguageModel)
    (info : list AttributeInfo) (vs : Chroma) :
  let self_query := get_email_self_query_retriever config vs llm info in
  let standard := get_email_standard_retriever config vs in
  match from_llm llm info allowed_comparators with
  | Raise _ =>
      self_query = standard
      ∧ (∀ q w, retrieve self_query q w = retrieve standard q w)
      ∧ (∀ input w, invoke_email_rag_chain llm self_query input w
                    = invoke_email_rag_chain llm standard input w)
  | Ok query_constructor =>
      ∀ q e w,
        query_constructor q = Raise e →
        retrieve self_query q w = (Exc e, w)
        ∧ invoke_email_rag_chain llm self_query (InputStr q) w
          = (Val ("Error invoking Email RAG chain: " +:+ exn_str e),
             {| fs := fs w; trace := trace w; last_used_context := None |})
  end.
Proof.
  intros self_query standard. subst self_query standard.
  unfold get_email_self_query_retriever.
  destruct (from_llm llm info allowed_comparators) as [qc|e0]; [|done].
  intros q e w Hq.
  assert (Hret : ∀ w0, retrieve
                   (SelfQueryRetriever vs qc (NUMBER_OF_EMAILS_RETRIEVED config))
                   q w0 = (Exc e, w0)).
  { intros w0. unfold retrieve. erewrite bind_Exc; [reflexivity|].
    by rewrite Hq. }
  split; [apply Hret|].
  unfold invoke_email_rag_chain.
  erewrite bind_Val by reflexivity.
  erewrite try_except_Exc; [reflexivity|].
  erewrite bind_Exc; [reflexivity|]. apply Hret.
Qed.

End RetrievalClaims.

Lemma self_query_falls_back_at_construction_witness :
  @retrieve test_ports
    (get_email_self_query_retriever repo_config (mkChroma test_dir)
       llm_without_filter (email_metadata_field_info "2025-05-05"))
    "assembly this week" world_ready
  = (Exc parse_failure, world_ready).
Proof.
  apply (@self_query_falls_back_at_construction test_ports repo_config
           llm_without_filter (email_metadata_field_info "2025-05-05")
           (mkChroma test_dir) "assembly this week" parse_failure world_ready).
  reflexivity.
Defined.

(** C2 as stated fails: the filter step fails on the query, the standard
    strategy answers it, and the self-query retriever raises. *)
Lemma filter_failure_is_not_a_fallback :
  filter_construction_fails llm_without_filter
    (email_metadata_field_info "2025-05-05") "assembly this week"
  ∧ (∃ docs, @retrieve test_ports
               (get_email_standard_retriever repo_config (mkChroma test_dir))
               "assembly this week" world_ready = (Val docs, world_ready))
  ∧ ¬ @answers_as_standard test_ports repo_config llm_without_filter
        (email_metadata_field_info "2025-05-05") (mkChroma test_dir)
        "assembly this week" world_ready
  ∧ (@invoke_email_rag_chain test_ports llm_without_filter
       (get_email_self_query_retriever repo_config (mkChroma test_dir)
          llm_without_filter (email_metadata_field_info "2025-05-05"))
       (InputStr "assembly this week") world_ready).1
    = Val "Error invoking Email RAG chain: Failed to parse a StructuredQuery from the model output".
Proof.
  split; [by exists parse_failure|]. split; [by eexists|]. split; [|reflexivity].
  unfold answers_as_standard. intros Heq.
  apply (f_equal fst) in Heq. vm_compute in Heq. discriminate.
Qed.

(** * Further properties *)

(** ** The normalizer *)

Section NormalizerMore.
Context `{Ports}.

(** X1: every item is either returned as a document or counted as
    skipped: the number of documents plus the number printed as skipped is
    the number of items. *)
Theorem documents_plus_skipped (l : list email_data) :
  (length (create_langchain_documents_from_emails l).1 + reported_skipped l
   = length l)%nat.
Proof.
  rewrite create_documents_omap, reported_skipped_omap. simpl.
  rewrite length_fmap.
  pose proof (omap_length_le normalize_one l). lia.
Qed.

Lemma omap_normalize_one_ids (l : list email_data) :
  (omap normalize_one l).*2 = filter (λ i, truthy i = true) (em_id <$> l).
Proof.
  induction l as [|e l IH]; [done|]. csimpl.
  rewrite normalize_one_id, filter_cons.
  destruct (truthy (em_id e)) eqn:Hid; csimpl.
  - by rewrite IH.
  - exact IH.
Qed.

(** X2: the ids returned are the non-empty ids of the input, in the order
    of the input: an item is skipped exactly when its id is empty. *)
Theorem doc_ids_are_the_nonempty_ids (l : list email_data) :
  (create_langchain_documents_from_emails l).2
  = filter (λ i, truthy i = true) (em_id <$> l).
Proof. rewrite create_documents_omap. apply omap_normalize_one_ids. Qed.

End NormalizerMore.

(** ** The listing of messages *)

Section ListingMore.

Lemma list_pages_listing_of pages : ∀ p last acc,
  list_pages (ListPage (Some p) (listing_of pages last)) acc
  = match last with
    | None => Ok (acc ++ p ++ concat pages)
    | Some response => list_pages response (acc ++ p ++ concat pages)
    end.
Proof.
  induction pages as [|p' pages IH]; intros p last acc; cbn [listing_of concat].
  - rewrite app_nil_r. by destruct last.
  - change (list_pages (ListPage (Some p)
                          (Some (ListPage (Some p') (listing_of pages last)))) acc)
      with (list_pages (ListPage (Some p') (listing_of pages last)) (acc ++ p)).
    rewrite IH. rewrite <-!app_assoc. by destruct last.
Qed.

Lemma list_messages_listing_of service q first pages last :
  svc_list service q = ListPage first (listing_of pages last) →
  list_messages_pure service q
  = match last with
    | None => Some (default [] first ++ concat pages)
    | Some response =>
        match list_pages response (default [] first ++ concat pages) with
        | Ok l => Some l
        | Raise _ => None
        end
    end.
Proof.
  intros Hl. unfold list_messages_pure. rewrite Hl.
  destruct pages as [|p pages]; cbn [listing_of concat].
  - rewrite app_nil_r. by destruct last.
  - rewrite list_pages_listing_of. by destruct last.
Qed.

(** X3: when no call fails, [list_messages] returns the messages of the
    first answer and of every following page, in order, up to the last page
    or up to the first following page without messages; what comes after
    such a page is never asked for. *)
Theorem list_messages_collects_pages (service : Service) (q : string)
    (first : option (list message_info)) (pages : list (list message_info))
    (stop : option (option Listing)) :
  svc_list service q
  = ListPage first
      (listing_of pages
         (match stop with
          | None => None
          | Some next => Some (ListPage None next)
          end)) →
  list_messages_pure service q = Some (default [] first ++ concat pages).
Proof.
  intros Hl. rewrite (list_messages_listing_of _ _ _ _ _ Hl).
  by destruct stop.
Qed.

(** X4: when the call for a following page raises, [list_messages] returns
    [None]: the messages of the pages already read are lost. *)
Theorem list_messages_page_error (service : Service) (q : string)
    (first : option (list message_info)) (pages : list (list message_info))
    (e : exn) :
  svc_list service q = ListPage first (listing_of pages (Some (ListRaise e))) →
  list_messages_pure service q = None.
Proof.
  intros Hl. by rewrite (list_messages_listing_of _ _ _ _ _ Hl).
Qed.

End ListingMore.

(** ** Headers and parts *)

Section PayloadMore.
Context `{Ports}.

Lemma last_header_value_snoc name headers h :
  last_header_value name (headers ++ [h])
  = if bool_decide (str_lower (default EmptyString (h_name h)) = name)
    then default EmptyString (h_value h)
    else last_header_value name headers.
Proof.
  unfold last_header_value. rewrite filter_app, filter_cons, filter_nil.
  case_bool_decide as Hname.
  - rewrite decide_True by done. by rewrite last_snoc.
  - rewrite decide_False by done. by rewrite app_nil_r.
Qed.

(** X5: the subject, the sender and the date read from the headers are the
    values of the last header named [Subject], [From] and [Date], whatever
    the case of the letters of the name, and the empty string when there is
    no such header. *)
Theorem read_headers_last_value (headers : list header) :
  read_headers headers
  = (last_header_value "subject" headers,
     last_header_value "from" headers,
     last_header_value "date" headers).
Proof.
  unfold read_headers.
  induction headers as [|h headers IH] using rev_ind; [done|].
  rewrite foldl_snoc, IH, !last_header_value_snoc.
  unfold header_step.
  repeat case_bool_decide; try done; congruence.
Qed.

Lemma parse_part_leaf p :
  is_leaf_part p = true →
  parse_part p
  = Ok (if is_plain_text p
        then Some (decode_or_error (default EmptyString (part_data p)))
        else None).
Proof.
  destruct p as [mt [b|] [sub|]]; unfold is_leaf_part, is_plain_text; simpl;
    try done.
  intros _. by destruct (bool_decide _ && truthy_opt _).
Qed.

(** X6: for a message whose parts all carry a body and have no parts of
    their own, [parse_message_parts] returns the decoded data of the first
    [text/plain] part with data, and the empty string when there is none. *)
Theorem parse_message_parts_flat (parts : list Part) :
  Forall (λ p, is_leaf_part p = true) parts →
  parse_message_parts (Some parts)
  = Ok (match list_find (λ p, is_plain_text p = true) parts with
        | Some (_, p) => decode_or_error (default EmptyString (part_data p))
        | None => EmptyString
        end).
Proof.
  simpl. induction 1 as [|p parts Hleaf _ IH]; [done|].
  cbn [parts_loop list_find]. rewrite (parse_part_leaf p Hleaf).
  destruct (is_plain_text p) eqn:Hplain.
  - by rewrite decide_True.
  - rewrite decide_False by done. rewrite IH.
    by destruct (list_find _ parts) as [[i q]|].
Qed.

(** Induction on a part with the hypothesis for the parts it holds. *)
Lemma Part_deep_ind (P : Part → Prop) :
  (∀ mt pb sub, (∀ l, sub = Some l → Forall P l) → P (mkPart mt pb sub)) →
  ∀ p, P p.
Proof.
  intros Hstep. fix IH 1. intros [mt pb [l|]].
  - assert (Hl : Forall P l).
    { induction l as [|q l IHl]; constructor; [apply IH|apply IHl]. }
    apply Hstep. intros l' Heq. injection Heq as <-. exact Hl.
  - apply Hstep. intros l' Heq. discriminate Heq.
Qed.

Lemma all_present_Forall (l : list Part) :
  (fix all_present (parts : list Part) : bool :=
     match parts with
     | [] => true
     | q :: rest => bodies_present q && all_present rest
     end) l = true →
  Forall (λ q, bodies_present q = true) l.
Proof.
  induction l as [|q l IH]; [by constructor|].
  intros [Hq Hl]%andb_prop. constructor; [done|by apply IH].
Qed.

Lemma parts_loop_ok (l : list Part) :
  Forall (λ q, ∃ r, parse_part q = Ok r) l → ∃ s, parts_loop l = Ok s.
Proof.
  induction 1 as [|q l [r Hq] _ [s IH]]; simpl; [by eexists|].
  rewrite Hq. destruct r; by eexists.
Qed.

Lemma parts_loop_inner (l : list Part) :
  (fix parts_loop (parts : list Part) : result string :=
     match parts with
     | [] => Ok EmptyString
     | p :: rest =>
         match parse_part p with
         | Raise e => Raise e
         | Ok (Some s) => Ok s
         | Ok None => parts_loop rest
         end
     end) l = parts_loop l.
Proof. induction l as [|q l IH]; simpl; [done|]. by rewrite IH. Qed.

Lemma parse_part_unfold mt pb sub :
  parse_part (mkPart mt pb sub)
  = match pb with
    | None => Raise attribute_error
    | Some b =>
        if bool_decide (mt = Some "text/plain") && truthy_opt (b_data b)
        then Ok (Some (decode_or_error (default EmptyString (b_data b))))
        else
          match sub with
          | None => Ok None
          | Some l =>
              match parts_loop l with
              | Raise e => Raise e
              | Ok s => if truthy s then Ok (Some s) else Ok None
              end
          end
    end.
Proof.
  simpl. destruct pb as [b|]; [|done].
  destruct (bool_decide _ && truthy_opt _); [done|].
  destruct sub as [l|]; [|done]. by rewrite parts_loop_inner.
Qed.

Lemma parse_part_ok p :
  bodies_present p = true → ∃ r, parse_part p = Ok r.
Proof.
  induction p as [mt pb sub IH] using Part_deep_ind.
  rewrite parse_part_unfold. simpl.
  intros [Hb Hsub]%andb_prop. apply bool_decide_eq_true in Hb as [b ->].
  destruct (bool_decide _ && truthy_opt _); [by eexists|].
  destruct sub as [l|]; [|by eexists].
  apply all_present_Forall in Hsub.
  destruct (parts_loop_ok l) as [s Hs].
  { specialize (IH l eq_refl). rewrite Forall_forall in *. naive_solver. }
  rewrite Hs. destruct (truthy s); by eexists.
Qed.

(** X7: when every part of a message, at every depth, has a body,
    [parse_message_parts] returns a string: it does not raise. *)
Theorem parse_message_parts_returns (parts : option (list Part)) :
  (∀ l, parts = Some l → Forall (λ p, bodies_present p = true) l) →
  ∃ s, parse_message_parts parts = Ok s.
Proof.
  destruct parts as [l|]; [|by eexists]. intros Hall. simpl.
  apply parts_loop_ok. specialize (Hall l eq_refl).
  rewrite Forall_forall in *. intros q Hq. by apply parse_part_ok, Hall.
Qed.

Lemma parts_loop_raises (l : list Part) e :
  Forall (λ q, ∀ e', parse_part q = Raise e' → e' = attribute_error) l →
  parts_loop l = Raise e → e = attribute_error.
Proof.
  induction 1 as [|q l Hq _ IH]; simpl; [done|].
  destruct (parse_part q) as [[s|]|e'] eqn:Hp; [done|done|].
  intros [= <-]. by apply Hq.
Qed.

Lemma parse_part_raises p e :
  parse_part p = Raise e → e = attribute_error.
Proof.
  revert e. induction p as [mt pb sub IH] using Part_deep_ind. intros e.
  rewrite parse_part_unfold.
  destruct pb as [b|]; [|by intros [= <-]].
  destruct (bool_decide _ && truthy_opt _); [done|].
  destruct sub as [l|]; [|done].
  destruct (parts_loop l) as [s|e'] eqn:Hl; [by destruct (truthy s)|].
  intros [= <-]. eapply parts_loop_raises; [|exact Hl]. by apply IH.
Qed.

(** X8: the only exception that leaves [parse_message_parts] is the
    [AttributeError] of a part without body: an error of the decoding is
    turned into the text [[Decoding Error]] and never raised. *)
Theorem parse_message_parts_only_attribute_error
    (parts : option (list Part)) (e : exn) :
  parse_message_parts parts = Raise e → e = attribute_error.
Proof.
  destruct parts as [l|]; [|done]. simpl.
  apply parts_loop_raises, Forall_forall. intros q _ e'.
  apply parse_part_raises.
Qed.

End PayloadMore.

(** ** The harvester *)

Section FetchMore.
Context `{Ports}.

Lemma fetch_one_harvested service acc info w :
  fetch_one service acc info w
  = (match harvested service info with
     | None => Val acc
     | Some (Ok email) => Val (acc ++ [email])
     | Some (Raise e) => Exc e
     end, add_events [EvGetMessage (mi_id info)] w).
Proof.
  unfold fetch_one, harvested.
  erewrite bind_Val by apply get_message_run.
  destruct (svc_get service (mi_id info)) as [[[payload|]]|e];
    cbn [msg_payload]; try done.
  destruct (read_headers (default [] (pl_headers payload)))
    as [[subject sender] date].
  destruct (payload_body payload) as [body|e].
  - by erewrite bind_Val by reflexivity.
  - by erewrite bind_Exc by reflexivity.
Qed.

Lemma kept_id service info email :
  kept service info = Some email → em_id email = mi_id info.
Proof.
  unfold kept, harvested.
  destruct (svc_get service (mi_id info)) as [[[payload|]]|e]; try done.
  cbn [msg_payload].
  destruct (read_headers _) as [[subject sender] date].
  destruct (payload_body payload); [|done]. by intros [= <-].
Qed.

Lemma kept_ids_sublist service l :
  (em_id <$> omap (kept service) l) `sublist_of` (mi_id <$> l).
Proof.
  induction l as [|info l IH]; csimpl; [constructor|].
  destruct (kept service info) as [email|] eqn:Hk; csimpl.
  - rewrite (kept_id _ _ _ Hk). by constructor.
  - by constructor.
Qed.

(** The loop over the messages: it ends with the kept items after every
    call, or with the exception of the first message that poisons it. *)
Lemma foldM_fetch_one_kept service l : ∀ acc w,
  ∃ o evs,
    foldM (fetch_one service) acc l w = (o, add_events evs w)
    ∧ evs `prefix_of` get_events l
    ∧ match o with
      | Val r =>
          r = acc ++ omap (kept service) l
          ∧ evs = get_events l
          ∧ Forall (λ info, ¬ poisons service info) l
      | Exc _ => Exists (poisons service) l
      | Stopped => False
      end.
Proof.
  induction l as [|info l IH]; intros acc w; cbn [foldM].
  - exists (Val acc), []. rewrite add_events_nil, app_nil_r.
    split_and!; try done.
  - pose proof (fetch_one_harvested service acc info w) as Hone.
    destruct (harvested service info) as [[email|e]|] eqn:Hh.
    + erewrite bind_Val by exact Hone.
      destruct (IH (acc ++ [email]) (add_events [EvGetMessage (mi_id info)] w))
        as (o & evs & -> & Hpre & Ho).
      exists o, (EvGetMessage (mi_id info) :: evs).
      rewrite add_events_app. split; [done|].
      split; [by apply prefix_cons|].
      destruct o as [r|e|]; [|by right|done].
      destruct Ho as (-> & -> & Hall).
      assert (Hk : kept service info = Some email) by (unfold kept; by rewrite Hh).
      csimpl. rewrite Hk. csimpl.
      rewrite <-app_assoc. split_and!; try done.
      constructor; [|done]. intros [e He]. congruence.
    + erewrite bind_Exc by exact Hone.
      exists (Exc e), [EvGetMessage (mi_id info)].
      split; [done|]. split.
      * apply prefix_cons, prefix_nil.
      * left. by exists e.
    + erewrite bind_Val by exact Hone.
      destruct (IH acc (add_events [EvGetMessage (mi_id info)] w))
        as (o & evs & -> & Hpre & Ho).
      exists o, (EvGetMessage (mi_id info) :: evs).
      rewrite add_events_app. split; [done|].
      split; [by apply prefix_cons|].
      destruct o as [r|e|]; [|by right|done].
      destruct Ho as (-> & -> & Hall).
      assert (Hk : kept service info = None) by (unfold kept; by rewrite Hh).
      csimpl. rewrite Hk. csimpl.
      split_and!; try done.
      constructor; [|done]. intros [e He]. congruence.
Qed.

(** The harvester, run: the kept items of the processed messages, or
    nothing when a message poisons the loop. *)
Lemma fetch_emails_kept service query max_results w :
  let todo := messages_to_process service query max_results in
  ∃ emails evs,
    fetch_emails_for_embedding service query max_results w
    = (Val emails, add_events (EvListMessages query :: evs) w)
    ∧ evs `prefix_of` get_events todo
    ∧ ((emails = omap (kept service) todo ∧ evs = get_events todo
        ∧ Forall (λ info, ¬ poisons service info) todo)
       ∨ (emails = [] ∧ Exists (poisons service) todo)).
Proof.
  intros todo. subst todo. unfold fetch_emails_for_embedding, messages_to_process.
  destruct (list_messages_pure service query) as [[|info infos]|] eqn:Hl.
  - exists [], []. split.
    { erewrite try_except_Val; [reflexivity|].
      erewrite bind_Val by apply list_messages_run. by rewrite Hl. }
    split; [apply prefix_nil|]. left.
    destruct max_results as [n|]; [|done]. unfold slice_to. by rewrite take_nil.
  - set (todo := match max_results with
                 | Some n => slice_to n (info :: infos)
                 | None => info :: infos
                 end).
    destruct (foldM_fetch_one_kept service todo []
                (add_events [EvListMessages query] w))
      as (o & evs & Hrun & Hpre & Ho).
    destruct o as [emails|e|]; [| |done].
    + exists emails, evs. split.
      { erewrite try_except_Val; [reflexivity|].
        erewrite bind_Val by apply list_messages_run. rewrite Hl.
        fold todo. rewrite Hrun. by rewrite add_events_app. }
      split; [done|]. left. by destruct Ho as (-> & -> & ?).
    + exists [], evs. split.
      { erewrite try_except_Exc.
        2:{ erewrite bind_Val by apply list_messages_run. rewrite Hl.
            fold todo. exact Hrun. }
        by rewrite add_events_app. }
      split; [done|]. by right.
  - exists [], []. split.
    { erewrite try_except_Val; [reflexivity|].
      erewrite bind_Val by apply list_messages_run. by rewrite Hl. }
    split; [apply prefix_nil|]. by left.
Qed.

(** X9: [fetch_emails_for_embedding] always returns a list and leaves the
    index directories alone. The ids of the items are ids of the processed
    messages, in the order of the listing and without repetition of a
    listed message; the processed messages are the listed ones cut by
    [messages_info[:max_results]], so with a [max_results] that is not
    negative the list is no longer than it, and with a negative one it is
    no longer than the listing without its last [-max_results] messages.
    The only calls made are the listing and then the calls for the
    processed messages, in order. *)
Theorem fetch_returns_listed_messages (service : Service) (query : string)
    (max_results : option Z) (w : World) :
  let todo := messages_to_process service query max_results in
  let listed := default [] (list_messages_pure service query) in
  ∃ emails w',
    fetch_emails_for_embedding service query max_results w = (Val emails, w')
    ∧ fs w' = fs w
    ∧ (em_id <$> emails) `sublist_of` (mi_id <$> todo)
    ∧ match max_results with
      | Some n =>
          if (0 <=? n)%Z then (Z.of_nat (length emails) ≤ n)%Z
          else (Z.of_nat (length emails)
                ≤ Z.max 0 (Z.of_nat (length listed) + n))%Z
      | None => True
      end
    ∧ ∃ evs, trace w' = trace w ++ EvListMessages query :: evs
             ∧ evs `prefix_of` get_events todo.
Proof.
  intros todo listed.
  destruct (fetch_emails_kept service query max_results w)
    as (emails & evs & Hrun & Hpre & Hcases).
  fold todo in Hpre, Hcases.
  exists emails, (add_events (EvListMessages query :: evs) w).
  split; [done|]. split; [done|].
  assert (Hsub : (em_id <$> emails) `sublist_of` (mi_id <$> todo)).
  { destruct Hcases as [(-> & _)|(-> & _)];
      [apply kept_ids_sublist|apply sublist_nil_l]. }
  split; [done|]. split; [|by exists evs].
  destruct max_results as [n|]; [|done].
  apply sublist_length in Hsub. rewrite !length_fmap in Hsub.
  assert (Htodo : length todo
                  = (Z.to_nat (if (0 <=? n)%Z then n
                               else Z.of_nat (length listed) + n)
                     `min` length listed)%nat).
  { unfold todo, listed, messages_to_process.
    destruct (list_messages_pure service query) as [infos|]; cbn [default].
    - unfold slice_to. by rewrite length_take.
    - cbn [length]. lia. }
  destruct (0 <=? n)%Z eqn:Hn; lia.
Qed.

(** X10: when no processed message makes the parsing raise, the items are
    exactly the kept ones: one item, in the order of the listing, for every
    message that is retrieved and has a payload; and exactly one call is
    made for every processed message. *)
Theorem fetch_keeps_every_retrieved_message (service : Service)
    (query : string) (max_results : option Z) (w : World) :
  let todo := messages_to_process service query max_results in
  Forall (λ info, ¬ poisons service info) todo →
  fetch_emails_for_embedding service query max_results w
  = (Val (omap (kept service) todo),
     add_events (EvListMessages query :: get_events todo) w).
Proof.
  intros todo Hall.
  destruct (fetch_emails_kept service query max_results w)
    as (emails & evs & Hrun & _ & [(-> & -> & _)|(_ & Hex)]); [done|].
  fold todo in Hex. apply Exists_exists in Hex as (info & Hin & Hp).
  rewrite Forall_forall in Hall. by destruct (Hall info Hin).
Qed.

Lemma foldM_fetch_one_poisoned service before info after e : ∀ acc w,
  Forall (λ info, ¬ poisons service info) before →
  harvested service info = Some (Raise e) →
  foldM (fetch_one service) acc (before ++ info :: after) w
  = (Exc e, add_events (get_events (before ++ [info])) w).
Proof.
  induction before as [|i before IH]; intros acc w Hall Hh; cbn [app foldM].
  - erewrite bind_Exc; [reflexivity|].
    by rewrite fetch_one_harvested, Hh.
  - apply Forall_cons in Hall as [Hi Hall].
    pose proof (fetch_one_harvested service acc i w) as Hone.
    destruct (harvested service i) as [[email|e']|] eqn:Hhi.
    + erewrite bind_Val by exact Hone. rewrite IH by done.
      by rewrite add_events_app.
    + destruct Hi. by exists e'.
    + erewrite bind_Val by exact Hone. rewrite IH by done.
      by rewrite add_events_app.
Qed.

(** X11: one message that makes the parsing raise (a part without body)
    empties the whole batch: the harvester returns the empty list, so the
    items of the messages processed before it are dropped, and the messages
    after it are never asked for. *)
Theorem fetch_poisoned_batch_is_empty (service : Service) (query : string)
    (max_results : option Z) (w : World)
    (before after : list message_info) (info : message_info) :
  messages_to_process service query max_results = before ++ info :: after →
  Forall (λ info, ¬ poisons service info) before →
  poisons service info →
  fetch_emails_for_embedding service query max_results w
  = (Val [],
     add_events (EvListMessages query :: get_events (before ++ [info])) w).
Proof.
  unfold messages_to_process. intros Htodo Hall [e He].
  unfold fetch_emails_for_embedding.
  destruct (list_messages_pure service query) as [[|i infos]|] eqn:Hl.
  - destruct max_results as [n|]; [unfold slice_to in Htodo;
                                   rewrite take_nil in Htodo|];
      by destruct before.
  - erewrite try_except_Exc.
    2:{ erewrite bind_Val by apply list_messages_run. rewrite Hl.
        cbn [nonempty negb]. rewrite Htodo.
        by apply foldM_fetch_one_poisoned. }
    by rewrite add_events_app.
  - by destruct before.
Qed.

End FetchMore.

Lemma fetch_returns_listed_messages_witness :
  ∃ emails w',
    @fetch_emails_for_embedding test_ports paged_service "after:2025/05/03"
      (Some (-1)%Z) world_absent = (Val emails, w')
    ∧ (em_id <$> emails) `sublist_of` ["m1"; "m2"; "m3"]
    ∧ (Z.of_nat (length emails) ≤ 3)%Z.
Proof.
  destruct (@fetch_returns_listed_messages test_ports paged_service
              "after:2025/05/03" (Some (-1)%Z) world_absent)
    as (emails & w' & Hrun & _ & Hsub & Hbound & _).
  exists emails, w'. split; [exact Hrun|]. split; [exact Hsub | exact Hbound].
Defined.

Lemma fetch_keeps_every_retrieved_message_witness :
  (@fetch_emails_for_embedding test_ports paged_service "after:2025/05/03"
     (Some 3%Z) world_absent).1
  = Val (omap (@kept test_ports paged_service)
           [mkInfo "m1"; mkInfo "m2"; mkInfo "m3"]).
Proof.
  rewrite (@fetch_keeps_every_retrieved_message test_ports paged_service
             "after:2025/05/03" (Some 3%Z) world_absent); [reflexivity|].
  repeat constructor; intros [e He]; vm_compute in He; discriminate.
Defined.

Lemma fetch_poisoned_batch_is_empty_witness :
  @fetch_emails_for_embedding test_ports poisoned_service "after:2025/05/03"
    None world_absent
  = (Val [],
     add_events [EvListMessages "after:2025/05/03"; EvGetMessage "m1";
                 EvGetMessage "m2"] world_absent).
Proof.
  apply (@fetch_poisoned_batch_is_empty test_ports poisoned_service
           "after:2025/05/03" None world_absent [mkInfo "m1"] []
           (mkInfo "m2")).
  - reflexivity.
  - repeat constructor. intros [e He]. vm_compute in He. discriminate.
  - exists attribute_error. reflexivity.
Defined.

Lemma list_messages_collects_pages_witness :
  list_messages_pure paged_service "after:2025/05/03"
  = Some [mkInfo "m1"; mkInfo "m2"; mkInfo "m3"; mkInfo "m4"].
Proof.
  apply (list_messages_collects_pages paged_service "after:2025/05/03"
           (Some [mkInfo "m1"]) [[mkInfo "m2"; mkInfo "m3"]; [mkInfo "m4"]]
           None).
  reflexivity.
Defined.

Lemma list_messages_page_error_witness :
  list_messages_pure broken_page_service "after:2025/05/03" = None.
Proof.
  apply (list_messages_page_error broken_page_service "after:2025/05/03"
           (Some [mkInfo "m1"]) [[mkInfo "m2"]] http_503).
  reflexivity.
Defined.

Lemma parse_message_parts_flat_witness :
  @parse_message_parts test_ports
    (Some [mkPart (Some "text/html") (Some (mkBody (Some "PGI+"))) None;
           mkPart (Some "text/plain") (Some (mkBody (Some "SGk="))) None])
  = Ok "SGk====".
Proof.
  rewrite (@parse_message_parts_flat test_ports); [reflexivity|].
  repeat constructor.
Defined.

Lemma parse_message_parts_returns_witness :
  ∃ s, @parse_message_parts test_ports
         (Some [mkPart (Some "multipart/alternative") (Some (mkBody None))
                  (Some [mkPart (Some "text/html") (Some (mkBody (Some "PGI+")))
                           None])])
       = Ok s.
Proof.
  apply (@parse_message_parts_returns test_ports).
  intros l [= <-]. repeat constructor.
Defined.

Lemma parse_message_parts_only_attribute_error_witness :
  mkExn AttributeError "'NoneType' object has no attribute 'get'"
  = attribute_error.
Proof.
  apply (@parse_message_parts_only_attribute_error test_ports
           (Some [bodiless_part])).
  reflexivity.
Defined.

(** ** The authentication *)

Section AuthMore.
Import Auth.

Ltac auth_paths :=
  unfold authenticate_gmail, load_token, refresh_branch, flow_branch,
    save_and_build, build_service, called in *;
  repeat (case_match; simplify_eq/=).

(** X12: in every run of [authenticate_gmail], the calls made are added
    to the ones made before. When a service is built, the building is the
    last call of the run and the token file holds the very credentials the
    service is built from. A written token is followed at once by the
    building of the service from the credentials written, and nothing comes
    after. The user is never asked (the flow never runs) in a run that
    tried a refresh. *)
Theorem auth_service_matches_token (o : Oracle) (st : State) :
  let run := authenticate_gmail o st in
  ∃ new,
    calls run.2 = calls st ++ new
    ∧ (∀ c, CallBuild c ∈ new →
            last new = Some (CallBuild c)
            ∧ token run.2 = Some (Pickled c))
    ∧ (∀ c, CallWriteToken c ∈ new →
            ∃ before, new = before ++ [CallWriteToken c; CallBuild c])
    ∧ (CallRefresh ∈ new → CallFlow ∉ new).
Proof.
  cbv zeta. auth_paths;
    (first [ exists []; rewrite app_nil_r; split; [done|]
           | eexists; split; [rewrite <-?app_assoc; reflexivity|] ]);
    cbn [app]; (split_and!; [| |set_solver]); intros c' Hin;
    repeat (apply elem_of_cons in Hin as [Hin|Hin]; simplify_eq);
    try (by apply elem_of_nil in Hin); try done;
    first [ by eexists [] | by eexists [_] | by eexists [_; _] ].
Qed.

Lemma failed_refresh_run (o : Oracle) (st : State) (c : Credentials) (e : exn) :
  token st = Some (Pickled (Some c)) →
  refreshable c = true →
  refresh o c = Raise e →
  remove_error o = None →
  write_error o = None →
  authenticate_gmail o st
  = (match build o None with
     | Ok service => Ok (Some service)
     | Raise _ => Ok None
     end,
     {| token := Some (Pickled None);
        calls := calls st ++ [CallRefresh; CallRemoveToken;
                              CallWriteToken None; CallBuild None] |}).
Proof.
  unfold refreshable. intros Htoken [[Hv He]%andb_prop Hr]%andb_prop Hrefresh Hrm Hwr.
  unfold authenticate_gmail, load_token, refresh_branch, save_and_build,
    build_service, called. simpl.
  rewrite Htoken, Hv, He, Hr, Hrefresh, Hrm, Hwr. simpl.
  by rewrite <-!app_assoc.
Qed.

(** X13: when the refresh of the stored credentials fails, the token file
    is removed and written again holding [None], the service is built
    without credentials, and the user is not asked in this run: the function
    returns what the building without credentials gives, [None] if it
    raises. *)
Theorem auth_failed_refresh_stores_none (o : Oracle) (st : State)
    (c : Credentials) (e : exn) :
  token st = Some (Pickled (Some c)) →
  refreshable c = true →
  refresh o c = Raise e →
  remove_error o = None →
  write_error o = None →
  let run := authenticate_gmail o st in
  token run.2 = Some (Pickled None)
  ∧ calls run.2 = calls st ++ [CallRefresh; CallRemoveToken;
                               CallWriteToken None; CallBuild None]
  ∧ run.1 = match build o None with
            | Ok service => Ok (Some service)
            | Raise _ => Ok None
            end.
Proof.
  intros Htoken Hc Hrefresh Hrm Hwr run. subst run.
  by rewrite (failed_refresh_run o st c e).
Qed.

(** X14: the run that follows a failed refresh finds [None] in the token
    file and asks the user: with the credentials file present and the access
    granted, the new credentials are stored and the service is built from
    them; without the credentials file it returns [None] and builds
    nothing. *)
Theorem auth_after_failed_refresh (o : Oracle) (st : State)
    (c : Credentials) (e : exn) :
  token st = Some (Pickled (Some c)) →
  refreshable c = true →
  refresh o c = Raise e →
  remove_error o = None →
  write_error o = None →
  let st1 := (authenticate_gmail o st).2 in
  authenticate_gmail o st1
  = if credentials_file_exists o then
      match run_flow o with
      | Ok c2 =>
          (match build o (Some c2) with
           | Ok service => Ok (Some service)
           | Raise _ => Ok None
           end,
           {| token := Some (Pickled (Some c2));
              calls := calls st1 ++ [CallFlow; CallWriteToken (Some c2);
                                     CallBuild (Some c2)] |})
      | Raise e2 => (Raise e2, called CallFlow st1)
      end
    else (Ok None, st1).
Proof.
  intros Htoken Hc Hrefresh Hrm Hwr st1. subst st1.
  rewrite (failed_refresh_run o st c e) by done.
  unfold authenticate_gmail, load_token, flow_branch, save_and_build,
    build_service, called. simpl.
  destruct (credentials_file_exists o); [|done]. simpl.
  destruct (run_flow o); [|done]. rewrite Hwr. simpl.
  by rewrite <-!app_assoc.
Qed.

(** X15: an exception of the refresh or of the building of the service
    never leaves [authenticate_gmail]: when the token file can be loaded,
    removed and written, and the flow, if it runs, does not raise, the
    function returns a service or [None]. *)
Theorem auth_returns (o : Oracle) (st : State) :
  (∀ e, token st ≠ Some (Unloadable e)) →
  (∀ e, run_flow o ≠ Raise e) →
  remove_error o = None →
  write_error o = None →
  ∃ service, (authenticate_gmail o st).1 = Ok service.
Proof.
  intros Htoken Hflow Hrm Hwr.
  auth_paths; try (by eexists); try congruence.
  all: by (destruct (Htoken e) || destruct (Hflow e)).
Qed.

End AuthMore.

(** ** The start without rebuild *)

Section StartMore.
Context `{Ports}.
Variable env : Env.
Variable config : Config.

#[local] Arguments String.append : simpl never.
#[local] Arguments fetch_emails_for_embedding : simpl never.
#[local] Arguments create_langchain_documents_from_emails : simpl never.
#[local] Arguments upsert_all : simpl never.

(** The update on start with its binds and handlers carried out. *)
Lemma startup_update_unfold (vs : Chroma) (w : World) :
  startup_update env config (Some vs) w =
  let dir := persist_directory vs in
  if downloader_imported env then
    let w2 := add_events [EvAuthenticate] w in
    match gmail_auth env with
    | Raise e => (Exc e, w2)
    | Ok None =>
        (Val (),
         add_events
           [EvStWarning "Gmail authentication failed. Cannot update email store."]
           w2)
    | Ok (Some service) =>
        match date_since env (EMAIL_UPDATE_WINDOW_DAYS config) with
        | Raise e =>
            if config_error_caught e then
              (Val (),
               add_events
                 [EvStWarning ("Config error for EMAIL_UPDATE_WINDOW_DAYS: "
                               +:+ exn_str e +:+ ". Skipping email update.")]
                 w2)
            else (Exc e, w2)
        | Ok since =>
            let q := "after:" +:+ since in
            match fetch_emails_for_embedding service q None w2 with
            | (Val emails, w3) =>
                let docs := (create_langchain_documents_from_emails emails).1 in
                let ids := (create_langchain_documents_from_emails emails).2 in
                if nonempty emails && nonempty docs then
                  match write_batch env dir docs ids
                          (add_events [EvAddDocuments dir ids] w3) with
                  | (Val _, w4) => (Val (), w4)
                  | (Exc e, w4) =>
                      (Val (),
                       add_events
                         [EvStWarning ("Error updating email store: "
                                       +:+ exn_str e)]
                         w4)
                  | (Stopped, w4) => (Stopped, w4)
                  end
                else (Val (), w3)
            | (Exc e, w3) => (Exc e, w3)
            | (Stopped, w3) => (Stopped, w3)
            end
        end
    end
  else
    (Val (),
     add_events
       [EvStWarning "Email downloader functions not available. Cannot update email store."]
       w).
Proof.
  unfold startup_update. cbv zeta.
  destruct (downloader_imported env) eqn:Himp; [|done].
  unfold mbind at 1. unfold M_bind at 1.
  rewrite authenticate_gmail_run, Himp.
  destruct (gmail_auth env) as [[service|]|e]; [|done|done].
  unfold mbind at 1. unfold M_bind at 1. unfold startup_query.
  destruct (date_since env (EMAIL_UPDATE_WINDOW_DAYS config)) as [since|e].
  2:{ by destruct (config_error_caught e). }
  cbn [mret M_ret].
  unfold mbind at 1. unfold M_bind at 1.
  destruct (fetch_emails_for_embedding service _ None _)
    as [[emails|e|] w3]; [|done|done].
  destruct (create_langchain_documents_from_emails emails) as [docs ids].
  cbn [fst snd].
  destruct (nonempty emails); [|done].
  destruct (nonempty docs); [|done]. cbn [andb].
  unfold try_except. rewrite add_documents_run.
  by destruct (write_batch env (persist_directory vs) docs ids _)
    as [[[]|e|] w4].
Qed.

(** The start without rebuild, on an existing directory, with its binds
    carried out. *)
Lemma initialize_load_unfold (w : World) (s : Store) :
  REBUILD_EMAIL_VECTOR_STORE config = false →
  fs w !! EMAIL_DB_DIRECTORY config = Some s →
  initialize_email_vector_store env config w =
  let dir := EMAIL_DB_DIRECTORY config in
  let w1 := add_events [EvChromaOpen dir] w in
  match chroma_open_error env with
  | Some e =>
      (Stopped,
       add_events
         [EvStError ("Error loading email vector store from " +:+ dir
                     +:+ ": " +:+ exn_str e +:+ ". Try rebuilding.")]
         w1)
  | None =>
      match (if UPDATE_EMAIL_ON_STARTUP config
             then startup_update env config (Some (mkChroma dir)) w1
             else (Val (), w1)) with
      | (Val _, w2) =>
          if DUMP_EMAIL_METADATA_ON_STARTUP config then
            (Val (mkChroma dir),
             add_events
               [EvDumpMetadata (all_metadata (default [] (fs w2 !! dir)))] w2)
          else (Val (mkChroma dir), w2)
      | (Exc e, w2) => (Exc e, w2)
      | (Stopped, w2) => (Stopped, w2)
      end
  end.
Proof.
  intros Hrebuild Hdir. unfold initialize_email_vector_store.
  rewrite Hrebuild. cbn [negb andb]. cbv zeta.
  set (dir := EMAIL_DB_DIRECTORY config) in *.
  unfold load_email_vector_store.
  unfold mbind at 1. unfold M_bind at 1.
  erewrite bind_Val by apply os_path_exists_run.
  unfold Store in *. rewrite Hdir.
  rewrite bool_decide_eq_true_2 by eauto.
  unfold try_except. unfold mbind at 1. unfold M_bind at 1.
  rewrite (Chroma_open_run env dir s w Hdir).
  destruct (chroma_open_error env) as [e|].
  { by rewrite st_error_stop_run. }
  cbn [mret M_ret].
  unfold mbind at 1. unfold M_bind at 1.
  destruct (UPDATE_EMAIL_ON_STARTUP config).
  - destruct (startup_update env config (Some (mkChroma dir)) _)
      as [[[]|e|] w2]; [|done|done].
    by destruct (DUMP_EMAIL_METADATA_ON_STARTUP config).
  - by destruct (DUMP_EMAIL_METADATA_ON_STARTUP config).
Qed.

(** X16: on an existing index, the update made at the start (without
    rebuild, with [UPDATE_EMAIL_ON_STARTUP]) leaves the same index
    directories as the manual update for the configured number of days. *)
Theorem startup_update_as_manual_update (w : World) (s : Store) :
  REBUILD_EMAIL_VECTOR_STORE config = false →
  UPDATE_EMAIL_ON_STARTUP config = true →
  fs w !! EMAIL_DB_DIRECTORY config = Some s →
  fs (initialize_email_vector_store env config w).2
  = fs (update_email_vector_store_manual env (EMAIL_DB_DIRECTORY config)
          (EMAIL_UPDATE_WINDOW_DAYS config) w).2.
Proof.
  intros Hrebuild Hupdate Hdir.
  rewrite (initialize_load_unfold w s Hrebuild Hdir), update_unfold.
  cbv zeta. rewrite Hupdate, startup_update_unfold. cbv zeta.
  cbn [persist_directory].
  unfold Store in *. rewrite Hdir.
  destruct (chroma_open_error env) as [e|]; [done|].
  destruct (date_since env (EMAIL_UPDATE_WINDOW_DAYS config)) as [since|e].
  2:{ destruct (downloader_imported env), (gmail_auth env) as [[service|]|e'],
        (config_error_caught e), (DUMP_EMAIL_METADATA_ON_STARTUP config);
        done. }
  destruct (downloader_imported env).
  2:{ by destruct (DUMP_EMAIL_METADATA_ON_STARTUP config). }
  destruct (gmail_auth env) as [[service|]|e]; [| |done].
  2:{ by destruct (DUMP_EMAIL_METADATA_ON_STARTUP config). }
  destruct (fetch_emails_for_embedding service _ None _)
    as [[emails|e|] w3]; [|done|done].
  destruct (nonempty emails); cbn [negb andb].
  2:{ by destruct (DUMP_EMAIL_METADATA_ON_STARTUP config). }
  destruct (nonempty (create_langchain_documents_from_emails emails).1);
    cbn [negb].
  2:{ by destruct (DUMP_EMAIL_METADATA_ON_STARTUP config). }
  destruct (write_batch env _ _ _ _) as [[[]|e|] w4];
    by destruct (DUMP_EMAIL_METADATA_ON_STARTUP config).
Qed.

(** X17: on an existing index and without update at the start, the start
    leaves the index directories as they are; it returns the store, or, if
    the store cannot be opened, stops the script after the error message. *)
Theorem start_loads_existing_index (w : World) (s : Store) :
  REBUILD_EMAIL_VECTOR_STORE config = false →
  UPDATE_EMAIL_ON_STARTUP config = false →
  fs w !! EMAIL_DB_DIRECTORY config = Some s →
  let dir := EMAIL_DB_DIRECTORY config in
  let run := initialize_email_vector_store env config w in
  fs run.2 = fs w
  ∧ Forall (λ ev, is_harvest_event ev = false ∧ ev ≠ EvAuthenticate)
      (drop (length (trace w)) (trace run.2))
  ∧ match chroma_open_error env with
    | Some e =>
        run.1 = Stopped
        ∧ last (trace run.2)
          = Some (EvStError ("Error loading email vector store from " +:+ dir
                             +:+ ": " +:+ exn_str e +:+ ". Try rebuilding."))
    | None => run.1 = Val (mkChroma dir)
    end.
Proof.
  intros Hrebuild Hupdate Hdir dir run. subst run.
  rewrite (initialize_load_unfold w s Hrebuild Hdir), Hupdate. cbv zeta.
  fold dir.
  destruct (chroma_open_error env) as [e|];
    [|destruct (DUMP_EMAIL_METADATA_ON_STARTUP config)];
    cbn [fst snd fs trace add_events]; rewrite <-?app_assoc, drop_app_length;
    split_and!; try done.
  all: cbn [app]; try (by repeat constructor).
  apply last_Some. eexists (_ ++ [_]). by rewrite <-app_assoc.
Qed.

(** X18: at a start without rebuild and with update on an existing index
    that opens, a failure inside the update is not fatal: whatever the
    harvester and the write do, the start returns the store, and so it does
    when the authentication returns no service or when the computation of
    the date raises one of the three classes the handler names (the update
    is skipped). Two exceptions are not caught and leave the start, with the
    index as it was: one raised by the authentication, and one of another
    class (the [OverflowError] of [timedelta]) raised by the computation of
    the date. *)
Theorem startup_update_failure_is_not_fatal (w : World) (s : Store) :
  REBUILD_EMAIL_VECTOR_STORE config = false →
  UPDATE_EMAIL_ON_STARTUP config = true →
  fs w !! EMAIL_DB_DIRECTORY config = Some s →
  chroma_open_error env = None →
  downloader_imported env = true →
  let run := initialize_email_vector_store env config w in
  let store := mkChroma (EMAIL_DB_DIRECTORY config) in
  match gmail_auth env with
  | Raise e => run.1 = Exc e ∧ fs run.2 = fs w
  | Ok None => run.1 = Val store ∧ fs run.2 = fs w
  | Ok (Some service) =>
      match date_since env (EMAIL_UPDATE_WINDOW_DAYS config) with
      | Raise e =>
          run.1 = (if config_error_caught e then Val store else Exc e)
          ∧ fs run.2 = fs w
          ∧ Forall (λ ev, is_harvest_event ev = false)
              (drop (length (trace w)) (trace run.2))
      | Ok since => run.1 = Val store
      end
  end.
Proof.
  intros Hrebuild Hupdate Hdir Hopen Himp run store. subst run store.
  rewrite (initialize_load_unfold w s Hrebuild Hdir). cbv zeta.
  rewrite Hupdate, Hopen, startup_update_unfold, Himp. cbv zeta.
  cbn [persist_directory].
  destruct (gmail_auth env) as [[service|]|e]; [| |done].
  2:{ by destruct (DUMP_EMAIL_METADATA_ON_STARTUP config). }
  destruct (date_since env (EMAIL_UPDATE_WINDOW_DAYS config)) as [since|e].
  2:{ destruct (config_error_caught e);
        [destruct (DUMP_EMAIL_METADATA_ON_STARTUP config)|];
        cbn [fst snd fs trace add_events];
        rewrite <-?app_assoc, drop_app_length; split_and!; try done;
        cbn [app]; by repeat constructor. }
  destruct (fetch_emails_run service ("after:" +:+ since) None
              (add_events [EvAuthenticate]
                 (add_events [EvChromaOpen (EMAIL_DB_DIRECTORY config)] w)))
    as (emails & evs & -> & _).
  destruct (nonempty emails && nonempty _).
  2:{ by destruct (DUMP_EMAIL_METADATA_ON_STARTUP config). }
  rewrite write_batch_run.
  case_bool_decide;
    [destruct (embed_all _); [destruct (chroma_write_error env)|]|];
    by destruct (DUMP_EMAIL_METADATA_ON_STARTUP config).
Qed.

Lemma os_makedirs_absent dir w :
  fs w !! dir = None →
  os_makedirs dir w
  = (Val (), {| fs := <[dir := []]> (fs w);
                trace := trace w ++ [EvMakedirs dir];
                last_used_context := last_used_context w |}).
Proof.
  intros Hdir. unfold os_makedirs.
  erewrite bind_Val by apply log_add_events.
  erewrite bind_Val by reflexivity.
  cbn [fs add_events]. unfold Store in *. by rewrite Hdir.
Qed.

(** X19: without rebuild, without update at the start and without index
    directory, the start creates the directory with an empty index, warns,
    and returns the store; no call is made to the authentication or to the
    harvester. *)
Theorem start_bootstraps_empty_index (w : World) :
  REBUILD_EMAIL_VECTOR_STORE config = false →
  UPDATE_EMAIL_ON_STARTUP config = false →
  fs w !! EMAIL_DB_DIRECTORY config = None →
  chroma_open_error env = None →
  let dir := EMAIL_DB_DIRECTORY config in
  let run := initialize_email_vector_store env config w in
  run.1 = Val (mkChroma dir)
  ∧ fs run.2 = <[dir := []]> (fs w)
  ∧ ∃ evs, trace run.2 = trace w ++ EvMakedirs dir :: EvChromaOpen dir :: evs
           ∧ Forall (λ ev, is_harvest_event ev = false ∧ ev ≠ EvAuthenticate
                           ∧ is_write_event ev = false) evs.
Proof.
  intros Hrebuild Hupdate Hdir Hopen dir run. fold dir in Hdir.
  set (made := {| fs := <[dir := []]> (fs w);
                  trace := trace w ++ [EvMakedirs dir];
                  last_used_context := last_used_context w |}).
  assert (Hnew : fs made !! dir = Some []) by apply lookup_insert_eq.
  assert (Hrun : ∃ evs,
            run = (Val (mkChroma dir), add_events (EvChromaOpen dir :: evs) made)
            ∧ Forall (λ ev, is_harvest_event ev = false ∧ ev ≠ EvAuthenticate
                            ∧ is_write_event ev = false) evs).
  { subst run. unfold initialize_email_vector_store.
    rewrite Hrebuild, Hupdate. cbn [negb andb]. cbv zeta. fold dir.
    unfold load_email_vector_store.
    unfold mbind at 1. unfold M_bind at 1.
    erewrite bind_Val by apply os_path_exists_run.
    unfold Store in *. rewrite Hdir.
    rewrite bool_decide_eq_false_2 by (by intros [? ?]).
    erewrite bind_Val by (by apply os_makedirs_absent).
    unfold made in Hnew. cbv beta.
    erewrite bind_Val.
    2:{ unfold Store in *.
        rewrite (Chroma_open_run env dir [] _ Hnew), Hopen. reflexivity. }
    cbv beta. erewrite bind_Val by apply log_add_events.
    cbn [mret M_ret].
    unfold mbind at 1. unfold M_bind at 1. cbn [pass mret M_ret].
    destruct (DUMP_EMAIL_METADATA_ON_STARTUP config).
    - eexists [_; _]. split.
      + unfold dump_metadata. erewrite bind_Val.
        2:{ erewrite bind_Val by reflexivity. apply log_add_events. }
        cbn [mret M_ret]. by rewrite !add_events_app.
      + by repeat constructor.
    - eexists [_]. split.
      + erewrite bind_Val by reflexivity.
        cbn [mret M_ret]. by rewrite !add_events_app.
      + by repeat constructor. }
  destruct Hrun as (evs & -> & Hevs). cbn [fst snd fs trace add_events made].
  split; [done|]. split; [done|]. exists evs. split; [|done].
  by rewrite <-app_assoc.
Qed.

End StartMore.

(** ** What the maintenance leaves in the index *)

Section MaintenanceMore.
Context `{Ports}.
Variable env : Env.

#[local] Arguments String.append : simpl never.
#[local] Arguments fetch_emails_for_embedding : simpl never.
#[local] Arguments create_langchain_documents_from_emails : simpl never.
#[local] Arguments upsert_all : simpl never.

(** X20: the manual update never creates or deletes an index directory,
    and it leaves every directory other than its own as it is. *)
Theorem update_touches_only_its_directory (dir : string) (days : Z)
    (w : World) :
  let w' := (update_email_vector_store_manual env dir days w).2 in
  dom (fs w') =@{gset string} dom (fs w)
  ∧ ∀ d, d ≠ dir → fs w' !! d = fs w !! d.
Proof.
  destruct (update_paths env dir days w) as (r & w' & -> & Hpath).
  cbn [snd].
  destruct Hpath as [(evs & -> & _)
                    |(since & service & s & emails & evs & _ & Hdir & _ & _
                      & _ & _ & _ & [[-> _]|(vs & _ & _ & ->)])]; try done.
  split.
  - rewrite dom_insert_L.
    assert (dir ∈ dom (fs w)) by (apply elem_of_dom; eauto). set_solver.
  - intros d Hd. by rewrite lookup_insert_ne.
Qed.

(** X21: the manual update never removes a document: every id stored in
    the index before the update is stored after it. *)
Theorem update_keeps_stored_ids (dir : string) (days : Z) (w : World)
    (id : string) :
  let w' := (update_email_vector_store_manual env dir days w).2 in
  id ∈ store_ids (default [] (fs w !! dir)) →
  id ∈ store_ids (default [] (fs w' !! dir)).
Proof.
  destruct (update_paths env dir days w) as (r & w' & -> & Hpath).
  cbn [snd].
  destruct Hpath as [(evs & -> & _)
                    |(since & service & s & emails & evs & _ & Hdir & _ & _
                      & _ & _ & _ & [[-> _]|(vs & _ & _ & ->)])]; try done.
  rewrite lookup_insert_eq. unfold Store in *. rewrite Hdir. cbn.
  apply upsert_all_keeps_ids.
Qed.

Lemma upsert_entry_elem s e x :
  x ∈ upsert_entry s e → x ∈ s ∨ x = e.
Proof.
  unfold upsert_entry. destruct (has_id _ _).
  - unfold replace_entry. intros (y & -> & Hy)%list_elem_of_fmap.
    case_bool_decide; [by right|by left].
  - intros [?|?%list_elem_of_singleton]%elem_of_app; [by left|by right].
Qed.

Lemma upsert_all_elem l : ∀ s x,
  x ∈ upsert_all l s → x ∈ s ∨ x ∈ l.
Proof.
  unfold upsert_all.
  induction l as [|e l IH]; intros s x Hx; cbn [foldl] in Hx; [by left|].
  apply IH in Hx as [Hx|Hx]; [|right; by right].
  apply upsert_entry_elem in Hx as [Hx| ->]; [by left|right; by left].
Qed.

Lemma make_entries_ids ids : ∀ vs docs x,
  x ∈ make_entries ids vs docs → entry_id x ∈ ids.
Proof.
  induction ids as [|i ids IH]; intros [|v vs] [|d docs] x Hx;
    cbn [make_entries] in Hx; try by apply elem_of_nil in Hx.
  apply elem_of_cons in Hx as [->|Hx]; [by left|].
  right. by eapply IH.
Qed.

Variable config : Config.

(** X22: a rebuild whose harvest yields documents and whose write
    succeeds returns the store, and the index it leaves is the batch
    written into the emptied directory: every entry of the rebuilt index
    carries an id of the batch, whatever the index held before. *)
Theorem rebuild_index_is_the_batch (w w3 : World) (service : Service)
    (emails : list email_data) (vs : list vector) :
  let dir := EMAIL_DB_DIRECTORY config in
  let q := "newer_than:" +:+ TIME_FRAME_FOR_EMAIL_VECTOR_STORE_BUILD config in
  let docs := (create_langchain_documents_from_emails emails).1 in
  let ids := (create_langchain_documents_from_emails emails).2 in
  let run := initialize_email_vector_store env config w in
  REBUILD_EMAIL_VECTOR_STORE config = true →
  downloader_imported env = true →
  gmail_auth env = Ok (Some service) →
  fetch_emails_for_embedding service q None
    (add_events [EvAuthenticate] (discarded dir w)) = (Val emails, w3) →
  nonempty docs = true →
  embed_all (page_content <$> docs) = Ok vs →
  chroma_write_error env = None →
  run.1 = Val (mkChroma dir)
  ∧ fs run.2 = <[dir := upsert_all (make_entries ids vs docs) []]> (fs w)
  ∧ ∀ x, x ∈ default [] (fs run.2 !! dir) → entry_id x ∈ ids.
Proof.
  intros dir q docs ids run Hrebuild Himp Hauth Hfetch Hdocs Hembed Hwrite.
  assert (Hemails : nonempty emails = true).
  { destruct emails; [|done]. by vm_compute in Hdocs. }
  destruct (fetch_emails_run service q None
              (add_events [EvAuthenticate] (discarded dir w)))
    as (emails' & evs & Hfetch' & _).
  rewrite Hfetch in Hfetch'. injection Hfetch' as <- ->.
  assert (Hrun : ∃ w4, run = (Val (mkChroma dir), w4)
            ∧ fs w4 = <[dir := upsert_all (make_entries ids vs docs) []]> (fs w)).
  { subst run. rewrite (initialize_rebuild_unfold env config w Hrebuild).
    cbv zeta. fold dir. fold q. rewrite Himp, Hauth, Hfetch.
    fold docs. fold ids. rewrite Hemails, Hdocs. cbn [andb].
    unfold Chroma_from_documents.
    erewrite bind_Val by apply log_add_events.
    unfold mbind at 1. unfold M_bind at 1.
    rewrite write_batch_run.
    rewrite bool_decide_eq_true_2 by apply create_documents_lengths.
    fold docs. rewrite Hembed, Hwrite.
    cbn [mbind M_bind mret M_ret fs add_events discarded].
    destruct (DUMP_EMAIL_METADATA_ON_STARTUP config);
      (eexists; split; [reflexivity|]); cbn [fs add_events];
      rewrite lookup_insert_eq; cbn [default from_option id];
      by rewrite insert_insert_eq. }
  destruct Hrun as (w4 & -> & Hfs). cbn [fst snd]. rewrite Hfs.
  split; [done|]. split; [done|].
  intros x. rewrite lookup_insert_eq. cbn [default from_option id].
  intros [Hx|Hx]%upsert_all_elem; [by apply elem_of_nil in Hx|].
  by eapply make_entries_ids.
Qed.

(** X23: with no token file (or one that holds nothing usable) and no
    credentials file, the authentication returns [None] and leaves the
    token file as it is, and the manual update on an existing index returns
    the failure of the authentication. The date of the query is computed
    first: when this raises, the update returns the failure with the text
    of the exception and the authentication is not called. *)
Theorem update_without_credentials (o : Auth.Oracle) (st : Auth.State)
    (dir : string) (days : Z) (w : World) (s : Store) :
  Auth.load_token st = Ok None →
  Auth.credentials_file_exists o = false →
  fs w !! dir = Some s →
  chroma_open_error env = None →
  downloader_imported env = true →
  Auth.authenticate_gmail o st = (Ok None, st)
  ∧ update_email_vector_store_manual (Auth.env_of o st env) dir days w
    = match date_since env days with
      | Ok _ =>
          (Val (false, "Update failed: Gmail authentication failed."),
           add_events [EvChromaOpen dir; EvAuthenticate] w)
      | Raise e =>
          (Val (false, "An error occurred during the update: " +:+ exn_str e),
           add_events [EvChromaOpen dir] w)
      end.
Proof.
  intros Hload Hcred Hdir Hopen Himp.
  assert (Hauth : Auth.authenticate_gmail o st = (Ok None, st)).
  { unfold Auth.authenticate_gmail, Auth.flow_branch. by rewrite Hload, Hcred. }
  split; [done|].
  rewrite update_unfold. cbv zeta. unfold Store in *. rewrite Hdir.
  cbn [Auth.env_of chroma_open_error downloader_imported gmail_auth date_since].
  rewrite Hopen. destruct (date_since env days) as [since|e]; [|done].
  rewrite Himp, Hauth. cbn [fst]. by rewrite add_events_app.
Qed.

End MaintenanceMore.

Lemma auth_service_matches_token_witness :
  Auth.token (Auth.authenticate_gmail (auth_oracle true) expired_token_state).2
  = Some (Auth.Pickled None).
Proof.
  destruct (auth_service_matches_token (auth_oracle true) expired_token_state)
    as (new & Hcalls & Hbuild & _).
  apply Hbuild. vm_compute in Hcalls. subst new.
  do 3 apply list_elem_of_further. apply list_elem_of_here.
Defined.

Lemma auth_failed_refresh_stores_none_witness :
  Auth.token (Auth.authenticate_gmail (auth_oracle true) expired_token_state).2
  = Some (Auth.Pickled None)
  ∧ (Auth.authenticate_gmail (auth_oracle true) expired_token_state).1 = Ok None.
Proof.
  destruct (auth_failed_refresh_stores_none (auth_oracle true)
              expired_token_state expired_credentials
              (mkExn OtherException "invalid_grant: Token has been expired or revoked."))
    as (Htoken & _ & Hservice); try reflexivity.
  split; [exact Htoken | exact Hservice].
Defined.

Lemma auth_after_failed_refresh_witness :
  (Auth.authenticate_gmail (auth_oracle true)
     (Auth.authenticate_gmail (auth_oracle true) expired_token_state).2).1
  = Ok (Some mailbox_service).
Proof.
  rewrite (auth_after_failed_refresh (auth_oracle true) expired_token_state
             expired_credentials
             (mkExn OtherException "invalid_grant: Token has been expired or revoked."));
    reflexivity.
Defined.

Lemma auth_returns_witness :
  ∃ service,
    (Auth.authenticate_gmail (auth_oracle true) expired_token_state).1 = Ok service.
Proof.
  apply (auth_returns (auth_oracle true) expired_token_state).
  - intros e. discriminate.
  - intros e. discriminate.
  - reflexivity.
  - reflexivity.
Defined.

Lemma startup_update_as_manual_update_witness :
  fs (@initialize_email_vector_store test_ports
        (env_with (Ok (Some mailbox_service))) (load_config true) world_ready).2
  = fs (@update_email_vector_store_manual test_ports
          (env_with (Ok (Some mailbox_service))) test_dir 2 world_ready).2.
Proof.
  apply (@startup_update_as_manual_update test_ports
           (env_with (Ok (Some mailbox_service))) (load_config true)
           world_ready [prior_entry]); reflexivity.
Defined.

Lemma start_loads_existing_index_witness :
  fs (@initialize_email_vector_store test_ports (env_with (Ok None))
        (load_config false) world_ready).2 = fs world_ready
  ∧ (@initialize_email_vector_store test_ports (env_with (Ok None))
       (load_config false) world_ready).1 = Val (mkChroma test_dir).
Proof.
  destruct (@start_loads_existing_index test_ports (env_with (Ok None))
              (load_config false) world_ready [prior_entry])
    as (Hfs & _ & Hstore); try reflexivity.
  split; [exact Hfs | exact Hstore].
Defined.

Lemma startup_update_failure_is_not_fatal_witness :
  (@initialize_email_vector_store test_ports
     (env_with (Ok (Some unreachable_service))) (load_config true)
     world_ready).1 = Val (mkChroma test_dir)
  ∧ (@initialize_email_vector_store test_ports
       (env_with (Ok (Some mailbox_service))) overflow_config
       world_ready).1
    = Exc (mkExn OverflowError
             "days=1000000000; must have magnitude <= 999999999").
Proof.
  split.
  - apply (@startup_update_failure_is_not_fatal test_ports
             (env_with (Ok (Some unreachable_service))) (load_config true)
             world_ready [prior_entry]); reflexivity.
  - apply (@startup_update_failure_is_not_fatal test_ports
             (env_with (Ok (Some mailbox_service))) overflow_config
             world_ready [prior_entry]); reflexivity.
Defined.

Lemma start_bootstraps_empty_index_witness :
  (@initialize_email_vector_store test_ports (env_with (Ok None))
     (load_config false) world_absent).1 = Val (mkChroma test_dir)
  ∧ fs (@initialize_email_vector_store test_ports (env_with (Ok None))
          (load_config false) world_absent).2
    = <[test_dir := []]> (fs world_absent).
Proof.
  destruct (@start_bootstraps_empty_index test_ports (env_with (Ok None))
              (load_config false) world_absent)
    as (Hstore & Hfs & _); try reflexivity.
  split; [exact Hstore | exact Hfs].
Defined.

Lemma update_keeps_stored_ids_witness :
  "m0" ∈ @store_ids test_ports
           (default []
              (fs (@update_email_vector_store_manual test_ports
                     (env_with (Ok (Some mailbox_service))) test_dir 2
                     world_ready).2 !! test_dir)).
Proof.
  apply (@update_keeps_stored_ids test_ports
           (env_with (Ok (Some mailbox_service))) test_dir 2 world_ready "m0").
  apply list_elem_of_here.
Defined.

Lemma rebuild_index_is_the_batch_witness :
  (@initialize_email_vector_store test_ports
     (env_with (Ok (Some mailbox_service))) repo_config world_ready).1
  = Val (mkChroma test_dir)
  ∧ ∀ x, x ∈ default []
               (fs (@initialize_email_vector_store test_ports
                      (env_with (Ok (Some mailbox_service))) repo_config
                      world_ready).2 !! test_dir) →
         entry_id x ∈ ["m1"].
Proof.
  edestruct (@rebuild_index_is_the_batch test_ports
               (env_with (Ok (Some mailbox_service))) repo_config world_ready)
    as (Hstore & _ & Hids); try reflexivity.
  split; [exact Hstore | exact Hids].
Defined.

Lemma update_without_credentials_witness :
  @update_email_vector_store_manual test_ports
    (Auth.env_of (auth_oracle false) no_token_state (env_with (Ok None)))
    test_dir 2 world_ready
  = (Val (false, "Update failed: Gmail authentication failed."),
     add_events [EvChromaOpen test_dir; EvAuthenticate] world_ready)
  ∧ @update_email_vector_store_manual test_ports
      (Auth.env_of (auth_oracle false) no_token_state (env_with (Ok None)))
      test_dir 1000000000 world_ready
    = (Val (false,
            "An error occurred during the update: days=1000000000; must have magnitude <= 999999999"),
       add_events [EvChromaOpen test_dir] world_ready).
Proof.
  split.
  - apply (@update_without_credentials test_ports (env_with (Ok None))
             (auth_oracle false) no_token_state test_dir 2 world_ready
             [prior_entry]); reflexivity.
  - apply (@update_without_credentials test_ports (env_with (Ok None))
             (auth_oracle false) no_token_state test_dir 1000000000
             world_ready [prior_entry]); reflexivity.
Defined.

(** ** The tools and the session state *)

Section ToolsMore.
Context `{Ports}.
Variable PDF_DOC_PATH : string.
Variable dict_repr : gmap string meta_value → string.

#[local] Arguments String.append : simpl never.

Lemma retrieve_run (r : Retriever) (q : string) (w : World) :
  (∃ docs, retrieve r q w = (Val docs, w)) ∨ (∃ e, retrieve r q w = (Exc e, w)).
Proof.
  destruct r as [vs k|vs qc k]; unfold retrieve.
  - erewrite bind_Val by reflexivity.
    destruct (similarity_search _ q k None); [left|right]; by eexists.
  - destruct (qc q) as [f|e]; [|right; by eexists].
    erewrite bind_Val by reflexivity.
    erewrite bind_Val by reflexivity.
    destruct (similarity_search _ q k (Some f)); [left|right]; by eexists.
Qed.

(** The runs of the two tools on a valid input. *)
Lemma email_tool_run (llm : LanguageModel) (r : Retriever)
    (input : ToolInput) (q : string) (w : World) :
  query_of input = Some q →
  invoke_email_rag_chain llm r input w
  = match retrieve r q (with_context None w) with
    | (Val docs, _) =>
        match document_chain llm q docs with
        | Ok answer =>
            (Val answer, with_context (if nonempty docs then Some docs else None) w)
        | Raise e =>
            (Val ("Error invoking Email RAG chain: " +:+ exn_str e), with_context None w)
        end
    | (Exc e, _) =>
        (Val ("Error invoking Email RAG chain: " +:+ exn_str e), with_context None w)
    | (Stopped, _) => (Stopped, with_context None w)
    end.
Proof.
  intros Hq.
  assert (Hrun : ∀ query,
    invoke_email_rag_chain llm r (InputStr query) w
    = invoke_email_rag_chain llm r input w → query = q →
    invoke_email_rag_chain llm r input w
    = match retrieve r q (with_context None w) with
      | (Val docs, _) =>
          match document_chain llm q docs with
          | Ok answer =>
              (Val answer, with_context (if nonempty docs then Some docs else None) w)
          | Raise e =>
              (Val ("Error invoking Email RAG chain: " +:+ exn_str e), with_context None w)
          end
      | (Exc e, _) =>
          (Val ("Error invoking Email RAG chain: " +:+ exn_str e), with_context None w)
      | (Stopped, _) => (Stopped, with_context None w)
      end).
  { intros query <- ->. unfold invoke_email_rag_chain.
    erewrite bind_Val by reflexivity. fold (with_context None w).
    destruct (retrieve_run r q (with_context None w)) as [[docs Hr]|[e Hr]]; rewrite Hr.
    - destruct (document_chain llm q docs) as [answer|e] eqn:Hchain.
      + erewrite try_except_Val; [reflexivity|].
        erewrite bind_Val by exact Hr. cbv beta. rewrite Hchain.
        erewrite bind_Val by reflexivity.
        by destruct (nonempty docs).
      + erewrite try_except_Exc; [reflexivity|].
        erewrite bind_Val by exact Hr. cbv beta. by rewrite Hchain.
    - erewrite try_except_Exc; [reflexivity|].
      by erewrite bind_Exc by exact Hr. }
  destruct input as [[query|]|query|]; simplify_eq/=; by apply (Hrun q).
Qed.

Lemma handbook_tool_run (llm : LanguageModel) (r : Retriever)
    (input : ToolInput) (q : string) (w : World) :
  query_of input = Some q →
  invoke_rag_chain llm r input w
  = match retrieve r q (with_context None w) with
    | (Val docs, _) =>
        match document_chain llm q docs with
        | Ok answer =>
            (Val answer, with_context (if nonempty docs then Some docs else None) w)
        | Raise e =>
            (Val ("Error invoking RAG chain: " +:+ exn_str e), with_context None w)
        end
    | (Exc e, _) =>
        (Val ("Error invoking RAG chain: " +:+ exn_str e), with_context None w)
    | (Stopped, _) => (Stopped, with_context None w)
    end.
Proof.
  intros Hq.
  assert (Hrun : ∀ query,
    invoke_rag_chain llm r (InputStr query) w
    = invoke_rag_chain llm r input w → query = q →
    invoke_rag_chain llm r input w
    = match retrieve r q (with_context None w) with
      | (Val docs, _) =>
          match document_chain llm q docs with
          | Ok answer =>
              (Val answer, with_context (if nonempty docs then Some docs else None) w)
          | Raise e =>
              (Val ("Error invoking RAG chain: " +:+ exn_str e), with_context None w)
          end
      | (Exc e, _) =>
          (Val ("Error invoking RAG chain: " +:+ exn_str e), with_context None w)
      | (Stopped, _) => (Stopped, with_context None w)
      end).
  { intros query <- ->. unfold invoke_rag_chain.
    erewrite bind_Val by reflexivity. fold (with_context None w).
    destruct (retrieve_run r q (with_context None w)) as [[docs Hr]|[e Hr]]; rewrite Hr.
    - destruct (document_chain llm q docs) as [answer|e] eqn:Hchain.
      + erewrite try_except_Val; [reflexivity|].
        erewrite bind_Val by exact Hr. cbv beta. rewrite Hchain.
        erewrite bind_Val by reflexivity.
        by destruct (nonempty docs).
      + erewrite try_except_Exc; [reflexivity|].
        erewrite bind_Val by exact Hr. cbv beta. by rewrite Hchain.
    - erewrite try_except_Exc; [reflexivity|].
      by erewrite bind_Exc by exact Hr. }
  destruct input as [[query|]|query|]; simplify_eq/=; by apply (Hrun q).
Qed.

Lemma tool_invalid_input (llm : LanguageModel) (r : Retriever)
    (input : ToolInput) (w : World) :
  query_of input = None →
  invoke_email_rag_chain llm r input w
  = (Val "Error: Invalid input format for Email RAG tool.", with_context None w)
  ∧ invoke_rag_chain llm r input w
    = (Val "Error: Invalid input format for RAG tool.", with_context None w).
Proof. by destruct input as [[query|]|query|]. Qed.



(** X25: the handbook tool, which has no [else] branch for an empty
    context, leaves the session exactly as the e-mail tool does on the same
    retriever, model and input, and it returns a string as well. *)
Theorem handbook_tool_leaves_the_same_session (llm : LanguageModel)
    (r : Retriever) (input : ToolInput) (w : World) :
  (invoke_rag_chain llm r input w).2 = (invoke_email_rag_chain llm r input w).2
  ∧ ∃ answer, (invoke_rag_chain llm r input w).1 = Val answer.
Proof.
  destruct (query_of input) as [q|] eqn:Hq.
  - rewrite (email_tool_run llm r input q w Hq),
      (handbook_tool_run llm r input q w Hq).
    destruct (retrieve_run r q (with_context None w)) as [[docs Hr]|[e Hr]];
      rewrite Hr.
    + destruct (document_chain llm q docs) as [answer|e]; split; by eauto.
    + split; by eauto.
  - destruct (tool_invalid_input llm r input w Hq) as [-> ->].
    split; by eauto.
Qed.

Lemma source_line_email (i : nat) (e : email_data) (ts : option Z) :
  source_line PDF_DOC_PATH dict_repr i (make_document e ts)
  = ("Source " +:+ pretty (i + 1)%nat +:+ ": ")
    +:+ "Email | From: " +:+ em_sender e
    +:+ " | Subject: '" +:+ em_subject e
    +:+ "' | Date: " +:+ em_date e.
Proof.
  unfold source_line, make_document, get_or_na. cbn [metadata].
  rewrite bool_decide_eq_false_2 by apply insert_non_empty.
  rewrite lookup_insert_eq, bool_decide_eq_true_2 by done.
  do 2 rewrite lookup_insert_ne by done. rewrite lookup_insert_eq.
  do 4 rewrite lookup_insert_ne by done. rewrite lookup_insert_eq.
  do 3 rewrite lookup_insert_ne by done. rewrite lookup_insert_eq.
  reflexivity.
Qed.

Lemma documents_of_kept_emails (emails : list email_data) :
  (create_langchain_documents_from_emails emails).1
  = (λ e, make_document e (parse_timestamp (em_date e)))
    <$> filter (λ e, truthy (em_id e) = true) emails.
Proof.
  rewrite create_documents_omap. cbn [fst].
  induction emails as [|e l IH]; [done|]. csimpl.
  rewrite normalize_one_id, filter_cons.
  destruct (truthy (em_id e)) eqn:Hid; csimpl.
  - by rewrite IH.
  - exact IH.
Qed.

(** X26: when the session holds the documents the normalizer made from
    harvested e-mails, [get_last_context] lists them as e-mails, one line
    per item with a non-empty id, in the order of the harvest, with the
    sender, the subject and the raw date of the item: the keys the
    normalizer writes are the keys the tool reads. *)
Theorem last_context_lists_harvested_emails (w : World)
    (emails : list email_data) :
  let docs := (create_langchain_documents_from_emails emails).1 in
  last_used_context w = Some docs →
  docs ≠ [] →
  get_last_context PDF_DOC_PATH dict_repr w
  = (Val (join_lines
            ("Context used for the previous answer:"
             :: imap (λ i e,
                  ("Source " +:+ pretty (i + 1)%nat +:+ ": ")
                  +:+ "Email | From: " +:+ em_sender e
                  +:+ " | Subject: '" +:+ em_subject e
                  +:+ "' | Date: " +:+ em_date e)
                 (filter (λ e, truthy (em_id e) = true) emails))), w).
Proof.
  intros docs Hctx Hne. unfold get_last_context. rewrite Hctx.
  assert (Hdocs : imap (source_line PDF_DOC_PATH dict_repr) docs
                  = imap (λ i e,
                      ("Source " +:+ pretty (i + 1)%nat +:+ ": ")
                      +:+ "Email | From: " +:+ em_sender e
                      +:+ " | Subject: '" +:+ em_subject e
                      +:+ "' | Date: " +:+ em_date e)
                     (filter (λ e, truthy (em_id e) = true) emails)).
  { subst docs. rewrite documents_of_kept_emails, imap_fmap.
    apply imap_ext. intros i e _. apply source_line_email. }
  destruct docs as [|d rest]; [done|]. by rewrite Hdocs.
Qed.

(** X27: what [get_last_context] reports after a call of the e-mail tool
    is never the context of an earlier answer: it is the message that no
    context was stored, or the lines of the documents retrieved for the
    query of this call, from which its answer was made. *)
Theorem context_after_email_tool_is_current (llm : LanguageModel)
    (r : Retriever) (input : ToolInput) (w : World) :
  let run := (invoke_email_rag_chain llm r input;;
              get_last_context PDF_DOC_PATH dict_repr) w in
  run.1 = Val no_context_message
  ∨ ∃ q docs answer,
      query_of input = Some q
      ∧ retrieve r q (with_context None w) = (Val docs, with_context None w)
      ∧ document_chain llm q docs = Ok answer
      ∧ run.1 = Val (join_lines
                       ("Context used for the previous answer:"
                        :: imap (source_line PDF_DOC_PATH dict_repr) docs)).
Proof.
  cbv zeta.
  destruct (query_of input) as [q|] eqn:Hq.
  - destruct (retrieve_run r q (with_context None w)) as [[docs Hr]|[e Hr]].
    + destruct (document_chain llm q docs) as [answer|e] eqn:Hchain.
      * erewrite bind_Val
          by (rewrite (email_tool_run llm r input q w Hq), Hr, Hchain;
              reflexivity).
        destruct docs as [|d rest]; [by left|].
        right. exists q, (d :: rest), answer. by rewrite Hr.
      * erewrite bind_Val
          by (rewrite (email_tool_run llm r input q w Hq), Hr, Hchain;
              reflexivity).
        by left.
    + erewrite bind_Val
        by (rewrite (email_tool_run llm r input q w Hq), Hr; reflexivity).
      by left.
  - erewrite bind_Val by apply (tool_invalid_input llm r input w Hq).
    by left.
Qed.

End ToolsMore.

Lemma last_context_lists_harvested_emails_witness :
  @get_last_context test_ports "handbook.pdf" plain_repr world_with_context
  = (Val (join_lines
            ["Context used for the previous answer:";
             "Source 1: Email | From: dean@school.example | Subject: 'Assembly' | Date: "
             +:+ parsed_date]), world_with_context).
Proof.
  apply (@last_context_lists_harvested_emails test_ports "handbook.pdf"
           plain_repr world_with_context [assembly_email]).
  - reflexivity.
  - discriminate.
Defined.

(** ** The button of the sidebar *)

Section SidebarMore.
Context `{Ports}.
Variable env : Env.
Variable config : Config.

(** X28: the handler of the update button never fails. When the embedding
    model cannot be made, the update does not run and the error box names
    the exception; otherwise nothing of the update reaches the [except]
    clause: the result of the update is shown, and the cache of the agent
    is cleared exactly when the update reports a success. *)
Theorem update_button_clears_cache_on_success
    (embedding_model_error : option exn) (w : World) :
  let run := on_update_click env config embedding_model_error w in
  let start := StInfo "Checking for new emails and updating the index..." in
  match embedding_model_error with
  | Some e =>
      run = (Val [start;
                  StErrorBox ("An unexpected error occurred during update: "
                              +:+ exn_str e)], w)
  | None =>
      ∃ ok message w',
        update_email_vector_store_manual env (EMAIL_DB_DIRECTORY config)
          (EMAIL_UPDATE_WINDOW_DAYS config) w = (Val (ok, message), w')
        ∧ run.2 = w'
        ∧ ∃ shown, run.1 = Val shown
                   ∧ (CacheCleared ∈ shown ↔ ok = true)
                   ∧ (StSuccess message ∈ shown ↔ ok = true)
                   ∧ (StErrorBox message ∈ shown ↔ ok = false)
  end.
Proof.
  cbv zeta. destruct embedding_model_error as [e|]; [done|].
  destruct (update_paths env (EMAIL_DB_DIRECTORY config)
              (EMAIL_UPDATE_WINDOW_DAYS config) w)
    as ([ok message] & w' & Hrun & _).
  exists ok, message, w'. split; [done|].
  unfold on_update_click.
  destruct ok;
    (erewrite try_except_Val
       by (erewrite bind_Val by exact Hrun; reflexivity));
    (split; [done|]); (eexists; split; [reflexivity|]); cbn [app];
    rewrite !elem_of_cons, !elem_of_nil; naive_solver.
Qed.

End SidebarMore.

(** ** The metadata dump *)

Section DumpMore.
Context `{Ports}.
Variable env : Env.
Variable config : Config.

#[local] Arguments String.append : simpl never.
#[local] Arguments rebuild_email_vector_store : simpl never.
#[local] Arguments load_email_vector_store : simpl never.
#[local] Arguments startup_update : simpl never.

Lemma initialize_with_dump (dump : bool) (w : World) :
  initialize_email_vector_store env (with_dump dump config) w
  = match
      (vector_store ←
         (if REBUILD_EMAIL_VECTOR_STORE config
          then rebuild_email_vector_store env config (EMAIL_DB_DIRECTORY config)
          else load_email_vector_store env (EMAIL_DB_DIRECTORY config));
       (if negb (REBUILD_EMAIL_VECTOR_STORE config)
           && UPDATE_EMAIL_ON_STARTUP config
        then startup_update env config vector_store else pass);;
       mret vector_store) w
    with
    | (Val (Some vs), w2) =>
        (Val vs,
         if dump
         then add_events
                [EvDumpMetadata
                   (all_metadata (default [] (fs w2 !! persist_directory vs)))]
                w2
         else w2)
    | (Val None, w2) =>
        (Stopped,
         add_events [EvStError "Failed to load or create the email vector store."]
           w2)
    | (Exc e, w2) => (Exc e, w2)
    | (Stopped, w2) => (Stopped, w2)
    end.
Proof.
  unfold initialize_email_vector_store. cbn [with_dump
    EMAIL_DB_DIRECTORY REBUILD_EMAIL_VECTOR_STORE UPDATE_EMAIL_ON_STARTUP
    DUMP_EMAIL_METADATA_ON_STARTUP].
  unfold mbind, M_bind, mret, M_ret.
  destruct (if REBUILD_EMAIL_VECTOR_STORE config then _ else _)
    as [[vs|e|] w1]; [|done|done].
  destruct (negb (REBUILD_EMAIL_VECTOR_STORE config)
            && UPDATE_EMAIL_ON_STARTUP config).
  - change (startup_update env (with_dump dump config) vs)
      with (startup_update env config vs).
    destruct (startup_update env config vs w1) as [[[]|e|] w2]; [|done|done].
    by destruct vs as [vs|], dump.
  - by destruct vs as [vs|], dump.
Qed.

(** X29: the metadata dump of the start only reads: with the flag set or
    not, the start gives the same result and leaves the same index
    directories; and when the start returns a store with the flag set, the
    last thing it does is to dump the metadata of the index as the rebuild
    or the update left it. *)
Theorem dump_shows_the_final_index (w : World) :
  let run dump := initialize_email_vector_store env (with_dump dump config) w in
  (run true).1 = (run false).1
  ∧ fs (run true).2 = fs (run false).2
  ∧ ∀ vs, (run true).1 = Val vs →
          last (trace (run true).2)
          = Some (EvDumpMetadata
                    (all_metadata
                       (default [] (fs (run true).2 !! persist_directory vs)))).
Proof.
  cbv beta zeta. rewrite !initialize_with_dump.
  destruct (@mbind M _ (option Chroma) (option Chroma) _ _ w)
    as [[[vs|]|e|] w2]; cbn [fst snd fs add_events trace];
    (split; [done|]); (split; [done|]); intros vs' Hvs; try done.
  injection Hvs as ->. by rewrite last_snoc.
Qed.

End DumpMore.

Lemma dump_shows_the_final_index_witness :
  last (trace (@initialize_email_vector_store test_ports (env_with (Ok None))
                 dump_config world_ready).2)
  = Some (EvDumpMetadata (@all_metadata test_ports [prior_entry])).
Proof.
  destruct (@dump_shows_the_final_index test_ports (env_with (Ok None))
              (load_config false) world_ready) as (_ & _ & Hlast).
  exact (Hlast (mkChroma test_dir) eq_refl).
Defined.
